(** * electrum_nmc/interface.py: the per-server Electrum interface

    A shallow embedding of [src/electrum_nmc/interface.py]:
    - the server address codec ([deserialize_server], [serialize_server]);
    - [NotificationSession]: framer limit, subscription table and cache;
    - the checkpoint validator and the header fetchers of [Interface];
    - the header synchronisation state machine of [Interface];
    - the certificate store, the TLS context and [run] with its
      [handle_disconnect] wrapper;
    - [_match_hostname].

    Python integers are [Z] ([//] is floor division, which is [Z.div] for a
    positive divisor), [str] is [string] (in the address codec, where
    [int()] reads it, the list of its code points), [bytes] is
    [list ascii], a [dict]
    keyed by strings is a [gmap string _], a [set] of ints is a [gset Z].
    Exceptions are values of [exn]; a call that may raise returns a
    [result].  Coroutines are run to completion one at a time (the event
    loop is single-threaded); what the server or the [blockchain] module
    answers is a parameter of the section that needs it. *)

From Stdlib Require Import ZArith Lia Bool Ascii String List.
From stdpp Require Import gmap strings list.

Open Scope Z_scope.

(** ** Exceptions and results *)

Inductive exn : Type :=
| ValueError (msg : string)
| KeyError (msg : string)
| IndexError (msg : string)
| TypeError (msg : string)
| AttributeError (msg : string)
| AssertionError (msg : string)
| Exception (msg : string)
| GracefulDisconnect (msg : string)
| RequestTimedOut (msg : string).

(** [class RequestTimedOut(GracefulDisconnect)] *)
Definition is_graceful (e : exn) : bool :=
  match e with
  | GracefulDisconnect _ | RequestTimedOut _ => true
  | _ => false
  end.

Inductive result (A : Type) : Type :=
| Ok (a : A)
| Raise (e : exn).
Arguments Ok {A} a.
Arguments Raise {A} e.

Definition rbind {A B} (r : result A) (k : A -> result B) : result B :=
  match r with
  | Ok a => k a
  | Raise e => Raise e
  end.

(** The error monad, with stdpp's [x ← c; k] notation. *)
#[global] Instance result_ret : MRet result := fun A a => Ok a.
#[global] Instance result_bind : MBind result := fun A B k r => rbind r k.

(** ** Stateful code

    A method that reads and writes object state is a function from the
    state before to an [outcome]: the value returned and the state after, or
    the exception raised and the state at that point (a Python exception
    does not undo the writes made before it).  [OutOfFuel] is not a Python
    outcome: a [while] loop is run for at most [fuel] iterations, and
    [OutOfFuel] says the bound was too small. *)

Inductive outcome (W A : Type) : Type :=
| Returns (a : A) (w : W)
| Raises (e : exn) (w : W)
| OutOfFuel.
Arguments Returns {W A} a w.
Arguments Raises {W A} e w.
Arguments OutOfFuel {W A}.

Definition M (W A : Type) : Type := W -> outcome W A.

Definition ret {W A} (a : A) : M W A := fun w => Returns a w.

Definition bind {W A B} (c : M W A) (k : A -> M W B) : M W B :=
  fun w => match c w with
           | Returns a w' => k a w'
           | Raises e w' => Raises e w'
           | OutOfFuel => OutOfFuel
           end.

Notation "'let*' x := c 'in' k" := (bind c (fun x => k))
  (at level 10, x pattern, c at level 200, k at level 200).
Notation "c ;; k" := (bind c (fun _ => k))
  (at level 100, k at level 200, right associativity).

Definition raise {W A} (e : exn) : M W A := fun w => Raises e w.
Definition gets {W A} (f : W -> A) : M W A := fun w => Returns (f w) w.
Definition modify {W} (f : W -> W) : M W unit := fun w => Returns tt (f w).
Definition lift_result {W A} (r : result A) : M W A :=
  fun w => match r with Ok a => Returns a w | Raise e => Raises e w end.

(** [assert cond, msg] *)
Definition assert {W} (cond : bool) (msg : string) : M W unit :=
  if cond then ret tt else raise (AssertionError msg).

(** [try: body finally: handler], for a handler that only writes state. *)
Definition try_finally {W A} (body : M W A) (handler : W -> W) : M W A :=
  fun w => match body w with
           | Returns a w' => Returns a (handler w')
           | Raises e w' => Raises e (handler w')
           | OutOfFuel => OutOfFuel
           end.

(** The state an outcome ends in. *)
Definition final_state {W A} (o : outcome W A) : option W :=
  match o with
  | Returns _ w | Raises _ w => Some w
  | OutOfFuel => None
  end.

(** A computation keeps a relation between the state it starts in and the
    state it ends in, whether it returns or raises. *)
Definition preserves {W A} (R : W -> W -> Prop) (c : M W A) : Prop :=
  forall w w', final_state (c w) = Some w' -> R w w'.

(** A computation with no loop in it needs no fuel. *)
Definition total {W A} (c : M W A) : Prop := forall w, c w <> OutOfFuel.

(** ** Python strings and integers *)

Module PyStr.

(** A [str] of the address codec is the sequence of its code points. *)
Definition str : Type := list Z.

(** [ord(c)] for an ASCII character, and an ASCII literal as a [str]. *)
Definition ord (c : ascii) : Z := Z.of_nat (nat_of_ascii c).
#[global] Arguments ord : simpl never.

Definition lit (s : string) : str := ord <$> list_ascii_of_string s.

(** Split at the last occurrence of [sep]: [(before, after)]. *)
Fixpoint rsplit_last (sep : Z) (s : str) : option (str * str) :=
  match s with
  | [] => None
  | c :: rest =>
      match rsplit_last sep rest with
      | Some (a, b) => Some (c :: a, b)
      | None => if c =? sep then Some ([], rest) else None
      end
  end.

(** [s.rsplit(sep, maxsplit)] for a one-character separator. *)
Fixpoint rsplit (sep : Z) (maxsplit : nat) (s : str) : list str :=
  match maxsplit with
  | O => [s]
  | S n =>
      match rsplit_last sep s with
      | None => [s]
      | Some (a, b) => rsplit sep n a ++ [b]
      end
  end.

Fixpoint contains (c : Z) (s : str) : bool :=
  match s with
  | [] => false
  | d :: rest => (d =? c) || contains c rest
  end.

(** [sep.join(parts)] *)
Fixpoint join (sep : str) (parts : list str) : str :=
  match parts with
  | [] => []
  | [p] => p
  | p :: rest => p ++ sep ++ join sep rest
  end.

(** What [int()] and [str()] take from the interpreter: of the Unicode
    database, which code points are white space and which are decimal
    digits, with their value from 0 to 9 ([None] is the [-1] of
    [Py_UNICODE_TODECIMAL]); and [sys.get_int_max_str_digits()], which is
    0 when there is no limit, as in every Python before 3.11. *)
Class Runtime : Type := {
  Py_UNICODE_ISSPACE : Z -> bool;
  Py_UNICODE_TODECIMAL : Z -> option Z;
  int_max_str_digits : Z
}.

(** [Py_ISSPACE]: space, \t \n \v \f \r.  The separators \x1c..\x1f are
    white space for [str.isspace] and [str.strip], and are not for
    [int()]. *)
Definition is_space (c : Z) : bool :=
  (c =? 32) || ((9 <=? c) && (c <=? 13)).

Fixpoint lstrip (s : str) : str :=
  match s with
  | c :: rest => if is_space c then lstrip rest else s
  | [] => []
  end.

Fixpoint rstrip (s : str) : str :=
  match s with
  | [] => []
  | c :: rest =>
      match rstrip rest with
      | [] => if is_space c then [] else [c]
      | r => c :: r
      end
  end.

Definition strip (s : str) : str := rstrip (lstrip s).

(** No white space anywhere: [strip] leaves such a string as it is. *)
Fixpoint no_space (s : str) : bool :=
  match s with
  | [] => true
  | c :: rest => negb (is_space c) && no_space rest
  end.

(** The value of an ASCII digit. *)
Definition digit_val (c : Z) : option Z :=
  if (48 <=? c) && (c <=? 57) then Some (c - 48) else None.

(** Decimal digits, with single underscores allowed between digits. *)
Fixpoint parse_digits (acc : Z) (after_digit : bool) (s : str) : option Z :=
  match s with
  | [] => if after_digit then Some acc else None
  | c :: rest =>
      match digit_val c with
      | Some d => parse_digits (10 * acc + d) true rest
      | None =>
          if (c =? ord "_") && after_digit
          then match rest with
               | [] => None
               | _ => parse_digits acc false rest
               end
          else None
      end
  end.

Fixpoint count_digits (s : str) : Z :=
  match s with
  | [] => 0
  | c :: rest =>
      match digit_val c with
      | Some _ => 1 + count_digits rest
      | None => count_digits rest
      end
  end.

Definition digit_char (d : Z) : Z := 48 + d.

Fixpoint digits_of (fuel : nat) (n : Z) (acc : str) : str :=
  match fuel with
  | O => acc
  | S f =>
      let acc' := digit_char (n mod 10) :: acc in
      if n <? 10 then acc' else digits_of f (n / 10) acc'
  end.

Section Int.
Context `{Runtime}.

(** [PyUnicode_IS_ASCII] *)
Definition is_ascii (s : str) : bool := forallb (fun c => c <? 128) s.

(** [_PyUnicode_TransformDecimalAndSpaceToASCII] on a string that is not
    ASCII: a code point below 127 stays, white space becomes a space, a
    decimal digit becomes its ASCII digit, and at anything else the
    string is cut with a ['?'], which no number holds. *)
Fixpoint transform_chars (s : str) : str :=
  match s with
  | [] => []
  | c :: rest =>
      if c <? 127 then c :: transform_chars rest
      else if Py_UNICODE_ISSPACE c then ord " " :: transform_chars rest
      else match Py_UNICODE_TODECIMAL c with
           | Some d => digit_char d :: transform_chars rest
           | None => [ord "?"]
           end
  end.

Definition transform (s : str) : str :=
  if is_ascii s then s else transform_chars s.

(** The limit on conversions: looked at for a text of more than 640
    characters, and passed when there is a limit and the digits are more
    than it. *)
Definition over_limit (len digits : Z) : bool :=
  (640 <? len) && (0 <? int_max_str_digits)
  && (int_max_str_digits <? digits).

(** [PyLong_FromString] in base 10; [None] is [ValueError].  A NUL in
    the string ends the C string early, which is an error: here it is a
    character that is neither space, sign, digit nor underscore. *)
Definition pylong (s : str) : option Z :=
  match strip s with
  | [] => None
  | c :: rest =>
      let body := if (c =? ord "+") || (c =? ord "-") then rest else c :: rest in
      match parse_digits 0 false body with
      | None => None
      | Some n =>
          if over_limit (count_digits body) (count_digits body) then None
          else Some (if c =? ord "-" then - n else n)
      end
  end.

(** [int(s)] for a [str] argument; [None] is [ValueError]. *)
Definition int_of_str (s : str) : option Z := pylong (transform s).

(** [str(n)] for an [int]. *)
Definition str_of_int (n : Z) : result str :=
  let digits :=
    digits_of (S (Z.to_nat (Z.log2 (Z.abs n)))) (Z.abs n) [] in
  let text := if n <? 0 then ord "-" :: digits else digits in
  if over_limit (Z.of_nat (length text)) (Z.of_nat (length digits))
  then Raise (ValueError "Exceeds the limit for integer string conversion")
  else Ok text.

End Int.

End PyStr.

(** ** Server address codec *)

Module ServerAddr.
Import PyStr.

(** [port: Union[str, int]] *)
Inductive port_arg : Type :=
| PortStr (s : str)
| PortInt (n : Z).

Section Codec.
Context `{Runtime}.

(** [str(port)] *)
Definition str_of_port (p : port_arg) : result str :=
  match p with
  | PortStr s => Ok s
  | PortInt n => str_of_int n
  end.

(** The number a port stands for, [int(port)]. *)
Definition int_of_port (p : port_arg) : option Z :=
  match p with
  | PortStr s => int_of_str s
  | PortInt n => Some n
  end.

Definition deserialize_server (server_str : str) : result (str * str * str) :=
  match rsplit (ord ":") 2 server_str with
  | [host; port; protocol] =>
      if bool_decide (host = []) then Raise (ValueError "host must not be empty")
      else if negb (bool_decide (protocol = lit "s")
                    || bool_decide (protocol = lit "t"))
      then Raise (ValueError "invalid network protocol")
      else match int_of_str port with
           | None => Raise (ValueError "invalid literal for int() with base 10")
           | Some n =>
               if negb ((0 <? n) && (n <? 2 ^ 16))
               then Raise (ValueError "port is out of valid range")
               else Ok (host, port, protocol)
           end
  | _ => Raise (ValueError "not enough values to unpack (expected 3)")
  end.

Definition serialize_server (host : str) (port : port_arg) (protocol : str)
  : result str :=
  p ← str_of_port port;
  Ok (join (lit ":") [host; p; protocol]).

(** A valid triple: non-empty host, [0 < port < 65536], protocol [t] or [s]. *)
Definition valid_triple (host : str) (port : port_arg) (protocol : str) : Prop :=
  host <> [] /\
  (exists n, int_of_port port = Some n /\ 0 < n < 65536) /\
  (protocol = lit "s" \/ protocol = lit "t").

End Codec.

(** The triple [deserialize_server] returns, as Python values: all three
    components are [str]. *)
Definition as_values (t : str * str * str) : str * port_arg * str :=
  match t with (h, p, pr) => (h, PortStr p, pr) end.

End ServerAddr.

(** A part of the Unicode database to run the codec with: the white
    space of the Basic Multilingual Plane, and the ASCII, Arabic-Indic,
    Devanagari and fullwidth digits; the limit is the default of Python
    3.11. *)
Module ToyRuntime.
Import PyStr.

Definition isspace (c : Z) : bool :=
  ((9 <=? c) && (c <=? 13)) || ((28 <=? c) && (c <=? 32))
  || (c =? 133) || (c =? 160) || (c =? 5760)
  || ((8192 <=? c) && (c <=? 8202)) || (c =? 8232) || (c =? 8233)
  || (c =? 8239) || (c =? 8287) || (c =? 12288).

Definition todecimal (c : Z) : option Z :=
  if (48 <=? c) && (c <=? 57) then Some (c - 48)
  else if (1632 <=? c) && (c <=? 1641) then Some (c - 1632)
  else if (1776 <=? c) && (c <=? 1785) then Some (c - 1776)
  else if (2406 <=? c) && (c <=? 2415) then Some (c - 2406)
  else if (65296 <=? c) && (c <=? 65305) then Some (c - 65296)
  else None.

#[local] Instance runtime : Runtime := {|
  Py_UNICODE_ISSPACE := isspace;
  Py_UNICODE_TODECIMAL := todecimal;
  int_max_str_digits := 4300
|}.

End ToyRuntime.

(** ** NotificationSession *)

Module Session.

(** What the wire gives back for one request. *)
Inductive wire_outcome (V : Type) : Type :=
| Response (v : V)
| TimedOut                      (* [asyncio.TimeoutError] from [wait_for] *)
| WireError (e : exn).          (* RPC or transport error, propagated *)
Arguments Response {V} v.
Arguments TimedOut {V}.
Arguments WireError {V} e.

(** An incoming message: [isinstance(request, Notification)] or not. *)
Inductive rpc_request (V : Type) : Type :=
| Notification (method : string) (args : list V)
| Request (method : string) (args : list V).
Arguments Notification {V} method args.
Arguments Request {V} method args.

Section WithValues.
(** JSON values, [repr] of a parameter list, and the server: the
    response to the request with a given message id. *)
Context {V : Type}.
Variable repr : list V -> string.
Variable respond : Z -> string -> list V -> wire_outcome V.

(** The session object, the [asyncio.Queue]s of its subscribers (by
    identity; a queue holds the items put and not yet taken) and the
    requests that touched the wire. *)
Record session : Type := mkSession {
  subscriptions : gmap string (list nat);   (* defaultdict(list) *)
  cache : gmap string V;
  framer_max_size : Z;
  default_timeout : Z;
  msg_counter : Z;
  queues : gmap nat (list (list V));
  wire : list (string * list V)
}.

Definition set_subscriptions f (s : session) : session :=
  mkSession (f (subscriptions s)) (cache s) (framer_max_size s)
    (default_timeout s) (msg_counter s) (queues s) (wire s).
Definition set_cache f (s : session) : session :=
  mkSession (subscriptions s) (f (cache s)) (framer_max_size s)
    (default_timeout s) (msg_counter s) (queues s) (wire s).
Definition set_queues f (s : session) : session :=
  mkSession (subscriptions s) (cache s) (framer_max_size s)
    (default_timeout s) (msg_counter s) (f (queues s)) (wire s).
Definition on_wire (method : string) (params : list V) (s : session) : session :=
  mkSession (subscriptions s) (cache s) (framer_max_size s)
    (default_timeout s) (msg_counter s + 1) (queues s)
    (wire s ++ [(method, params)]).

(** [NotificationSession.__init__]; [NetworkTimeout.Generic.NORMAL = 30]. *)
Definition init : session :=
  mkSession ∅ ∅ 20000000 30 0 ∅ [].

Definition get_hashable_key_for_rpc_call (method : string) (params : list V)
  : string :=
  method +:+ repr params.

(** [await queue.put(item)] on an unbounded queue. *)
Definition queue_put (queue : nat) (item : list V) : M session unit :=
  modify (set_queues (fun qs => <[queue := default [] (qs !! queue) ++ [item]]> qs)).

Fixpoint put_all (qs : list nat) (item : list V) : M session unit :=
  match qs with
  | [] => ret tt
  | q :: rest => queue_put q item;; put_all rest item
  end.

(** [(args[:-1], args[-1])]; [None] when [args[-1]] raises [IndexError]. *)
Fixpoint unsnoc (args : list V) : option (list V * V) :=
  match args with
  | [] => None
  | [x] => Some ([], x)
  | x :: rest =>
      match unsnoc rest with
      | Some (front, y) => Some (x :: front, y)
      | None => None
      end
  end.

(** The exception message goes on with [repr(request)]. *)
Definition handle_request (request : rpc_request V) : M session unit :=
  match request with
  | Notification method args =>
      match unsnoc args with
      | None => raise (IndexError "list index out of range")
      | Some (params, result) =>
          let key := get_hashable_key_for_rpc_call method params in
          let* subs := gets subscriptions in
          match subs !! key with
          | Some qs =>
              modify (set_cache (fun c => <[key := result]> c));;
              put_all qs args
          | None => raise (Exception "unexpected request")
          end
      end
  | Request _ _ => ret tt
  end.

Definition send_request (method : string) (params : list V) : M session V :=
  let* msg_id := gets (fun s => msg_counter s + 1) in
  modify (on_wire method params);;
  match respond msg_id method params with
  | Response v => ret v
  | TimedOut => raise (RequestTimedOut "request timed out")
  | WireError e => raise e
  end.

Definition subscribe (method : string) (params : list V) (queue : nat)
  : M session unit :=
  let key := get_hashable_key_for_rpc_call method params in
  modify (set_subscriptions
                (fun subs => <[key := default [] (subs !! key) ++ [queue]]> subs));;
  let* c := gets cache in
  let* result :=
    match c !! key with
    | Some r => ret r
    | None =>
        let* r := send_request method params in
        modify (set_cache (fun c => <[key := r]> c));;
        ret r
    end in
  queue_put queue (params ++ [result]).

(** [v.remove(queue)]: the first occurrence only. *)
Fixpoint remove_first (queue : nat) (v : list nat) : list nat :=
  match v with
  | [] => []
  | q :: rest => if Nat.eqb q queue then rest else q :: remove_first queue rest
  end.

Definition unsubscribe (queue : nat) : M session unit :=
  modify (set_subscriptions (fun subs => remove_first queue <$> subs)).

(** A session's life: calls made one after the other. *)
Inductive call : Type :=
| CallSubscribe (method : string) (params : list V) (queue : nat)
| CallUnsubscribe (queue : nat)
| CallHandleRequest (request : rpc_request V).

Definition run_call (c : call) : M session unit :=
  match c with
  | CallSubscribe m p q => subscribe m p q
  | CallUnsubscribe q => unsubscribe q
  | CallHandleRequest r => handle_request r
  end.

(** The session after a call, whether it returned or raised. *)
Definition after (c : call) (s : session) : session :=
  default s (final_state (run_call c s)).

Definition run (calls : list call) (s : session) : session :=
  fold_left (fun s c => after c s) calls s.

(** How many times [queue] is listed in [qs]: how many copies of an item
    it gets when the item is put on each queue of [qs]. *)
Fixpoint copies (queue : nat) (qs : list nat) : nat :=
  match qs with
  | [] => O
  | q :: rest => ((if Nat.eqb q queue then 1 else 0) + copies queue rest)%nat
  end.

(** The subscription table once [queue] is appended under the key. *)
Definition registered (method : string) (params : list V) (queue : nat)
    (s : session) : gmap string (list nat) :=
  let key := get_hashable_key_for_rpc_call method params in
  <[key := default [] (subscriptions s !! key) ++ [queue]]> (subscriptions s).

(** Some earlier [subscribe] call had this key. *)
Definition subscribed_in (key : string) (calls : list call) : Prop :=
  exists m p q, In (CallSubscribe m p q) calls /\
                get_hashable_key_for_rpc_call m p = key.

(** The references to [queue] that the calls of a session leave under
    [key], counted from the calls alone: a [subscribe] with that key and
    that queue adds one, an [unsubscribe] of that queue takes one away
    when there is one, and nothing else changes the count. *)
Definition references_step (key : string) (queue : nat) (n : nat) (c : call)
  : nat :=
  match c with
  | CallSubscribe m p q =>
      if bool_decide (get_hashable_key_for_rpc_call m p = key) && Nat.eqb q queue
      then S n else n
  | CallUnsubscribe q => if Nat.eqb q queue then pred n else n
  | CallHandleRequest _ => n
  end.

Definition references (key : string) (queue : nat) (calls : list call) : nat :=
  fold_left (references_step key queue) calls O.

End WithValues.

(** Modelled from the spec: the check of aiorpcx's framer, a library that
    is not part of this repository, against the [max_size] the session
    sets: a frame larger than the limit is a protocol error. *)
Definition framer_accepts (max_size frame_size : Z) : bool :=
  frame_size <=? max_size.

Definition MiB : Z := 1024 * 1024.

End Session.

(** ** Interface: data and collaborators *)

Module Iface.

Definition bytes : Type := list ascii.

(** The test hooks a header dict may carry under ['mock']. *)
Record MockHooks (Header Chain : Type) : Type := mkMock {
  mock_check : Header -> bool;              (* ['mock']['check'](header) *)
  mock_connect : Z -> bool;                 (* ['mock']['connect'](height) *)
  mock_fork : option (Header -> Chain)      (* ['mock']['fork'], when present *)
}.
Arguments mkMock {Header Chain}.
Arguments mock_check {Header Chain}.
Arguments mock_connect {Header Chain}.
Arguments mock_fork {Header Chain}.

(** Requests the interface puts on the wire. *)
Inductive request : Type :=
| BlockHeader (height cp_height : Z)           (* blockchain.block.header *)
| BlockHeaders (height count cp_height : Z).   (* blockchain.block.headers *)

(** A JSON response: a string, or an object with some of these keys. *)
Record rdict : Type := mkRdict {
  r_root : option string;
  r_branch : option (list string);
  r_header : option string;
  r_hex : option string;
  r_count : option Z
}.

Inductive response : Type :=
| RespStr (s : string)
| RespDict (d : rdict).

(** An item of the header queue: [{'height': ..., 'hex': ...}]. *)
Record raw_header : Type := mkRaw { raw_height : Z; raw_hex : string }.

(** The [asyncio.Future] [ready]. *)
Inductive future : Type := Pending | Done | Cancelled.

(** ['catchup'], ['no_fork'], ['fork'] *)
Inductive mode : Type := catchup | no_fork | fork.

#[global] Instance mode_eq_dec : EqDecision mode.
Proof. solve_decision. Defined.

(** What is not in this file of the repository: [constants.net], [util],
    [crypto], the [blockchain] module with its [Blockchain] objects (the
    state of the module, its dict of chains and their files, is a [Store]),
    and the server at the other end of the session. *)
Class Collaborators : Type := {
  Header : Type;
  Chain : Type;
  Store : Type;
  (* constants.net *)
  max_checkpoint : Z;
  VERIFICATION_BLOCK_MERKLE_ROOT : string;
  (* util.bfh = bytes.fromhex, crypto.sha256d *)
  bfh : string -> result bytes;
  sha256d : bytes -> bytes;
  (* blockchain: functions of the module *)
  root_from_proof : bytes -> list bytes -> Z -> result bytes;
  deserialize_header : bytes -> Z -> result Header;
  verify_proven_chunk : Z -> bytes -> result unit;
  check_header : Store -> Header -> option Chain;
  can_connect : Store -> Header -> bool -> option Chain;
  get_best_chain : Store -> option Chain;
  heights : Store -> list Z;     (* [x.height() for x in blockchains.values()] *)
  (* blockchain: a header dict *)
  block_height : Header -> Z;
  mock : Header -> option (MockHooks Header Chain);
  (* blockchain: methods of a Blockchain *)
  chain_height : Store -> Chain -> Z;
  chain_check_header : Store -> Chain -> Header -> bool;
  chain_can_connect : Store -> Chain -> Header -> bool -> bool;
  chain_connect_chunk : Store -> Chain -> Z -> string -> bool -> bool * Store;
  chain_save_header : Store -> Chain -> Header -> Store;
  chain_fork : Store -> Chain -> Header -> result (Chain * Store);
  forkpoint : Chain -> Z;
  (* the server: its answer to the request with a given message id, or
     the exception [session.send_request] raises for it *)
  server : Z -> request -> result response
}.

(** A value used for its truth: a [Blockchain], a [bool], or [None]. *)
Inductive pyval (C : Type) : Type :=
| PyChain (c : C)
| PyBool (b : bool)
| PyNone.
Arguments PyChain {C} c.
Arguments PyBool {C} b.
Arguments PyNone {C}.

Definition truthy {C} (v : pyval C) : bool :=
  match v with
  | PyChain _ => true
  | PyBool b => b
  | PyNone => false
  end.

Definition of_option {C} (o : option C) : pyval C :=
  match o with Some c => PyChain c | None => PyNone end.

(** [s[start:stop]] *)
Definition py_slice (s : string) (start stop : Z) : string :=
  let n := Z.of_nat (String.length s) in
  let clip i := Z.max 0 (Z.min n (if i <? 0 then i + n else i)) in
  let a := clip start in
  let b := clip stop in
  String.substring (Z.to_nat a) (Z.to_nat (b - a)) s.

(** [needle in s] for two strings *)
Definition in_str (needle s : string) : bool :=
  match String.index 0 needle s with Some _ => true | None => false end.

(** [key in res] *)
Definition has_key (key : string) (field : rdict -> bool) (res : response) : bool :=
  match res with
  | RespStr s => in_str key s
  | RespDict d => field d
  end.

Definition has_root := has_key "root" (fun d => bool_decide (is_Some (r_root d))).
Definition has_branch := has_key "branch" (fun d => bool_decide (is_Some (r_branch d))).
Definition has_header := has_key "header" (fun d => bool_decide (is_Some (r_header d))).

(** [res[key]] *)
Definition get_item {A} (field : rdict -> option A) (res : response) : result A :=
  match res with
  | RespStr _ => Raise (TypeError "string indices must be integers")
  | RespDict d =>
      match field d with
      | Some a => Ok a
      | None => Raise (KeyError "key")
      end
  end.

(** [[f(v) for v in l]] where [f] may raise. *)
Fixpoint map_result {A B} (f : A -> result B) (l : list A) : result (list B) :=
  match l with
  | [] => Ok []
  | a :: rest => b ← f a; bs ← map_result f rest; Ok (b :: bs)
  end.

Definition bytes_eqb (a b : bytes) : bool := bool_decide (a = b).

Section Interface.
Context `{Collaborators}.

(** The fields of [Interface] the synchronisation code reads and writes,
    the message counter and the wire of its session, the state of the
    [blockchain] module, and the callbacks triggered on the network. *)
Record world : Type := mkWorld {
  tip : Z;
  tip_header : option Header;
  blockchain : option Chain;
  requested_chunks : gset Z;
  ready : future;
  msg_counter : Z;
  wire : list request;
  store : Store;
  callbacks : list string
}.

Definition set_tip (h : Z) (hd : Header) (w : world) : world :=
  mkWorld h (Some hd) (blockchain w) (requested_chunks w) (ready w)
    (msg_counter w) (wire w) (store w) (callbacks w).
Definition set_blockchain (c : option Chain) (w : world) : world :=
  mkWorld (tip w) (tip_header w) c (requested_chunks w) (ready w)
    (msg_counter w) (wire w) (store w) (callbacks w).
Definition set_requested_chunks (f : gset Z -> gset Z) (w : world) : world :=
  mkWorld (tip w) (tip_header w) (blockchain w) (f (requested_chunks w))
    (ready w) (msg_counter w) (wire w) (store w) (callbacks w).
Definition set_ready (r : future) (w : world) : world :=
  mkWorld (tip w) (tip_header w) (blockchain w) (requested_chunks w) r
    (msg_counter w) (wire w) (store w) (callbacks w).
Definition on_wire (r : request) (w : world) : world :=
  mkWorld (tip w) (tip_header w) (blockchain w) (requested_chunks w)
    (ready w) (msg_counter w + 1) (wire w ++ [r]) (store w) (callbacks w).
Definition set_store (s : Store) (w : world) : world :=
  mkWorld (tip w) (tip_header w) (blockchain w) (requested_chunks w)
    (ready w) (msg_counter w) (wire w) s (callbacks w).
Definition trigger_callback (name : string) : M world unit :=
  modify (fun w =>
    mkWorld (tip w) (tip_header w) (blockchain w) (requested_chunks w)
      (ready w) (msg_counter w) (wire w) (store w) (callbacks w ++ [name])).

(** Two states that differ at most in the message counter and the wire:
    what a request to the server changes. *)
Definition only_wire (w w' : world) : Prop :=
  tip w' = tip w /\ tip_header w' = tip_header w /\
  blockchain w' = blockchain w /\ requested_chunks w' = requested_chunks w /\
  ready w' = ready w /\ store w' = store w /\ callbacks w' = callbacks w.

Definition same_tip (w w' : world) : Prop := tip w' = tip w.

Definition same_requested (w w' : world) : Prop :=
  requested_chunks w' = requested_chunks w.

(** [await self.session.send_request(...)] *)
Definition send_request (r : request) : M world response :=
  let* msg_id := gets (fun w => msg_counter w + 1) in
  modify (on_wire r);;
  lift_result (server msg_id r).

(** [self.blockchain], which is [None] until [mark_ready]. *)
Definition bound_chain : M world Chain :=
  let* b := gets blockchain in
  match b with
  | Some c => ret c
  | None => raise (AttributeError "'NoneType' object has no attribute")
  end.

(** [blockchain.check_header(header) if 'mock' not in header
     else header['mock']['check'](header)] *)
Definition check (header : Header) : M world (pyval Chain) :=
  gets (fun w =>
    match mock header with
    | None => of_option (check_header (store w) header)
    | Some m => PyBool (mock_check m header)
    end).

(** The truth of [check header] in a state. *)
Definition checks (header : Header) (w : world) : bool :=
  match check header w with
  | Returns chain _ => truthy chain
  | _ => false
  end.

(** [blockchain.can_connect(header, proof_was_provided=...)
     if 'mock' not in header else header['mock']['connect'](height)] *)
Definition connect (header : Header) (proof_was_provided : bool) (height : Z)
  : M world (pyval Chain) :=
  gets (fun w =>
    match mock header with
    | None => of_option (can_connect (store w) header proof_was_provided)
    | Some m => PyBool (mock_connect m height)
    end).

(** [chain or can_connect] for a fetched header: it checks against some
    chain or can connect. *)
Definition links (header : Header) (proof_was_provided : bool) (height : Z)
    (w : world) : bool :=
  checks header w
  || match connect header proof_was_provided height w with
     | Returns can_connect _ => truthy can_connect
     | _ => false
     end.

(** [self.blockchain = chain if isinstance(chain, Blockchain)
     else self.blockchain] *)
Definition rebind (chain : pyval Chain) : M world unit :=
  match chain with
  | PyChain c => modify (set_blockchain (Some c))
  | _ => ret tt
  end.

Definition _assert_header_does_not_check_against_any_chain (header : Header)
  : M world unit :=
  let* chain_bad := check header in
  if truthy chain_bad then raise (Exception "bad_header must not check!")
  else ret tt.

(** *** Checkpoint validator *)

Definition validate_checkpoint_result (merkle_root : string)
    (merkle_branch : list string) (header : string) (header_height : Z)
  : result unit :=
  received ← bfh merkle_root;
  let received_merkle_root := rev received in
  expected ← bfh VERIFICATION_BLOCK_MERKLE_ROOT;
  let expected_merkle_root := rev expected in
  if negb (bytes_eqb received_merkle_root expected_merkle_root)
  then Raise (Exception "Sent unexpected merkle root")
  else
    header_bytes ← bfh header;
    let header_hash := sha256d header_bytes in
    byte_branches ← map_result (fun v => b ← bfh v; Ok (rev b)) merkle_branch;
    proven_merkle_root ← root_from_proof header_hash byte_branches header_height;
    if negb (bytes_eqb proven_merkle_root expected_merkle_root)
    then Raise (Exception "Sent incorrect merkle branch")
    else Ok tt.

(** *** Header fetchers *)

Definition get_block_header (height : Z) (assert_mode : string)
    (must_provide_proof : bool) : M world (Header * bool) :=
  let cp_height := max_checkpoint in
  let* cp_height :=
    if cp_height <? height
    then if must_provide_proof
         then raise (Exception
                "Can't request a checkpoint proof because requested height is above checkpoint height")
         else ret 0
    else ret cp_height in
  let* res := send_request (BlockHeader height cp_height) in
  let* (hexheader, proof_was_provided) :=
    if has_root res && has_branch res && has_header res
    then if cp_height =? 0
         then raise (Exception
                "Received checkpoint validation data even though it wasn't requested.")
         else
           let* hexheader := lift_result (get_item r_header res) in
           let* root := lift_result (get_item r_root res) in
           let* branch := lift_result (get_item r_branch res) in
           lift_result (validate_checkpoint_result root branch hexheader height);;
           ret (hexheader, true)
    else if negb (cp_height =? 0)
         then raise (Exception
                "Expected checkpoint validation data, did not receive it.")
         else match res with
              | RespStr s => ret (s, false)
              | RespDict _ => raise (TypeError "fromhex() argument must be str, not dict")
              end in
  let* header := lift_result (b ← bfh hexheader; deserialize_header b height) in
  ret (header, proof_was_provided).

Definition request_headers (height count : Z) : M world (response * bool) :=
  if 2016 <? count
  then raise (Exception
         "Server does not support requesting more than 2016 consecutive headers")
  else
    let top_height := height + count - 1 in
    let cp_height := if max_checkpoint <? top_height then 0 else max_checkpoint in
    let* res := send_request (BlockHeaders height count cp_height) in
    let header_hexsize := 80 * 2 in
    let* hexdata := lift_result (get_item r_hex res) in
    let actual_header_count := Z.of_nat (String.length hexdata) / header_hexsize in
    if count <? actual_header_count
    then raise (Exception "chunk data size incorrect")
    else
      let* proof_was_provided :=
        if has_root res && has_branch res
        then if cp_height =? 0
             then raise (Exception
                    "Received checkpoint validation data even though it wasn't requested.")
             else
               let header_height := height + actual_header_count - 1 in
               let header_offset := (actual_header_count - 1) * header_hexsize in
               let header :=
                 py_slice hexdata header_offset (header_offset + header_hexsize) in
               let* root := lift_result (get_item r_root res) in
               let* branch := lift_result (get_item r_branch res) in
               lift_result
                 (validate_checkpoint_result root branch header header_height);;
               let* data := lift_result (bfh hexdata) in
               lift_result (verify_proven_chunk height data);;
               ret true
        else if negb (cp_height =? 0)
             then raise (Exception
                    "Expected checkpoint validation data, did not receive it.")
             else ret false in
      ret (res, proof_was_provided).

(** [None] is Python's [None] (the early [return]); the [cp_height]
    computed inside the [try] is never used and is left out. *)
Definition request_chunk (height : Z) (tip : option Z) (can_return_early : bool)
  : M world (option (bool * Z)) :=
  let index := height / 2016 in
  let* requested := gets requested_chunks in
  if can_return_early && bool_decide (index ∈ requested)
  then ret None
  else
    let size := 2016 in
    let size := match tip with
                | Some tip => Z.max (Z.min size (tip - index * 2016 + 1)) 0
                | None => size
                end in
    let* (res, proof_was_provided) :=
      try_finally
        (modify (set_requested_chunks (fun r => {[index]} ∪ r));;
         request_headers (index * 2016) size)
        (set_requested_chunks (fun r => r ∖ {[index]})) in
    let* chain := bound_chain in
    let* hexdata := lift_result (get_item r_hex res) in
    let* st := gets store in
    let '(conn, st') := chain_connect_chunk st chain index hexdata proof_was_provided in
    modify (set_store st');;
    if negb conn then ret (Some (conn, 0))
    else
      let* count := lift_result (get_item r_count res) in
      ret (Some (conn, count)).

(** *** Readiness *)

Definition mark_ready : M world unit :=
  let* r := gets ready in
  match r with
  | Cancelled =>
      raise (GracefulDisconnect
               "conn establishment was too slow; *ready* future was cancelled")
  | Done => ret tt
  | Pending =>
      let* th := gets tip_header in
      match th with
      | None => raise (AssertionError "")
      | Some header =>
          let* st := gets store in
          let chain := match check_header st header with
                       | Some c => Some c
                       | None => get_best_chain st
                       end in
          modify (set_blockchain chain);;
          assert (bool_decide (is_Some chain)) "";;
          modify (set_ready Done)
      end
  end.

(** *** Sync state machine *)

Definition out_of_fuel {A} : M world A := fun _ => OutOfFuel.

(** [max([0] + [x.height() for x in chains]) if 'mock' not in header
     else float('inf')]; [None] is [float('inf')]. *)
Definition local_max (header : Header) (w : world) : option Z :=
  match mock header with
  | None => Some (foldr Z.max 0 (heights (store w)))
  | Some _ => None
  end.

(** [min(local_max + 1, height - 1)] *)
Definition first_probe (header : Header) (height : Z) (w : world) : Z :=
  match local_max header w with
  | Some m => Z.min (m + 1) (height - 1)
  | None => height - 1
  end.

(** The closure [iterate] of [_search_headers_backwards]: whether to go
    on, and the [height], [header], [proof_was_provided] it leaves. *)
Definition iterate (height : Z) : M world (bool * (Z * Header * bool)) :=
  let checkp := height <=? max_checkpoint in
  let height := if checkp then max_checkpoint else height in
  let* (header, proof_was_provided) := get_block_header height "backward" false in
  let* chain := check header in
  let* can_connect := connect header proof_was_provided height in
  if truthy chain || truthy can_connect
  then ret (false, (height, header, proof_was_provided))
  else if checkp
       then raise (GracefulDisconnect "server chain conflicts with checkpoints")
       else ret (true, (height, header, proof_was_provided)).

(** [while await iterate(): ...] *)
Fixpoint backwards_loop (fuel : nat) (height bad : Z) (bad_header : Header)
  : M world (Z * Header * Z * Header * bool) :=
  match fuel with
  | O => out_of_fuel
  | S fuel' =>
      let* it := iterate height in
      let '(again, (height, header, proof_was_provided)) := it in
      if again
      then
        let* tip := gets tip in
        let delta := tip - height in
        backwards_loop fuel' (tip - 2 * delta) height header
      else ret (height, header, bad, bad_header, proof_was_provided)
  end.

Definition _search_headers_backwards (fuel : nat) (height : Z) (header : Header)
  : M world (Z * Header * Z * Header * bool) :=
  let bad := height in
  let bad_header := header in
  _assert_header_does_not_check_against_any_chain bad_header;;
  let* height := gets (first_probe header height) in
  let* (height, header, bad, bad_header, proof_was_provided) :=
    backwards_loop fuel height bad bad_header in
  _assert_header_does_not_check_against_any_chain bad_header;;
  ret (height, header, bad, bad_header, proof_was_provided).

(** The backward probe in the words of the specification, to compare
    [_search_headers_backwards] with: from a probe height and the current
    [bad], fetch the header at the probe height.  Above the checkpoint, a
    header that checks or connects ends the search; one that does not
    becomes [bad] and the probe retreats to [tip - 2 * (tip - probe)].
    At or below the checkpoint the probe is clamped to [max_checkpoint]
    and fetched once: the search ends there, or the server conflicts with
    the checkpoints.  A fetch that raises ends the search with its
    exception. *)
Inductive backward_probe
  : world -> Z -> Z -> Header ->
    outcome world (Z * Header * Z * Header * bool) -> Prop :=
| probe_links w probe bad bad_header header proof w' :
    max_checkpoint < probe ->
    get_block_header probe "backward" false w = Returns (header, proof) w' ->
    links header proof probe w' = true ->
    backward_probe w probe bad bad_header
      (Returns (probe, header, bad, bad_header, proof) w')
| probe_retreats w probe bad bad_header header proof w' out :
    max_checkpoint < probe ->
    get_block_header probe "backward" false w = Returns (header, proof) w' ->
    links header proof probe w' = false ->
    backward_probe w' (tip w' - 2 * (tip w' - probe)) probe header out ->
    backward_probe w probe bad bad_header out
| probe_clamped_links w probe bad bad_header header proof w' :
    probe <= max_checkpoint ->
    get_block_header max_checkpoint "backward" false w
    = Returns (header, proof) w' ->
    links header proof max_checkpoint w' = true ->
    backward_probe w probe bad bad_header
      (Returns (max_checkpoint, header, bad, bad_header, proof) w')
| probe_clamped_conflict w probe bad bad_header header proof w' :
    probe <= max_checkpoint ->
    get_block_header max_checkpoint "backward" false w
    = Returns (header, proof) w' ->
    links header proof max_checkpoint w' = false ->
    backward_probe w probe bad bad_header
      (Raises (GracefulDisconnect "server chain conflicts with checkpoints") w')
| probe_fetch_raises w probe bad bad_header e w' :
    get_block_header (Z.max probe max_checkpoint) "backward" false w
    = Raises e w' ->
    backward_probe w probe bad bad_header (Raises e w').

(** [while True: ... if good + 1 == bad: break]; also gives the last
    midpoint, which the code after the loop reads as [height]. *)
Fixpoint binary_loop (fuel : nat) (good bad : Z) (bad_header : Header)
  : M world (Z * Z * Header * Z) :=
  match fuel with
  | O => out_of_fuel
  | S fuel' =>
      assert (good <? bad) "(good, bad)";;
      let height := (good + bad) / 2 in
      let* (header, proof_was_provided) := get_block_header height "binary" false in
      let* chain := check header in
      let* (good, bad, bad_header) :=
        if truthy chain
        then rebind chain;; ret (height, bad, bad_header)
        else ret (good, height, header) in
      if good + 1 =? bad
      then ret (good, bad, bad_header, height)
      else binary_loop fuel' good bad bad_header
  end.

Definition _search_headers_binary (fuel : nat) (height bad : Z)
    (bad_header : Header) (chain : pyval Chain) : M world (Z * Z * Header) :=
  assert (bad =? block_height bad_header) "";;
  _assert_header_does_not_check_against_any_chain bad_header;;
  rebind chain;;
  let good := height in
  let* (good, bad, bad_header, height) := binary_loop fuel good bad bad_header in
  let mock_ok := match mock bad_header with
                 | Some m => mock_connect m height
                 | None => false
                 end in
  let* real := (if mock_ok then ret false
     else
       let* c := bound_chain in
       gets (fun w => chain_can_connect (store w) c bad_header false)) in
  if negb real && negb mock_ok
  then raise (Exception "unexpected bad header during binary")
  else
    _assert_header_does_not_check_against_any_chain bad_header;;
    ret (good, bad, bad_header).

(** [forkfun(bad_header)], where [forkfun = self.blockchain.fork
     if 'mock' not in bad_header else bad_header['mock']['fork']]; the
    fork the [Blockchain] makes is written to the store. *)
Definition forkfun (c : Chain) (bad_header : Header) : M world Chain :=
  match mock bad_header with
  | None =>
      let* st := gets store in
      let* (b, st') := lift_result (chain_fork st c bad_header) in
      modify (set_store st');;
      ret b
  | Some m =>
      match mock_fork m with
      | Some f => ret (f bad_header)
      | None => raise (KeyError "fork")
      end
  end.

Definition _resolve_potential_chain_fork_given_forkpoint (good bad : Z)
    (bad_header : Header) : M world (mode * Z) :=
  assert (good + 1 =? bad) "";;
  assert (bad =? block_height bad_header) "";;
  _assert_header_does_not_check_against_any_chain bad_header;;
  let* c := bound_chain in
  let* bh := gets (fun w => chain_height (store w) c) in
  assert (good <=? bh) "(bh, good)";;
  if bh =? good
  then
    let height := good + 1 in
    ret (no_fork, height)
  else
    let height := bad + 1 in
    let* b := forkfun c bad_header in
    modify (set_blockchain (Some b));;
    assert (forkpoint b =? bad) "";;
    ret (fork, height).

(** The two places where the source tests [can_connect] are the two
    branches on [truthy can_connect] below: [if can_connect:] comes after
    the [if not can_connect:] block, which sets it again. *)
Definition step (fuel : nat) (height : Z) (header : option Header)
  : M world (mode * Z) :=
  let* tip := gets tip in
  assert ((0 <=? height) && (height <=? tip)) "(height, self.tip)";;
  let* (header, proof_was_provided) :=
    match header with
    | None => get_block_header height "catchup" false
    | Some header => ret (header, false)
    end in
  let* chain := check header in
  if truthy chain
  then rebind chain;; ret (catchup, height + 1)
  else
    let* can_connect := connect header proof_was_provided height in
    if truthy can_connect
    then
      (match can_connect with
       | PyChain c =>
           modify (set_blockchain (Some c));;
           modify (fun w => set_store (chain_save_header (store w) c header) w)
       | _ => ret tt
       end);;
      ret (catchup, height + 1)
    else
      let* (height, header, bad, bad_header, proof_was_provided) :=
        _search_headers_backwards fuel height header in
      let* chain := check header in
      let* can_connect := connect header proof_was_provided height in
      assert (truthy chain || truthy can_connect) "";;
      if truthy can_connect
      then
        (match can_connect with
         | PyChain c =>
             modify (set_blockchain (Some c));;
             modify (fun w => set_store (chain_save_header (store w) c header) w)
         | _ => ret tt
         end);;
        ret (catchup, height + 1)
      else
        let* (good, bad, bad_header) :=
          _search_headers_binary fuel height bad bad_header chain in
        _resolve_potential_chain_fork_given_forkpoint good bad bad_header.

(** One turn of the [while] loop of [sync_until], from [(last, height)]
    to the next [(last, height)].  The [continue] after the fallback
    [step] goes back to the loop test and so skips the last [assert]. *)
Definition sync_until_body (fuel : nat) (last : option mode) (height next_height : Z)
  : M world (option mode * Z) :=
  let prev_last := last in
  let prev_height := height in
  if height + 10 <? next_height
  then
    let* chunk := request_chunk height (Some next_height) false in
    match chunk with
    | None => raise (TypeError "cannot unpack non-iterable NoneType object")
    | Some (could_connect, num_headers) =>
        if negb could_connect
        then
          if height <=? max_checkpoint
          then raise (GracefulDisconnect
                        "server chain conflicts with checkpoints or genesis")
          else
            let* (last, height) := step fuel height None in
            ret (Some last, height)
        else
          trigger_callback "network_updated";;
          let height := (height / 2016 * 2016) + num_headers in
          assert (height <=? next_height + 1) "(height, self.tip)";;
          let last := Some catchup in
          assert (negb (bool_decide ((prev_last, prev_height) = (last, height))))
            "had to prevent infinite loop in interface.sync_until";;
          ret (last, height)
    end
  else
    let* (last, height) := step fuel height None in
    assert (negb (bool_decide ((prev_last, prev_height) = (Some last, height))))
      "had to prevent infinite loop in interface.sync_until";;
    ret (Some last, height).

(** [while last is None or height <= next_height: ...] *)
Fixpoint sync_until_loop (inner fuel : nat) (last : option mode)
    (height next_height : Z) : M world (option mode * Z) :=
  if bool_decide (last = None) || (height <=? next_height)
  then match fuel with
       | O => out_of_fuel
       | S fuel' =>
           let* (last, height) := sync_until_body inner last height next_height in
           sync_until_loop inner fuel' last height next_height
       end
  else ret (last, height).

Definition sync_until (fuel : nat) (height : Z) (next_height : option Z)
  : M world (option mode * Z) :=
  let* next_height :=
    match next_height with
    | None => gets tip
    | Some n => ret n
    end in
  let last := None in
  sync_until_loop fuel fuel last height next_height.

(** Called once [run_fetch_blocks] has set [tip] and [tip_header]. *)
Definition _process_header_at_tip (fuel : nat) : M world unit :=
  let* height := gets tip in
  let* header := gets tip_header in
  match header with
  | None => raise (TypeError "'NoneType' object is not subscriptable")
  | Some header =>
      let* c := bound_chain in
      let* known :=
        gets (fun w => (height <=? chain_height (store w) c)
                       && chain_check_header (store w) c header) in
      if known then ret tt
      else
        let* (_, height) := step fuel height (Some header) in
        let* tip := gets tip in
        (if height <=? tip
         then let* _ := sync_until fuel height None in ret tt
         else ret tt);;
        trigger_callback "blockchain_updated"
  end.

(** What [run_fetch_blocks] does with one item of the header queue. *)
Definition on_tip (fuel : nat) (raw : raw_header) : M world unit :=
  let height := raw_height raw in
  let* header :=
    lift_result (b ← bfh (raw_hex raw); deserialize_header b height) in
  modify (set_tip height header);;
  let* tip := gets tip in
  if tip <? max_checkpoint
  then raise (GracefulDisconnect "server tip below max checkpoint")
  else
    mark_ready;;
    _process_header_at_tip fuel;;
    trigger_callback "network_updated".
    (* then [network.switch_unwanted_fork_interface()] and
       [network.switch_lagging_interface()], which are the network's *)

(** [run_fetch_blocks] on the items the header queue delivers: the
    result of the subscription, then each notification.  The coroutine
    never returns; after the last item it waits for the next. *)
Fixpoint run_fetch_blocks (fuel : nat) (items : list raw_header) : M world unit :=
  match items with
  | [] => ret tt
  | raw :: rest => on_tip fuel raw;; run_fetch_blocks fuel rest
  end.

End Interface.

End Iface.

(** ** A small world to run the code in

    Collaborators simple enough to evaluate by hand.  A header is its
    height and three flags, read off the bytes the server sent: [K] for a
    header that checks against the chain, [C] for one that connects, [M]
    for one that carries the test hooks [check = lambda h: False] and
    [connect = lambda height: height == 49].  There is one chain, and the
    store is its height. *)

Module Toy.
Import Iface.

Record toy_header : Type := mkToy {
  th_height : Z;
  th_checks : bool;
  th_connects : bool;
  th_mock : bool
}.

Definition has_char (c : ascii) (b : bytes) : bool :=
  existsb (Ascii.eqb c) b.

Definition toy_deserialize (b : bytes) (height : Z) : result toy_header :=
  Ok (mkToy height (has_char "K" b) (has_char "C" b) (has_char "M" b)).

(** [bytes.fromhex] that raises on a character that is no hex digit. *)
Definition is_hex_digit (c : ascii) : bool :=
  let n := nat_of_ascii c in
  ((48 <=? n) && (n <=? 57) || (65 <=? n) && (n <=? 70)
   || (97 <=? n) && (n <=? 102))%nat.

Definition strict_fromhex (s : string) : result bytes :=
  if forallb is_hex_digit (list_ascii_of_string s)
  then Ok (list_ascii_of_string s)
  else Raise (ValueError "non-hexadecimal number found in fromhex() arg").

Definition collaborators_with (fromhex : string -> result bytes)
    (maxcp : Z) (srv : Z -> request -> result response)
  : Collaborators := {|
    Header := toy_header;
    Chain := Z;
    Store := Z;
    max_checkpoint := maxcp;
    VERIFICATION_BLOCK_MERKLE_ROOT := "ab";
    bfh := fromhex;
    sha256d := fun b => b;
    root_from_proof := fun hash _ _ => Ok hash;
    deserialize_header := toy_deserialize;
    verify_proven_chunk := fun _ _ => Ok tt;
    check_header := fun _ h => if th_checks h then Some 0 else None;
    can_connect := fun _ h _ => if th_connects h then Some 0 else None;
    get_best_chain := fun _ => Some 0;
    heights := fun st => [st];
    block_height := th_height;
    mock := fun h =>
      if th_mock h
      then Some (mkMock (fun _ => false) (fun height => height =? 49) None)
      else None;
    chain_height := fun st _ => st;
    chain_check_header := fun _ _ h => th_checks h;
    chain_can_connect := fun _ _ h _ => th_connects h;
    chain_connect_chunk := fun st _ _ _ _ => (false, st);
    chain_save_header := fun _ _ h => th_height h;
    chain_fork := fun st _ h => Ok (th_height h, st);
    forkpoint := fun c => c;
    server := srv
  |}.

(** With a [bfh] that takes any string. *)
#[local] Instance collaborators (maxcp : Z) (srv : Z -> request -> result response)
  : Collaborators :=
  collaborators_with (fun s => Ok (list_ascii_of_string s)) maxcp srv.

(** An 80-byte header in hex, all zeros. *)
Definition zero_header : string :=
  "0000000000000000000000000000000000000000000000000000000000000000000000000000000000000000000000000000000000000000000000000000000000000000000000000000000000000000".

(** No checkpoint ([max_checkpoint() == 0]); the server answers every
    request with the bare header [zero_header]. *)
Definition no_checkpoint : Collaborators :=
  collaborators 0 (fun _ _ => Ok (RespStr zero_header)).

(** A checkpoint at height 5; the server answers a header request with a
    proof: the root ["ab"], no branch, and the header ["ba"]. *)
Definition proving_server : Collaborators :=
  collaborators 5
    (fun _ _ => Ok (RespDict (mkRdict (Some "ab"%string) (Some [])
                                (Some "ba"%string) None None))).

(** A checkpoint at height 5, and a [bfh] that raises on what is no hex. *)
Definition hex_checking : Collaborators :=
  collaborators_with strict_fromhex 5
    (fun _ _ => Ok (RespDict (mkRdict (Some "ab"%string) (Some [])
                                (Some "ba"%string) None None))).

(** A checkpoint at height 5; the server has three headers only, and
    answers a request for a chunk with them and without a proof. *)
Definition short_chunk_server : Collaborators :=
  collaborators 5
    (fun _ _ =>
       Ok (RespDict (mkRdict None None None
                       (Some (zero_header +:+ zero_header +:+ zero_header))
                       (Some 3)))).

(** No checkpoint.  The server has no headers to give in a chunk; its
    header at height 49 connects, and its other headers neither check nor
    connect. *)
Definition stalling_server : Collaborators :=
  collaborators 0
    (fun _ r =>
       match r with
       | BlockHeaders _ _ _ =>
           Ok (RespDict (mkRdict None None None (Some ""%string) (Some 0)))
       | BlockHeader height _ =>
           Ok (RespStr (if height =? 49 then "C" else ""))
       end).

(** The same with the test hooks: every header the server gives carries
    them. *)
Definition mocking_server : Collaborators :=
  collaborators 0
    (fun _ r =>
       match r with
       | BlockHeaders _ _ _ =>
           Ok (RespDict (mkRdict None None None (Some ""%string) (Some 0)))
       | BlockHeader _ _ => Ok (RespStr "M")
       end).

(** A world with the tip at [t], bound to the chain, whose height is [st]. *)
Definition world_at `{Collaborators} (t : Z) (b : option Chain) (st : Store) : world :=
  mkWorld t None b ∅ Pending 0 [] st [].

End Toy.

(** ** More of the module: hostnames *)

Module Hostname.

(** [s.startswith(prefix)] *)
Fixpoint startswith (s prefix : string) {struct prefix} : bool :=
  match prefix, s with
  | EmptyString, _ => true
  | String p prefix', String c s' => Ascii.eqb c p && startswith s' prefix'
  | String _ _, EmptyString => false
  end.

(** [s.endswith(suffix)] *)
Fixpoint endswith (s suffix : string) : bool :=
  String.eqb s suffix
  || match s with
     | EmptyString => false
     | String _ s' => endswith s' suffix
     end.

(** [s[1:]] *)
Definition tail (s : string) : string :=
  match s with
  | EmptyString => EmptyString
  | String _ s' => s'
  end.

Definition _match_hostname (name val : string) : bool :=
  if String.eqb val name then true
  else startswith val "*." && endswith name (tail val).

End Hostname.

(** ** More of the address codec *)

Module PyStrMore.
Import PyStr.

(** [s.count(c)] for a character. *)
Fixpoint count_char (c : Z) (s : str) : nat :=
  match s with
  | [] => O
  | d :: rest => ((if (d =? c)%Z then 1 else 0) + count_char c rest)%nat
  end.

End PyStrMore.

(** ** What synchronising leaves alone *)

Module SyncFrame.
Import Iface.

Section Interface.
Context `{Collaborators}.

(** The state before and after a piece of the synchronisation code: the
    tip and the readiness are as they were, a bound chain is still bound
    (to the same or to another chain), requests and callbacks were only
    added at the end, and the message counter moved with the wire. *)
Definition sync_frame (w w' : world) : Prop :=
  tip w' = tip w /\ tip_header w' = tip_header w /\ ready w' = ready w /\
  (is_Some (blockchain w) -> is_Some (blockchain w')) /\
  wire w `prefix_of` wire w' /\
  msg_counter w' - Z.of_nat (length (wire w'))
  = msg_counter w - Z.of_nat (length (wire w)) /\
  callbacks w `prefix_of` callbacks w'.

(** The searches read the chain store and never write it. *)
Definition same_store (w w' : world) : Prop := store w' = store w.

End Interface.

End SyncFrame.

(** ** Checkpoints from a trusted server *)

Module Checkpoints.
Import Iface.

(** [{'height': ..., 'merkle_root': ..., 'first_timestamp': ...,
     'last_chainwork': ..., 'last_bits': ...}] *)
Record purported : Type := mkPurported {
  p_height : Z;
  p_merkle_root : string;
  p_first_timestamp : Z;
  p_last_chainwork : Z;
  p_last_bits : Z
}.

Section Interface.
Context `{Collaborators}.
(** More of the [blockchain] module: a header's timestamp, and the
    chainwork, target and compact bits a [Blockchain] computes. *)
Variable timestamp : Header -> Z.
Variable get_chainwork : Store -> Chain -> Z -> result Z.
Variable get_target : Store -> Chain -> Z -> result Z.
Variable target_to_bits : Z -> Z.

Definition get_purported_checkpoint (cp_height : Z) : M world purported :=
  let retarget_first_height := cp_height / 2016 * 2016 in
  let retarget_last_height := (cp_height + 1) / 2016 * 2016 - 1 in
  let retarget_last_chunk_index := (cp_height + 1) / 2016 - 1 in
  let* res := send_request (BlockHeader retarget_first_height cp_height) in
  if has_root res && has_branch res && has_header res
  then
    let* hexheader := lift_result (get_item r_header res) in
    let* retarget_first_header :=
      lift_result (b ← bfh hexheader;
                   deserialize_header b retarget_first_height) in
    let* c := bound_chain in
    let* st := gets store in
    let* retarget_last_chainwork :=
      lift_result (get_chainwork st c retarget_last_height) in
    let* target := lift_result (get_target st c retarget_last_chunk_index) in
    let retarget_last_bits := target_to_bits target in
    let* root := lift_result (get_item r_root res) in
    ret (mkPurported cp_height root (timestamp retarget_first_header)
           retarget_last_chainwork retarget_last_bits)
  else raise (Exception
         "Expected checkpoint validation data, did not receive it.").

End Interface.

End Checkpoints.

(** ** Certificates and the life of a connection

    [_get_ssl_context] with the certificate store under it, and [run]
    with its [handle_disconnect] wrapper.  This code raises exceptions
    the synchronisation code has no use for, so it has an exception type
    and a monad of its own; its loops are bounded and need no fuel. *)

Module Connection.
Import Iface.

Inductive pyexn : Type :=
| Core (e : exn)                       (* the exceptions of the code above *)
| SyntaxError (msg : string)           (* what [pem.dePem] raises *)
| CertificateError (msg : string)      (* [x509.CertificateError] *)
| SSLError (reason : string)           (* [ssl.SSLError], an [OSError] *)
| OSError (msg : string)
| SOCKSError (msg : string)            (* [aiorpcx.socks.SOCKSError] *)
| RPCError (msg : string)              (* [aiorpcx.jsonrpc.RPCError] *)
| CancelledError                       (* [asyncio.CancelledError] *)
| InvalidStateError                    (* [asyncio.InvalidStateError] *)
| ErrorParsingSSLCert (cause : pyexn)
| ErrorGettingSSLCertFromServer (cause : pyexn).

(** [isinstance(e, OSError)] *)
Definition is_OSError (e : pyexn) : bool :=
  match e with
  | SSLError _ | OSError _ => true
  | _ => false
  end.

Definition is_SOCKSError (e : pyexn) : bool :=
  match e with SOCKSError _ => true | _ => false end.

Definition is_CancelledError (e : pyexn) : bool :=
  match e with CancelledError => true | _ => false end.

(** [isinstance(e, GracefulDisconnect)] *)
Definition is_GracefulDisconnect (e : pyexn) : bool :=
  match e with Core e => is_graceful e | _ => false end.

Definition is_cert_error (e : pyexn) : bool :=
  match e with
  | ErrorParsingSSLCert _ | ErrorGettingSSLCertFromServer _ => true
  | _ => false
  end.

(** What a call into a library gives: a value or an exception. *)
Inductive presult (A : Type) : Type :=
| POk (a : A)
| PErr (e : pyexn).
Arguments POk {A} a.
Arguments PErr {A} e.

Inductive nres (S A : Type) : Type :=
| NReturns (a : A) (s : S)
| NRaises (e : pyexn) (s : S).
Arguments NReturns {S A} a s.
Arguments NRaises {S A} e s.

Definition N (S A : Type) : Type := S -> nres S A.

Definition nret {S A} (a : A) : N S A := fun s => NReturns a s.

Definition nbind {S A B} (c : N S A) (k : A -> N S B) : N S B :=
  fun s => match c s with
           | NReturns a s' => k a s'
           | NRaises e s' => NRaises e s'
           end.

Notation "'let+' x := c 'in' k" := (nbind c (fun x => k))
  (at level 10, x pattern, c at level 200, k at level 200).
Notation "c ;;+ k" := (nbind c (fun _ => k))
  (at level 100, k at level 200, right associativity).

Definition nraise {S A} (e : pyexn) : N S A := fun s => NRaises e s.
Definition ngets {S A} (f : S -> A) : N S A := fun s => NReturns (f s) s.
Definition nmodify {S} (f : S -> S) : N S unit := fun s => NReturns tt (f s).
Definition nlift {S A} (r : presult A) : N S A :=
  fun s => match r with POk a => NReturns a s | PErr e => NRaises e s end.

(** [try: body except <classes> as e: handler(e)]: [handler] gives the
    code to run for an exception of one of the classes, and [None] for
    an exception the clause does not catch. *)
Definition try_except {S A} (body : N S A) (handler : pyexn -> option (N S A))
  : N S A :=
  fun s => match body s with
           | NReturns a s' => NReturns a s'
           | NRaises e s' =>
               match handler e with
               | Some k => k s'
               | None => NRaises e s'
               end
           end.

Definition nfinal {S A} (r : nres S A) : S :=
  match r with NReturns _ s | NRaises _ s => s end.

(** An [ssl.SSLContext] that verifies the server: against the CA bundle,
    or against the pinned certificate with the host name not checked. *)
Inductive ssl_context : Type :=
| CAContext
| PinnedContext (cafile : string) (check_hostname : bool).

(** The interface as the connection code sees it: the file at
    [cert_path] ([None] when there is none), how many connections were
    opened, the two futures, and how many times the network was told
    that the connection is down. *)
Record conn : Type := mkConn {
  cert_file : option string;
  connections : nat;
  ready : future;
  got_disconnected : future;
  downs : nat
}.

Definition set_cert_file (f : option string) (s : conn) : conn :=
  mkConn f (connections s) (ready s) (got_disconnected s) (downs s).
Definition connected (s : conn) : conn :=
  mkConn (cert_file s) (S (connections s)) (ready s) (got_disconnected s)
    (downs s).
Definition set_ready (r : future) (s : conn) : conn :=
  mkConn (cert_file s) (connections s) r (got_disconnected s) (downs s).
Definition set_got_disconnected (r : future) (s : conn) : conn :=
  mkConn (cert_file s) (connections s) (ready s) r (downs s).
Definition connection_down (s : conn) : conn :=
  mkConn (cert_file s) (connections s) (ready s) (got_disconnected s)
    (S (downs s)).

Definition newline : ascii := ascii_of_nat 10.

Definition END_CERTIFICATE : string := "-----END CERTIFICATE-----".

(** [re.sub("([^\n])-----END CERTIFICATE-----",
            "\\1\n-----END CERTIFICATE-----", cert)]: the string is
    scanned from the left; [skip] counts the characters of the match just
    replaced that are still to be passed over. *)
Fixpoint sub_end (skip : nat) (cert : string) : string :=
  match cert with
  | EmptyString => EmptyString
  | String c rest =>
      match skip with
      | S k => sub_end k rest
      | O =>
          if negb (Ascii.eqb c newline)
             && Hostname.startswith rest END_CERTIFICATE
          then String c (String newline
                           (END_CERTIFICATE +:+ sub_end 25 rest))
          else String c (sub_end 0 rest)
      end
  end.

(** [if dercert:] *)
Definition truthy_bytes (d : option bytes) : option bytes :=
  match d with
  | Some ((_ :: _) as b) => Some b
  | _ => None
  end.

(** An attempt of [get_certificate] that gives nothing to save: no
    certificate, an empty one, or the [ValueError] it turns into [None]. *)
Definition no_certificate (r : presult (option bytes)) : Prop :=
  match r with
  | POk d => truthy_bytes d = None
  | PErr e => exists msg, e = Core (ValueError msg)
  end.

(** [self.ready], once [mark_ready] has run *)
Definition marked (r : future) : future :=
  match r with Pending => Done | r => r end.

(** [future.cancel()] *)
Definition cancel (r : future) : future :=
  match r with Pending => Cancelled | r => r end.

(** What the code under [run] leaves alone: it never resolves
    [got_disconnected] and never reports the connection down, it only
    opens connections, and it touches [ready] only by marking it. *)
Definition life_kept (s s' : conn) : Prop :=
  got_disconnected s' = got_disconnected s /\ downs s' = downs s /\
  (connections s <= connections s')%nat /\
  (ready s' = ready s \/ ready s' = marked (ready s)).

Definition keeps {A} (c : N conn A) : Prop :=
  forall s, life_kept s (nfinal (c s)).

Section Connection.
(** The libraries and the server: [pem], [x509] and [ssl]; the
    [Connector] (the TCP connection and the TLS handshake of the [n]-th
    connection opened), the server's answer to [server.version], the
    certificate the server presents, and the task group of [ping],
    [run_fetch_blocks] and [monitor_connection]: whether [mark_ready] got
    to run in it, and the exception it ended with or its return. *)
Variable X509 : Type.
Variable dePem : string -> presult bytes.
Variable x509 : bytes -> presult X509.
Variable check_date : X509 -> presult unit.
Variable DER_cert_to_PEM_cert : bytes -> string.
Variable ca_path : string.                       (* [certifi.where()] *)
Variable create_default_context : string -> presult unit.
Variable connector : nat -> option ssl_context -> presult unit.
Variable server_version : nat -> presult unit.
Variable getpeercert : nat -> presult (option bytes).
Variable task_group : nat -> bool * presult unit.

Definition open_session (sslc : option ssl_context) (exit_early : bool)
  : N conn unit :=
  let+ n := ngets connections in
  nmodify connected;;+
  nlift (connector n sslc);;+
  try_except (nlift (server_version n))
    (fun e => match e with
              | RPCError msg => Some (nraise (Core (GracefulDisconnect msg)))
              | _ => None
              end);;+
  if exit_early then nret tt
  else
    let '(ready_marked, ended) := task_group n in
    (if ready_marked then nmodify (fun s => set_ready (marked (ready s)) s)
     else nret tt);;+
    nlift ended.

Definition is_server_ca_signed : N conn bool :=
  try_except (open_session (Some CAContext) true;;+ nret true)
    (fun e => match e with
              | SSLError reason =>
                  if String.eqb reason "CERTIFICATE_VERIFY_FAILED"
                  then Some (nret false)
                  else Some (nraise e)
              | _ => None
              end).

(** The [ssl.SSLContext()] of [get_certificate] verifies nothing. *)
Definition get_certificate : N conn (option bytes) :=
  try_except
    (let+ n := ngets connections in
     nmodify connected;;+
     nlift (getpeercert n))
    (fun e => match e with
              | Core (ValueError _) => Some (nret None)
              | _ => None
              end).

(** [for _ in range(n): ... break ... else: raise]; the [sleep(1)]
    between two attempts takes time and changes nothing. *)
Fixpoint save_attempts (n : nat) : N conn unit :=
  match n with
  | O => nraise (Core (Exception "could not get certificate"))
  | S n' =>
      let+ dercert := get_certificate in
      match truthy_bytes dercert with
      | Some der =>
          let cert := DER_cert_to_PEM_cert der in
          let cert := sub_end 0 cert in
          nmodify (set_cert_file (Some cert))
      | None => save_attempts n'
      end
  end.

Definition save_certificate : N conn unit :=
  let+ file := ngets cert_file in
  match file with
  | None => save_attempts 10
  | Some _ => nret tt
  end.

Definition _try_saving_ssl_cert_for_first_time : N conn unit :=
  let+ ca_signed :=
    try_except is_server_ca_signed
      (fun e => if is_OSError e || is_SOCKSError e
                then Some (nraise (ErrorGettingSSLCertFromServer e))
                else None) in
  if ca_signed then nmodify (set_cert_file (Some ""%string))
  else save_certificate.

Definition _is_saved_ssl_cert_available : N conn bool :=
  let+ file := ngets cert_file in
  match file with
  | None => nret false
  | Some contents =>
      if String.eqb contents "" then nret true
      else
        let+ b :=
          try_except (nlift (dePem contents))
            (fun e => match e with
                      | SyntaxError _ => Some (nraise (ErrorParsingSSLCert e))
                      | _ => None
                      end) in
        let+ x :=
          try_except (nlift (x509 b))
            (fun e => Some (nraise (ErrorParsingSSLCert e))) in
        try_except (nlift (check_date x);;+ nret true)
          (fun e => match e with
                    | CertificateError _ =>
                        Some (nmodify (set_cert_file None);;+ nret false)
                    | _ => None
                    end)
  end.

(** [os.stat] of a file that is not there raises [FileNotFoundError],
    an [OSError]. *)
Definition _get_ssl_context (protocol : string) : N conn (option ssl_context) :=
  if negb (String.eqb protocol "s") then nret None
  else
    nlift (create_default_context ca_path);;+
    let+ available := _is_saved_ssl_cert_available in
    (if negb available then _try_saving_ssl_cert_for_first_time else nret tt);;+
    let+ file := ngets cert_file in
    match file with
    | None => nraise (OSError "No such file or directory")
    | Some contents =>
        if (String.length contents =? 0)%nat then nret (Some CAContext)
        else
          nlift (create_default_context contents);;+
          nret (Some (PinnedContext contents false))
    end.

(** The decorator: [try: return await func(self) except GracefulDisconnect:
    pass finally: ...].  [set_result] on a future that is done raises, and
    an exception in the [finally] block replaces the one on its way. *)
Definition handle_disconnect {A} (func : N conn A) : N conn (option A) :=
  fun s =>
    let finally (s' : conn) (after : conn -> nres conn (option A)) :=
      let s1 := connection_down s' in
      match got_disconnected s1 with
      | Pending =>
          after (set_ready (cancel (ready s1)) (set_got_disconnected Done s1))
      | _ => NRaises InvalidStateError s1
      end in
    match func s with
    | NReturns a s' => finally s' (NReturns (Some a))
    | NRaises e s' =>
        if is_GracefulDisconnect e then finally s' (NReturns None)
        else finally s' (NRaises e)
    end.

(** [run], under [handle_disconnect]; [log_exceptions] and
    [ignore_exceptions] are the caller's. *)
Definition run (protocol : string) : N conn (option unit) :=
  handle_disconnect
    (let+ ssl_context :=
       try_except
         (let+ c := _get_ssl_context protocol in nret (Some c))
         (fun e => if is_cert_error e then Some (nret None) else None) in
     match ssl_context with
     | None => nret tt
     | Some ssl_context =>
         try_except (open_session ssl_context false)
           (fun e => if is_CancelledError e || is_OSError e || is_SOCKSError e
                     then Some (nret tt)
                     else None)
     end).

End Connection.

End Connection.

(** A self-signed server to run the connection code against: the
    handshake under the CA context fails with CERTIFICATE_VERIFY_FAILED,
    every other connection succeeds, and the certificate the server
    presents comes out of [DER_cert_to_PEM_cert] with no line break before
    its END line.  A saved file ["garbage"] does not parse.  The task
    group marks the interface ready and ends when the server closes the
    session. *)
Module ToyConnection.
Import Iface Connection.

Definition dePem (contents : string) : presult bytes :=
  if String.eqb contents "garbage" then PErr (SyntaxError "no PEM block")
  else POk [].

Definition x509 (b : bytes) : presult unit := POk tt.

Definition check_date (x : unit) : presult unit := POk tt.

Definition DER_cert_to_PEM_cert (der : bytes) : string :=
  "-----BEGIN CERTIFICATE-----" +:+ String newline ("AA==" +:+ END_CERTIFICATE).

Definition ca_path : string := "cacert.pem".

Definition create_default_context (cafile : string) : presult unit := POk tt.

Definition connector (n : nat) (sslc : option ssl_context) : presult unit :=
  match sslc with
  | Some CAContext => PErr (SSLError "CERTIFICATE_VERIFY_FAILED")
  | _ => POk tt
  end.

Definition server_version (n : nat) : presult unit := POk tt.

Definition getpeercert (n : nat) : presult (option bytes) :=
  POk (Some ["x"%char]).

Definition task_group (n : nat) : bool * presult unit :=
  (true, PErr (Core (GracefulDisconnect "server closed session"))).

(** A new interface with the file at [cert_path] as given. *)
Definition new_conn (file : option string) : conn :=
  mkConn file 0 Pending Pending 0.

End ToyConnection.

(** * Properties *)

(** ** Server address codec *)

Module ServerAddrProofs.
Import PyStr ServerAddr.

Lemma rsplit_last_none sep s :
  contains sep s = false -> rsplit_last sep s = None.
Proof.
  induction s as [|c s IH]; simpl; [done|].
  intros [Hc Hs]%orb_false_iff. rewrite (IH Hs). by rewrite Hc.
Qed.

Lemma rsplit_last_app sep a b :
  contains sep b = false ->
  rsplit_last sep (a ++ sep :: b) = Some (a, b).
Proof.
  intros Hb. induction a as [|c a IH]; simpl.
  - rewrite (rsplit_last_none _ _ Hb). by rewrite Z.eqb_refl.
  - by rewrite IH.
Qed.

(** Splitting what [join] put together, when the last two fields hold no
    colon. *)
Lemma rsplit_join host port protocol :
  contains (ord ":") port = false -> contains (ord ":") protocol = false ->
  rsplit (ord ":") 2 (join (lit ":") [host; port; protocol])
  = [host; port; protocol].
Proof.
  intros Hp Hpr. unfold rsplit, join.
  change (lit ":") with [ord ":"].
  replace (host ++ [ord ":"] ++ port ++ [ord ":"] ++ protocol)
    with ((host ++ ord ":" :: port) ++ ord ":" :: protocol)
    by (by rewrite <- app_assoc).
  rewrite (rsplit_last_app _ _ _ Hpr).
  by rewrite (rsplit_last_app _ _ _ Hp).
Qed.

(** *** What [int()] accepts *)

(** A character no number holds: not white space, not a digit, not a
    sign and not the underscore. *)
Lemma parse_digits_foreign c s : forall acc b n,
  digit_val c = None -> c <> ord "_" ->
  parse_digits acc b s = Some n -> contains c s = false.
Proof.
  induction s as [|x s IH]; intros acc b n Hd Hu; [done|].
  cbn [parse_digits contains].
  destruct (digit_val x) as [d|] eqn:Hx.
  - intros Hp. rewrite (IH _ _ _ Hd Hu Hp), orb_false_r.
    apply Z.eqb_neq. intros ->. congruence.
  - destruct (Z.eqb_spec x (ord "_")) as [Heq|]; [|done].
    destruct b; [|done]. cbn [andb]. destruct s as [|x' s']; [done|].
    intros Hp. rewrite (IH _ _ _ Hd Hu Hp), orb_false_r.
    apply Z.eqb_neq. congruence.
Qed.

Lemma contains_lstrip c s :
  is_space c = false -> contains c (lstrip s) = contains c s.
Proof.
  intros Hc. induction s as [|x s IH]; simpl; [done|].
  destruct (is_space x) eqn:Hx; [|done].
  rewrite IH. destruct (Z.eqb_spec x c) as [->|]; [congruence|done].
Qed.

Lemma contains_rstrip c s :
  is_space c = false -> contains c (rstrip s) = contains c s.
Proof.
  intros Hc. induction s as [|x s IH]; simpl; [done|].
  destruct (rstrip s) as [|y r] eqn:Hr.
  - simpl in IH. rewrite <- IH.
    destruct (is_space x) eqn:Hx; simpl; [|done].
    destruct (Z.eqb_spec x c) as [->|]; [congruence|done].
  - simpl. simpl in IH. by rewrite IH.
Qed.

Section Int.
Context `{Runtime}.

Lemma pylong_foreign c s n :
  is_space c = false -> digit_val c = None ->
  c <> ord "_" -> c <> ord "+" -> c <> ord "-" ->
  pylong s = Some n -> contains c s = false.
Proof.
  intros Hsp Hd Hu Hplus Hminus. unfold pylong, strip. intros Hs.
  rewrite <- (contains_lstrip c s) by done.
  rewrite <- (contains_rstrip c (lstrip s)) by done.
  destruct (rstrip (lstrip s)) as [|x rest]; [done|].
  destruct (parse_digits 0 false _) as [m|] eqn:Hp; [|done]. clear Hs.
  apply (parse_digits_foreign c) in Hp; [|done..].
  cbn [contains].
  destruct (Z.eqb_spec x (ord "+")) as [Heq|]; cbn [orb] in Hp.
  { rewrite Hp, orb_false_r. apply Z.eqb_neq. congruence. }
  destruct (Z.eqb_spec x (ord "-")) as [Heq|]; cbn [orb] in Hp.
  { rewrite Hp, orb_false_r. apply Z.eqb_neq. congruence. }
  done.
Qed.

(** A colon is below 127, so it goes through the transformation as it
    is, unless the string was cut before it, with a ['?']. *)
Lemma transform_chars_colon s :
  contains (ord "?") (transform_chars s) = false ->
  contains (ord ":") (transform_chars s) = false ->
  contains (ord ":") s = false.
Proof.
  induction s as [|c s IH]; [done|]. cbn [transform_chars contains].
  destruct (Z.ltb_spec c 127) as [Hlt|Hge].
  - cbn [contains]. intros [_ Hq]%orb_false_iff [-> Hc]%orb_false_iff.
    by apply IH.
  - assert ((c =? ord ":") = false) as ->
      by (apply Z.eqb_neq; change (ord ":") with 58; lia).
    cbn [orb]. destruct (Py_UNICODE_ISSPACE c).
    { cbn [contains]. intros [_ Hq]%orb_false_iff [_ Hc]%orb_false_iff.
      by apply IH. }
    destruct (Py_UNICODE_TODECIMAL c) as [d|].
    { cbn [contains]. intros [_ Hq]%orb_false_iff [_ Hc]%orb_false_iff.
      by apply IH. }
    intros Hq. by vm_compute in Hq.
Qed.

Lemma int_of_str_no_colon s n :
  int_of_str s = Some n -> contains (ord ":") s = false.
Proof.
  unfold int_of_str. intros Hs.
  pose proof (pylong_foreign (ord ":") _ _ eq_refl eq_refl
                ltac:(done) ltac:(done) ltac:(done) Hs) as Hcolon.
  pose proof (pylong_foreign (ord "?") _ _ eq_refl eq_refl
                ltac:(done) ltac:(done) ltac:(done) Hs) as Hcut.
  unfold transform in *. destruct (is_ascii s); [done|].
  by apply transform_chars_colon.
Qed.

(** *** [int(str(n)) == n] *)

Lemma digit_val_digit_char v : 0 <= v <= 9 -> digit_val (digit_char v) = Some v.
Proof.
  intros Hv. unfold digit_val, digit_char.
  destruct (Z.leb_spec 48 (48 + v)); [|lia].
  destruct (Z.leb_spec (48 + v) 57); [|lia]. simpl. f_equal. lia.
Qed.

Lemma digit_char_plain v :
  0 <= v <= 9 ->
  is_space (digit_char v) = false /\
  (digit_char v =? ord "+") = false /\
  (digit_char v =? ord "-") = false /\
  (digit_char v <? 128) = true.
Proof.
  intros Hv. unfold is_space, digit_char.
  change (ord "+") with 43. change (ord "-") with 45.
  split; [|split; [|split]].
  - apply orb_false_iff. split; [apply Z.eqb_neq; lia|].
    apply andb_false_iff. right. apply Z.leb_gt. lia.
  - apply Z.eqb_neq. lia.
  - apply Z.eqb_neq. lia.
  - apply Z.ltb_lt. lia.
Qed.

Lemma rstrip_no_space s : no_space s = true -> rstrip s = s.
Proof.
  induction s as [|c s IH]; simpl; [done|].
  intros [Hc Hs]%andb_true_iff. rewrite (IH Hs).
  destruct s; [|done]. by apply negb_true_iff in Hc as ->.
Qed.

Lemma parse_digits_digit a b c d s :
  digit_val c = Some d ->
  parse_digits a b (c :: s) = parse_digits (10 * a + d) true s.
Proof. intros Hd. simpl. by rewrite Hd. Qed.

Lemma digits_of_S fuel n acc :
  digits_of (S fuel) n acc =
    if n <? 10 then digit_char (n mod 10) :: acc
    else digits_of fuel (n / 10) (digit_char (n mod 10) :: acc).
Proof. reflexivity. Qed.

Lemma mod10_digit n : 0 <= n mod 10 <= 9.
Proof. pose proof (Z.mod_pos_bound n 10). lia. Qed.

(** The text of a number is ASCII digits and nothing else. *)
Lemma digits_of_plain fuel : forall n acc,
  no_space acc = true -> is_ascii acc = true ->
  count_digits acc = Z.of_nat (length acc) ->
  no_space (digits_of fuel n acc) = true /\
  is_ascii (digits_of fuel n acc) = true /\
  count_digits (digits_of fuel n acc) = Z.of_nat (length (digits_of fuel n acc)).
Proof.
  induction fuel as [|f IH]; intros n acc Hsp Hascii Hcount; [done|].
  destruct (digit_char_plain _ (mod10_digit n)) as (Hs & _ & _ & Ha).
  assert (no_space (digit_char (n mod 10) :: acc) = true /\
          is_ascii (digit_char (n mod 10) :: acc) = true /\
          count_digits (digit_char (n mod 10) :: acc)
          = Z.of_nat (length (digit_char (n mod 10) :: acc))) as (? & ? & ?).
  { cbn [no_space is_ascii forallb count_digits length].
    rewrite Hs, Ha, (digit_val_digit_char _ (mod10_digit n)), Hcount.
    fold (is_ascii acc). rewrite Hsp, Hascii. repeat split. lia. }
  rewrite digits_of_S. destruct (n <? 10); [done|]. by apply IH.
Qed.

Lemma digits_of_head fuel : forall n acc,
  exists v rest, 0 <= v <= 9 /\ digits_of (S fuel) n acc = digit_char v :: rest.
Proof.
  induction fuel as [|f IH]; intros n acc.
  - exists (n mod 10), acc. split; [apply mod10_digit|].
    rewrite digits_of_S. by destruct (n <? 10).
  - rewrite digits_of_S.
    destruct (n <? 10); [|apply IH].
    exists (n mod 10), acc. split; [apply mod10_digit|done].
Qed.

Lemma digits_of_length fuel : forall n acc,
  (length (digits_of fuel n acc) <= fuel + length acc)%nat.
Proof.
  induction fuel as [|f IH]; intros n acc; [simpl; lia|].
  rewrite digits_of_S. destruct (n <? 10); [simpl; lia|].
  specialize (IH (n / 10) (digit_char (n mod 10) :: acc)). simpl in *. lia.
Qed.

Lemma parse_digits_digits_of fuel : forall n,
  0 <= n < 2 ^ Z.of_nat (S fuel) ->
  exists k, forall a b acc,
    parse_digits a b (digits_of (S fuel) n acc) = parse_digits (a * k + n) true acc.
Proof.
  induction fuel as [|f IH]; intros n Hn.
  - exists 10. intros a b acc. rewrite digits_of_S.
    change (2 ^ Z.of_nat 1) with 2 in Hn.
    destruct (Z.ltb_spec n 10); [|lia].
    rewrite (parse_digits_digit _ _ _ _ _ (digit_val_digit_char _ (mod10_digit n))).
    rewrite Z.mod_small by lia. f_equal. lia.
  - destruct (Z.ltb_spec n 10) as [Hlt|Hge].
    + exists 10. intros a b acc. rewrite digits_of_S.
      destruct (Z.ltb_spec n 10); [|lia].
      rewrite (parse_digits_digit _ _ _ _ _ (digit_val_digit_char _ (mod10_digit n))).
      rewrite Z.mod_small by lia. f_equal. lia.
    + destruct (IH (n / 10)) as [k Hk].
      { rewrite Nat2Z.inj_succ, Z.pow_succ_r in Hn by lia.
        split; [apply Z.div_pos; lia|].
        apply Z.div_lt_upper_bound; lia. }
      exists (10 * k). intros a b acc. rewrite digits_of_S.
      destruct (Z.ltb_spec n 10); [lia|]. rewrite Hk.
      rewrite (parse_digits_digit _ _ _ _ _ (digit_val_digit_char _ (mod10_digit n))).
      f_equal. pose proof (Z.div_mod n 10). lia.
Qed.

(** Whatever [str] gives for a number that is not negative, [int] reads
    back as that number. *)
Lemma int_of_str_str_of_int n s :
  0 <= n -> str_of_int n = Ok s -> int_of_str s = Some n.
Proof.
  intros Hn. unfold str_of_int. cbv zeta. rewrite Z.abs_eq by done.
  destruct (Z.ltb_spec n 0); [lia|].
  set (fuel := Z.to_nat (Z.log2 n)).
  assert (0 <= n < 2 ^ Z.of_nat (S fuel)) as Hfuel.
  { split; [done|]. unfold fuel.
    rewrite Nat2Z.inj_succ, Z2Nat.id by apply Z.log2_nonneg.
    destruct (Z.eq_dec n 0) as [->|]; [done|].
    apply Z.log2_spec. lia. }
  destruct (parse_digits_digits_of fuel n Hfuel) as [k Hk].
  specialize (Hk 0 false []).
  destruct (digits_of_head fuel n []) as (v & rest & Hv & Hhead).
  destruct (digit_char_plain v Hv) as (Hsp & Hplus & Hminus & _).
  destruct (digits_of_plain (S fuel) n []) as (Hnosp & Hascii & Hcount);
    [done..|].
  remember (digits_of (S fuel) n []) as ds eqn:Hds. clear Hds.
  destruct (over_limit _ _) eqn:Hlimit; [done|]. intros [= <-].
  unfold int_of_str, transform. rewrite Hascii. unfold pylong, strip.
  assert (lstrip ds = ds) as ->.
  { rewrite Hhead. cbn [lstrip]. by rewrite Hsp. }
  rewrite rstrip_no_space by done.
  rewrite Hhead, Hplus, Hminus, <- Hhead. cbn [orb].
  rewrite Hk, Hcount, Hlimit. cbn [parse_digits]. f_equal.
Qed.

Lemma str_of_int_small n :
  0 <= n < 2 ^ 64 -> exists s, str_of_int n = Ok s.
Proof.
  intros Hn. unfold str_of_int. cbv zeta. rewrite Z.abs_eq by lia.
  destruct (Z.ltb_spec n 0); [lia|].
  pose proof (digits_of_length (S (Z.to_nat (Z.log2 n))) n []) as Hlen.
  assert (Z.log2 n < 64) as Hlog.
  { destruct (Z.eq_dec n 0) as [->|]; [done|]. apply Z.log2_lt_pow2; lia. }
  pose proof (Z.log2_nonneg n).
  assert (over_limit
            (Z.of_nat (length (digits_of (S (Z.to_nat (Z.log2 n))) n [])))
            (Z.of_nat (length (digits_of (S (Z.to_nat (Z.log2 n))) n [])))
          = false) as ->; [|eauto].
  unfold over_limit. apply andb_false_iff. left. apply andb_false_iff. left.
  apply Z.ltb_ge. cbn [length] in Hlen. lia.
Qed.

Lemma deserialize_server_fields s host port protocol :
  rsplit (ord ":") 2 s = [host; port; protocol] ->
  deserialize_server s =
    if bool_decide (host = []) then Raise (ValueError "host must not be empty")
    else if negb (bool_decide (protocol = lit "s")
                  || bool_decide (protocol = lit "t"))
    then Raise (ValueError "invalid network protocol")
    else match int_of_str port with
         | None => Raise (ValueError "invalid literal for int() with base 10")
         | Some n =>
             if negb ((0 <? n) && (n <? 2 ^ 16))
             then Raise (ValueError "port is out of valid range")
             else Ok (host, port, protocol)
         end.
Proof. intros Hs. unfold deserialize_server. by rewrite Hs. Qed.

Lemma valid_port_no_colon port n :
  int_of_port port = Some n -> 0 < n < 65536 ->
  exists p,
    str_of_port port = Ok p /\
    int_of_str p = Some n /\ contains (ord ":") p = false.
Proof.
  destruct port as [p|m]; simpl; intros Hp Hn.
  - exists p. eauto using int_of_str_no_colon.
  - injection Hp as ->.
    destruct (str_of_int_small n) as [p Hstr]; [lia|].
    assert (int_of_str p = Some n) by (apply int_of_str_str_of_int; [lia|done]).
    exists p. eauto using int_of_str_no_colon.
Qed.

(** C8, as amended: for every valid triple (non-empty host, port with
    [0 < port < 65536] given as an [int] or as a [str], protocol [t] or
    [s]), [deserialize_server(serialize_server(host, port, protocol))] is
    [(host, str(port), protocol)]: the port comes back as a string.  And
    [deserialize_server] raises [ValueError] when its three fields have an
    empty host, a port that is not a number or is out of range, or a
    protocol other than [t] and [s]. *)
Theorem deserialize_serialize_server :
  (forall host port protocol,
      valid_triple host port protocol ->
      exists p s,
        str_of_port port = Ok p /\
        serialize_server host port protocol = Ok s /\
        deserialize_server s = Ok (host, p, protocol)) /\
  (forall s host port protocol,
      rsplit (ord ":") 2 s = [host; port; protocol] ->
      host = []
      \/ int_of_str port = None
      \/ (exists n, int_of_str port = Some n /\ ~ 0 < n < 65536)
      \/ (protocol <> lit "s" /\ protocol <> lit "t") ->
      exists msg, deserialize_server s = Raise (ValueError msg)).
Proof.
  split.
  - intros host port protocol (Hhost & (n & Hport & Hn) & Hproto).
    destruct (valid_port_no_colon port n Hport Hn) as (p & Hp & Hint & Hcolon).
    exists p, (join (lit ":") [host; p; protocol]).
    split; [done|]. unfold serialize_server. rewrite Hp. split; [done|].
    rewrite (deserialize_server_fields _ host p protocol).
    + rewrite bool_decide_eq_false_2 by done.
      assert (bool_decide (protocol = lit "s") || bool_decide (protocol = lit "t")
              = true) as ->.
      { destruct Hproto as [-> | ->]; reflexivity. }
      rewrite Hint. simpl negb at 1. cbv iota.
      destruct (Z.ltb_spec 0 n); [|lia].
      destruct (Z.ltb_spec n (2 ^ 16)); [done|lia].
    + apply rsplit_join; [done|]. by destruct Hproto as [-> | ->].
  - intros s host port protocol Hs Hbad.
    rewrite (deserialize_server_fields _ _ _ _ Hs).
    destruct (decide (host = [])) as [|Hne];
      [rewrite bool_decide_eq_true_2 by done; eauto|].
    rewrite bool_decide_eq_false_2 by done.
    destruct (decide (protocol = lit "s")) as [->|Hs'].
    { destruct (int_of_str port) as [k|]; [|eauto]. simpl.
      destruct (Z.ltb_spec 0 k); [|simpl; eauto].
      destruct (Z.ltb_spec k (2 ^ 16)); [|simpl; eauto].
      exfalso. destruct Hbad as [?|[?|[(m & Hm & Hr)|[? _]]]]; try done.
      injection Hm as <-. lia. }
    destruct (decide (protocol = lit "t")) as [->|Ht'].
    { destruct (int_of_str port) as [k|]; [|eauto]. simpl.
      destruct (Z.ltb_spec 0 k); [|simpl; eauto].
      destruct (Z.ltb_spec k (2 ^ 16)); [|simpl; eauto].
      exfalso. destruct Hbad as [?|[?|[(m & Hm & Hr)|[_ ?]]]]; try done.
      injection Hm as <-. lia. }
    rewrite !bool_decide_eq_false_2 by done. simpl. eauto.
Qed.

End Int.

(** What [int()] does with the separators \x1c..\x1f, with digits that
    are not ASCII and with a no-break space. *)
Lemma int_of_str_examples :
  int_of_str (H:=ToyRuntime.runtime) [28; 56; 48] = None /\
  int_of_str (H:=ToyRuntime.runtime) [56; 48; 29] = None /\
  int_of_str (H:=ToyRuntime.runtime) [1640; 1632] = Some 80 /\
  int_of_str (H:=ToyRuntime.runtime) [160; 56; 48] = Some 80 /\
  int_of_str (H:=ToyRuntime.runtime) (lit " +8_0 ") = Some 80.
Proof. repeat split; reflexivity. Qed.

Lemma deserialize_serialize_server_witness :
  valid_triple (H:=ToyRuntime.runtime)
    (lit "electrum.example") (PortInt 50002) (lit "s") /\
  exists p s,
    str_of_port (H:=ToyRuntime.runtime) (PortInt 50002) = Ok p /\
    serialize_server (H:=ToyRuntime.runtime)
      (lit "electrum.example") (PortInt 50002) (lit "s") = Ok s /\
    deserialize_server (H:=ToyRuntime.runtime) s
    = Ok (lit "electrum.example", p, lit "s").
Proof.
  assert (valid_triple (H:=ToyRuntime.runtime)
            (lit "electrum.example") (PortInt 50002) (lit "s")) as Hv.
  { split; [discriminate|]. split; [|by left]. exists 50002. split; [reflexivity|lia]. }
  split; [exact Hv|].
  exact (proj1 (deserialize_serialize_server (H:=ToyRuntime.runtime)) _ _ _ Hv).
Defined.

(** C8 as stated fails for a port given as an [int]: the triple that
    comes back holds the string ["1"], which is not the integer [1]. *)
Lemma roundtrip_int_port_counterexample :
  valid_triple (H:=ToyRuntime.runtime) (lit "h") (PortInt 1) (lit "t") /\
  (s ← serialize_server (H:=ToyRuntime.runtime) (lit "h") (PortInt 1) (lit "t");
   deserialize_server (H:=ToyRuntime.runtime) s)
  = Ok (lit "h", lit "1", lit "t") /\
  as_values (lit "h", lit "1", lit "t") <> (lit "h", PortInt 1, lit "t").
Proof.
  split; [|split].
  - split; [discriminate|]. split; [|by right]. exists 1. split; [reflexivity|lia].
  - reflexivity.
  - discriminate.
Qed.

End ServerAddrProofs.

(** ** NotificationSession *)

Module SessionProofs.
Import Session.

Section WithValues.
Context {V : Type}.
Variable repr : list V -> string.
Variable respond : Z -> string -> list V -> wire_outcome V.

Abbreviation key_of := (get_hashable_key_for_rpc_call repr).
Abbreviation subscribe := (subscribe repr respond).
Abbreviation handle_request := (handle_request (V:=V) repr).
Abbreviation run := (run repr respond).
Abbreviation after := (after repr respond).
Abbreviation registered := (registered repr).

Ltac run_monad :=
  unfold Session.subscribe, Session.handle_request, send_request, unsubscribe,
    queue_put, bind, gets, modify, ret, raise; simpl.

Lemma put_all_spec qs (item : list V) : forall s : @session V,
  exists s',
    put_all qs item s = Returns tt s' /\
    subscriptions s' = subscriptions s /\ cache s' = cache s /\
    wire s' = wire s /\ msg_counter s' = msg_counter s /\
    (qs = [] -> s' = s) /\
    forall queue,
      default [] (queues s' !! queue)
      = default [] (queues s !! queue) ++ replicate (copies queue qs) item.
Proof.
  induction qs as [|q qs IH]; intros s.
  - exists s. repeat split; try done. intros queue. simpl. by rewrite app_nil_r.
  - simpl. run_monad.
    destruct (IH (set_queues
                    (fun qs0 => <[q := default [] (qs0 !! q) ++ [item]]> qs0) s))
      as (s' & -> & Hsub & Hcache & Hwire & Hctr & _ & Hq).
    exists s'. repeat split; try done. intros queue.
    rewrite Hq. simpl. destruct (Nat.eqb_spec q queue) as [->|Hne].
    + rewrite lookup_insert_eq. simpl. by rewrite <- app_assoc.
    + by rewrite lookup_insert_ne.
Qed.

Lemma copies_pos queue qs : queue ∈ qs -> exists n, copies queue qs = S n.
Proof.
  induction qs as [|q qs IH]; [by intros ?%elem_of_nil|].
  intros [->|Hin]%elem_of_cons; simpl.
  - rewrite Nat.eqb_refl. eauto.
  - destruct (IH Hin) as [n ->]. destruct (Nat.eqb q queue); simpl; eauto.
Qed.

Lemma unsnoc_snoc (params : list V) result :
  unsnoc (params ++ [result]) = Some (params, result).
Proof.
  induction params as [|x params IH]; [done|].
  simpl. rewrite IH. by destruct (params ++ [result]) eqn:E;
    [destruct params; discriminate E|].
Qed.

(** A notification whose key has queues listed reaches each of them. *)
Lemma handle_request_delivers method params result qs (s : @session V) :
  subscriptions s !! key_of method params = Some qs ->
  exists s',
    handle_request (Notification method (params ++ [result])) s = Returns tt s' /\
    subscriptions s' = subscriptions s /\
    cache s' = <[key_of method params := result]> (cache s) /\
    wire s' = wire s /\
    (qs = [] -> queues s' = queues s) /\
    forall queue,
      default [] (queues s' !! queue)
      = default [] (queues s !! queue)
        ++ replicate (copies queue qs) (params ++ [result]).
Proof.
  intros Hqs. unfold Session.handle_request. rewrite unsnoc_snoc.
  unfold bind, gets. rewrite Hqs. unfold modify.
  destruct (put_all_spec qs (params ++ [result])
              (set_cache (fun c => <[key_of method params := result]> c) s))
    as (s' & -> & Hsub & Hcache & Hwire & _ & Hnil & Hq).
  exists s'. repeat split; try done.
  intros ->. by rewrite (Hnil eq_refl).
Qed.

Lemma handle_request_unexpected method params result (s : @session V) :
  subscriptions s !! key_of method params = None ->
  handle_request (Notification method (params ++ [result])) s
  = Raises (Exception "unexpected request") s.
Proof.
  intros Hqs. unfold Session.handle_request. rewrite unsnoc_snoc.
  unfold bind, gets. by rewrite Hqs.
Qed.

Lemma subscribe_cached method params queue (s : @session V) v :
  cache s !! key_of method params = Some v ->
  subscribe method params queue s
  = Returns tt
      (mkSession (registered method params queue s) (cache s)
         (framer_max_size s) (default_timeout s) (msg_counter s)
         (<[queue := default [] (queues s !! queue) ++ [params ++ [v]]]> (queues s))
         (wire s)).
Proof. intros Hc. run_monad. by rewrite Hc. Qed.

Lemma subscribe_uncached method params queue (s : @session V) :
  cache s !! key_of method params = None ->
  subscribe method params queue s
  = let s1 := mkSession (registered method params queue s) (cache s)
                (framer_max_size s) (default_timeout s) (msg_counter s + 1)
                (queues s) (wire s ++ [(method, params)]) in
    match respond (msg_counter s + 1) method params with
    | Response r =>
        Returns tt
          (mkSession (registered method params queue s)
             (<[key_of method params := r]> (cache s))
             (framer_max_size s) (default_timeout s) (msg_counter s + 1)
             (<[queue := default [] (queues s !! queue) ++ [params ++ [r]]]>
                (queues s))
             (wire s ++ [(method, params)]))
    | TimedOut => Raises (RequestTimedOut "request timed out") s1
    | WireError e => Raises e s1
    end.
Proof.
  intros Hc. run_monad. rewrite Hc. simpl.
  by destruct (respond (msg_counter s + 1) method params).
Qed.

Lemma subscribe_registers method params queue (s s' : @session V) :
  final_state (subscribe method params queue s) = Some s' ->
  subscriptions s' = registered method params queue s.
Proof.
  destruct (cache s !! key_of method params) as [v|] eqn:Hc.
  - rewrite (subscribe_cached _ _ _ _ _ Hc). simpl. by intros [= <-].
  - rewrite (subscribe_uncached _ _ _ _ Hc).
    destruct (respond (msg_counter s + 1) method params); simpl; by intros [= <-].
Qed.

(** C7: [subscribe(method, params, queue)] with the key in the cache puts
    the cached value on the queue and sends nothing; with the key not in
    the cache it sends exactly one request, stores the response in the
    cache and puts it on the queue.  Either way (and also when the request
    fails) the queue is listed under the key, so that a later notification
    with that key is put on it. *)
Theorem subscribe_cache_or_request method params queue (s : @session V) :
  let key := key_of method params in
  (forall v, cache s !! key = Some v ->
     exists s',
       subscribe method params queue s = Returns tt s' /\
       wire s' = wire s /\ cache s' = cache s /\
       queues s' !! queue
       = Some (default [] (queues s !! queue) ++ [params ++ [v]])) /\
  (cache s !! key = None ->
     forall r, respond (msg_counter s + 1) method params = Response r ->
     exists s',
       subscribe method params queue s = Returns tt s' /\
       wire s' = wire s ++ [(method, params)] /\
       cache s' = <[key := r]> (cache s) /\
       queues s' !! queue
       = Some (default [] (queues s !! queue) ++ [params ++ [r]])) /\
  (forall s',
     final_state (subscribe method params queue s) = Some s' ->
     (exists qs, subscriptions s' !! key = Some qs /\ queue ∈ qs) /\
     forall x, exists s'' n,
       handle_request (Notification method (params ++ [x])) s' = Returns tt s'' /\
       default [] (queues s'' !! queue)
       = default [] (queues s' !! queue) ++ replicate (S n) (params ++ [x])).
Proof.
  intros key. split; [|split].
  - intros v Hc. rewrite (subscribe_cached _ _ _ _ _ Hc).
    eexists. split; [done|]. simpl. by rewrite lookup_insert_eq.
  - intros Hc r Hr. rewrite (subscribe_uncached _ _ _ _ Hc), Hr.
    eexists. split; [done|]. simpl. by rewrite lookup_insert_eq.
  - intros s' Hs'. apply subscribe_registers in Hs'.
    assert (subscriptions s' !! key
            = Some (default [] (subscriptions s !! key) ++ [queue])) as Hqs.
    { rewrite Hs'. apply lookup_insert_eq. }
    assert (queue ∈ default [] (subscriptions s !! key) ++ [queue]) as Hin
      by set_solver.
    split; [eauto|]. intros x.
    destruct (handle_request_delivers method params x _ s' Hqs)
      as (s'' & Hrun & _ & _ & _ & _ & Hq).
    destruct (copies_pos _ _ Hin) as [n Hn].
    exists s'', n. split; [done|]. by rewrite Hq, Hn.
Qed.

(** *** Keys are never removed *)

Lemma handle_request_subscriptions request (s s' : @session V) :
  final_state (handle_request request s) = Some s' ->
  subscriptions s' = subscriptions s.
Proof.
  destruct request as [method args|method args]; [|by intros [= <-]].
  unfold Session.handle_request.
  destruct (unsnoc args) as [[params result]|]; [|by intros [= <-]].
  unfold bind, gets.
  destruct (subscriptions s !! key_of method params) as [qs|] eqn:Hqs;
    [|by intros [= <-]].
  unfold modify.
  destruct (put_all_spec qs args
              (set_cache (fun c => <[key_of method params := result]> c) s))
    as (s1 & -> & Hsub & _).
  by intros [= <-].
Qed.

Lemma unsubscribe_keeps_keys queue (s : @session V) key :
  is_Some (subscriptions (after (CallUnsubscribe queue) s) !! key)
  <-> is_Some (subscriptions s !! key).
Proof.
  unfold Session.after. simpl. rewrite lookup_fmap. apply fmap_is_Some.
Qed.

Lemma after_keys c (s : @session V) key :
  is_Some (subscriptions (after c s) !! key)
  <-> is_Some (subscriptions s !! key) \/ subscribed_in repr key [c].
Proof.
  destruct c as [m p q|q|r].
  - unfold Session.after, run_call.
    destruct (final_state (subscribe m p q s)) as [s'|] eqn:Hs'.
    + simpl. rewrite (subscribe_registers _ _ _ _ _ Hs').
      unfold Session.registered.
      destruct (decide (key_of m p = key)) as [<-|Hne].
      * rewrite lookup_insert_eq. split; [intros _|by eauto].
        right. exists m, p, q. split; [by left|done].
      * rewrite lookup_insert_ne by done. split; [by left|].
        intros [?|(m' & p' & q' & [[= <- <- <-]|[]] & Hk)]; [done|].
        by destruct Hne.
    + exfalso. destruct (cache s !! key_of m p) as [v|] eqn:Hc.
      * by rewrite (subscribe_cached _ _ _ _ _ Hc) in Hs'.
      * rewrite (subscribe_uncached _ _ _ _ Hc) in Hs'.
        by destruct (respond (msg_counter s + 1) m p).
  - rewrite unsubscribe_keeps_keys. split; [by left|].
    intros [?|(m' & p' & q' & [[=]|[]] & _)]. done.
  - unfold Session.after, run_call.
    destruct (final_state (handle_request r s)) as [s'|] eqn:Hs'; simpl.
    + rewrite (handle_request_subscriptions _ _ _ Hs'). split; [by left|].
      intros [?|(m' & p' & q' & [[=]|[]] & _)]. done.
    + split; [by left|]. intros [?|(m' & p' & q' & [[=]|[]] & _)]. done.
Qed.

Lemma run_keys calls : forall (s : @session V) key,
  is_Some (subscriptions (run calls s) !! key)
  <-> is_Some (subscriptions s !! key) \/ subscribed_in repr key calls.
Proof.
  induction calls as [|c calls IH]; intros s key.
  - simpl. split; [by left|]. intros [?|(m & p & q & [] & _)]. done.
  - change (run (c :: calls) s) with (run calls (after c s)).
    rewrite IH, after_keys. unfold subscribed_in. split.
    + intros [[?|(m & p & q & Hin & Hk)]|(m & p & q & Hin & Hk)]; [by left|..];
        right; exists m, p, q; (split; [|done]).
      * destruct Hin as [->|[]]. by left.
      * by right.
    + intros [?|(m & p & q & [->|Hin] & Hk)]; [by left; left|..].
      * left; right. exists m, p, q. split; [by left|done].
      * right. exists m, p, q. done.
Qed.

(** *** References are removed one at a time *)

Lemma copies_remove_first q queue qs :
  copies q (remove_first queue qs)
  = if Nat.eqb q queue then pred (copies q qs) else copies q qs.
Proof.
  induction qs as [|x qs IH]; simpl; [by destruct (Nat.eqb q queue)|].
  destruct (Nat.eqb_spec x queue) as [->|Hx].
  - destruct (Nat.eqb_spec q queue) as [->|Hq].
    + by rewrite Nat.eqb_refl.
    + by destruct (Nat.eqb_spec queue q) as [->|].
  - simpl. rewrite IH. destruct (Nat.eqb_spec q queue) as [->|Hq]; [|done].
    by destruct (Nat.eqb_spec x queue).
Qed.

Lemma copies_snoc q qs x :
  copies q (qs ++ [x]) = if Nat.eqb x q then S (copies q qs) else copies q qs.
Proof.
  induction qs as [|y qs IH]; simpl.
  - destruct (Nat.eqb x q); reflexivity.
  - rewrite IH. destruct (Nat.eqb x q), (Nat.eqb y q); simpl; lia.
Qed.

Lemma copies_none qs : (forall q, copies q qs = O) -> qs = [].
Proof.
  destruct qs as [|x qs]; [done|]. intros Hq. specialize (Hq x).
  simpl in Hq. by rewrite Nat.eqb_refl in Hq.
Qed.

Lemma after_subscribe m p q (s : @session V) :
  subscriptions (after (CallSubscribe m p q) s) = registered m p q s.
Proof.
  unfold Session.after, run_call.
  destruct (cache s !! key_of m p) as [v|] eqn:Hc.
  - by rewrite (subscribe_cached _ _ _ _ _ Hc).
  - rewrite (subscribe_uncached _ _ _ _ Hc).
    by destruct (respond (msg_counter s + 1) m p).
Qed.

Lemma after_handle_request r (s : @session V) :
  subscriptions (after (CallHandleRequest r) s) = subscriptions s.
Proof.
  unfold Session.after, run_call.
  destruct (final_state (handle_request r s)) as [s'|] eqn:Hs'; [|done].
  exact (handle_request_subscriptions _ _ _ Hs').
Qed.

Lemma unsubscribe_spec queue (s0 : @session V) :
  let s1 := after (CallUnsubscribe queue) s0 in
  unsubscribe queue s0 = Returns tt s1 /\
  cache s1 = cache s0 /\ queues s1 = queues s0 /\ wire s1 = wire s0 /\
  forall k,
    subscriptions s1 !! k = remove_first queue <$> subscriptions s0 !! k /\
    (is_Some (subscriptions s1 !! k) <-> is_Some (subscriptions s0 !! k)) /\
    forall q,
      copies q (default [] (subscriptions s1 !! k))
      = if Nat.eqb q queue
        then pred (copies q (default [] (subscriptions s0 !! k)))
        else copies q (default [] (subscriptions s0 !! k)).
Proof.
  intros s1. split; [reflexivity|]. do 3 (split; [reflexivity|]).
  intros k. split; [apply lookup_fmap|]. split; [apply unsubscribe_keeps_keys|].
  intros q. unfold s1, Session.after. simpl. rewrite lookup_fmap.
  destruct (subscriptions s0 !! k) as [qs|]; simpl.
  - apply copies_remove_first.
  - by destruct (Nat.eqb q queue).
Qed.

Lemma after_references key q c (s : @session V) :
  copies q (default [] (subscriptions (after c s) !! key))
  = references_step repr key q
      (copies q (default [] (subscriptions s !! key))) c.
Proof.
  destruct c as [m p q'|q'|r]; cbn [references_step].
  - rewrite after_subscribe. unfold Session.registered.
    destruct (decide (key_of m p = key)) as [<-|Hne].
    + rewrite bool_decide_eq_true_2 by done. rewrite lookup_insert_eq.
      simpl. apply copies_snoc.
    + rewrite bool_decide_eq_false_2 by done.
      by rewrite lookup_insert_ne.
  - destruct (unsubscribe_spec q' s) as (_ & _ & _ & _ & Hk).
    destruct (Hk key) as (_ & _ & ->). by rewrite Nat.eqb_sym.
  - by rewrite after_handle_request.
Qed.

Lemma run_references key q calls : forall s : @session V,
  copies q (default [] (subscriptions (run calls s) !! key))
  = fold_left (references_step repr key q) calls
      (copies q (default [] (subscriptions s !! key))).
Proof.
  induction calls as [|c calls IH]; intros s; [done|].
  change (run (c :: calls) s) with (run calls (after c s)).
  rewrite IH. simpl. by rewrite after_references.
Qed.


End WithValues.

(** The first subscription of a session: the key is not cached, one
    request goes out, and its response is stored and delivered. *)
Lemma subscribe_cache_or_request_witness :
  exists s',
    subscribe (fun _ => "[]"%string) (fun _ _ _ => Response 7)
      "blockchain.headers.subscribe" [] 0%nat init = Returns tt s' /\
    wire s' = wire init ++ [("blockchain.headers.subscribe"%string, [])] /\
    cache s' = <["blockchain.headers.subscribe[]"%string := 7]> (cache init) /\
    queues s' !! 0%nat = Some (default [] (queues init !! 0%nat) ++ [[] ++ [7]]).
Proof.
  exact (proj1 (proj2 (subscribe_cache_or_request (fun _ => "[]"%string)
                         (fun _ _ _ => Response 7)
                         "blockchain.headers.subscribe" [] 0%nat init))
           (lookup_empty _) 7 eq_refl).
Defined.


(** *** The framer limit *)

(** C6, as amended: the limit the session sets on an inbound frame is
    20,000,000 bytes (20 MB, not 20 MiB): a frame is accepted by the framer
    exactly when it is no larger than that. *)
Theorem framer_limit_20_MB :
  framer_max_size (@init unit) = 20000000 /\
  forall frame_size,
    framer_accepts (framer_max_size (@init unit)) frame_size = true
    <-> frame_size <= 20000000.
Proof.
  split; [reflexivity|]. intros n. unfold framer_accepts. simpl. lia.
Qed.

(** C6 as stated fails: the limit is not 20 MiB, and a frame of exactly
    20 MiB, which the claim has accepted, is over the limit. *)
Lemma framer_limit_not_20_MiB :
  framer_max_size (@init unit) <> 20 * MiB /\
  framer_accepts (framer_max_size (@init unit)) (20 * MiB) = false.
Proof. split; [discriminate|reflexivity]. Qed.

End SessionProofs.

(** ** Interface *)

Module IfaceProofs.
Import Iface.

(** *** Running monadic code *)

Lemma bind_returns {W A B} (c : M W A) (k : A -> M W B) w a w' :
  c w = Returns a w' -> bind c k w = k a w'.
Proof. intros Hc. unfold bind. by rewrite Hc. Qed.

Lemma bind_raises {W A B} (c : M W A) (k : A -> M W B) w e w' :
  c w = Raises e w' -> bind c k w = Raises e w'.
Proof. intros Hc. unfold bind. by rewrite Hc. Qed.

Lemma final_state_bind {W A B} (c : M W A) (k : A -> M W B) w w' :
  final_state (bind c k w) = Some w' ->
  (exists e, c w = Raises e w') \/
  (exists a w1, c w = Returns a w1 /\ final_state (k a w1) = Some w').
Proof.
  unfold bind. destruct (c w) as [a w1|e w1|]; [eauto| |done].
  intros [= <-]. eauto.
Qed.

Lemma bind_inv_returns {W A B} (c : M W A) (k : A -> M W B) w b w' :
  bind c k w = Returns b w' ->
  exists a w1, c w = Returns a w1 /\ k a w1 = Returns b w'.
Proof. unfold bind. destruct (c w) as [a w1| |]; [eauto|done..]. Qed.

Section Preserves.
Context {W : Type} (R : W -> W -> Prop) `{!PreOrder R}.

Lemma preserves_ret {A} (a : A) : preserves R (ret a).
Proof. by intros w w' [= <-]. Qed.

Lemma preserves_raise {A} e : preserves R (raise (A:=A) e).
Proof. by intros w w' [= <-]. Qed.

Lemma preserves_gets {A} (f : W -> A) : preserves R (gets f).
Proof. by intros w w' [= <-]. Qed.

Lemma preserves_assert cond msg : preserves R (assert cond msg).
Proof. destruct cond; [apply preserves_ret|apply preserves_raise]. Qed.

Lemma preserves_lift_result {A} (r : result A) : preserves R (lift_result r).
Proof. intros w w'. unfold lift_result. by destruct r; intros [= <-]. Qed.

Lemma preserves_modify (f : W -> W) :
  (forall w, R w (f w)) -> preserves R (modify f).
Proof. intros Hf w w' [= <-]. apply Hf. Qed.

Lemma preserves_bind {A B} (c : M W A) (k : A -> M W B) :
  preserves R c -> (forall a, preserves R (k a)) -> preserves R (bind c k).
Proof.
  intros Hc Hk w w'. unfold bind.
  destruct (c w) as [a w1|e w1|] eqn:Hcw; [|intros [= <-]|done].
  - intros Hkw. trans w1; [|by eapply Hk]. apply Hc. by rewrite Hcw.
  - apply Hc. by rewrite Hcw.
Qed.

Lemma preserves_try_finally {A} (c : M W A) (h : W -> W) :
  preserves R c -> (forall w, R w (h w)) -> preserves R (try_finally c h).
Proof.
  intros Hc Hh w w'. unfold try_finally.
  destruct (c w) as [a w1|e w1|] eqn:Hcw; [| |done]; intros [= <-];
    (trans w1; [|apply Hh]); apply Hc; by rewrite Hcw.
Qed.

End Preserves.

Section Total.
Context {W : Type}.

Lemma total_ret {A} (a : A) : total (W:=W) (ret a).
Proof. by intros w. Qed.

Lemma total_raise {A} e : total (W:=W) (raise (A:=A) e).
Proof. by intros w. Qed.

Lemma total_gets {A} (f : W -> A) : total (gets f).
Proof. by intros w. Qed.

Lemma total_modify (f : W -> W) : total (modify f).
Proof. by intros w. Qed.

Lemma total_assert cond msg : total (W:=W) (assert cond msg).
Proof. by destruct cond; intros w. Qed.

Lemma total_lift_result {A} (r : result A) : total (W:=W) (lift_result r).
Proof. intros w. unfold lift_result. by destruct r. Qed.

Lemma total_bind {A B} (c : M W A) (k : A -> M W B) :
  total c -> (forall a, total (k a)) -> total (bind c k).
Proof.
  intros Hc Hk w. unfold bind. specialize (Hc w).
  destruct (c w) as [a w1|e w1|]; [apply Hk|done..].
Qed.

Lemma total_try_finally {A} (c : M W A) (h : W -> W) :
  total c -> total (try_finally c h).
Proof.
  intros Hc w. unfold try_finally. specialize (Hc w). by destruct (c w).
Qed.

End Total.

Ltac totality :=
  repeat first
    [ progress intros
    | apply total_ret | apply total_raise | apply total_gets | apply total_modify
    | apply total_assert | apply total_lift_result
    | solve [eauto]
    | apply total_bind
    | apply total_try_finally
    | match goal with
      | |- total (match ?x with _ => _ end) => destruct x
      end ].

Create HintDb frame.

Ltac frame :=
  repeat first
    [ progress intros
    | apply preserves_ret | apply preserves_raise | apply preserves_gets
    | apply preserves_assert | apply preserves_lift_result
    | assumption
    | solve [eauto with frame]
    | apply preserves_bind
    | apply preserves_try_finally
    | apply preserves_modify
    | match goal with |- PreOrder _ => apply _ end
    | match goal with
      | |- preserves _ _ => fail 1
      | |- _ => solve [hnf; simpl; repeat split; done]
      end
    | match goal with
      | |- preserves _ (match ?x with _ => _ end) => destruct x
      end ].

Section Interface.
Context `{Collaborators}.

#[local] Instance only_wire_preorder : PreOrder only_wire.
Proof.
  split.
  - by intros w.
  - intros w1 w2 w3 H12 H23. unfold only_wire in *.
    destruct H12 as (?&?&?&?&?&?&?), H23 as (?&?&?&?&?&?&?).
    repeat split; congruence.
Qed.

#[local] Instance same_tip_preorder : PreOrder same_tip.
Proof. split; [by intros w|]. intros w1 w2 w3. unfold same_tip. congruence. Qed.

#[local] Instance same_requested_preorder : PreOrder same_requested.
Proof.
  split; [by intros w|]. intros w1 w2 w3. unfold same_requested. congruence.
Qed.

Lemma only_wire_same_tip w w' : only_wire w w' -> same_tip w w'.
Proof. by intros (? & _). Qed.

Lemma only_wire_same_requested w w' : only_wire w w' -> same_requested w w'.
Proof. by intros (_ & _ & _ & ? & _). Qed.

Lemma preserves_weaken {A} (R R' : world -> world -> Prop) (c : M world A) :
  (forall w w', R w w' -> R' w w') -> preserves R c -> preserves R' c.
Proof. intros HR Hc w w' Hw. by apply HR, Hc. Qed.

(** *** The fetchers write the wire and nothing else *)

Lemma send_request_only_wire r : preserves only_wire (send_request r).
Proof. unfold send_request. frame. Qed.

Lemma get_block_header_only_wire height assert_mode must_provide_proof :
  preserves only_wire (get_block_header height assert_mode must_provide_proof).
Proof.
  pose proof send_request_only_wire. unfold get_block_header. frame.
Qed.

Lemma request_headers_only_wire height count :
  preserves only_wire (request_headers height count).
Proof.
  pose proof send_request_only_wire. unfold request_headers. frame.
Qed.

Lemma send_request_total r : total (send_request r).
Proof. unfold send_request. totality. Qed.

Lemma get_block_header_total height assert_mode must_provide_proof :
  total (get_block_header height assert_mode must_provide_proof).
Proof. pose proof send_request_total. unfold get_block_header. totality. Qed.

Lemma request_headers_total height count : total (request_headers height count).
Proof. pose proof send_request_total. unfold request_headers. totality. Qed.

(** *** Checkpoint validator *)

Lemma map_result_ok {A B} (f : A -> result B) l bs :
  map_result f l = Ok bs <-> Forall2 (fun a b => f a = Ok b) l bs.
Proof.
  revert bs. induction l as [|a l IH]; intros bs; simpl.
  - split; [by intros [= <-]; constructor|by inversion 1].
  - unfold mbind, result_bind, rbind.
    destruct (f a) as [b|e] eqn:Hfa.
    + destruct (map_result f l) as [bs'|e] eqn:Hl.
      * split.
        -- intros [= <-]. constructor; [done|]. by apply IH.
        -- inversion 1 as [|? b' ? bs'' Hb Hrest]; subst.
           apply IH in Hrest. congruence.
      * split; [done|]. inversion 1 as [|? b' ? bs'' Hb Hrest]; subst.
        by apply IH in Hrest.
    + split; [done|]. inversion 1; congruence.
Qed.

Lemma bytes_eqb_true a b : bytes_eqb a b = true <-> a = b.
Proof. unfold bytes_eqb. apply bool_decide_eq_true. Qed.

Lemma validate_checkpoint_result_ok merkle_root merkle_branch header header_height :
  validate_checkpoint_result merkle_root merkle_branch header header_height = Ok tt
  <-> exists received expected header_bytes byte_branches,
        bfh merkle_root = Ok received /\
        bfh VERIFICATION_BLOCK_MERKLE_ROOT = Ok expected /\
        rev received = rev expected /\
        bfh header = Ok header_bytes /\
        Forall2 (fun v b => exists x, bfh v = Ok x /\ b = rev x)
          merkle_branch byte_branches /\
        root_from_proof (sha256d header_bytes) byte_branches header_height
        = Ok (rev expected).
Proof.
  unfold validate_checkpoint_result, mbind, result_bind, rbind.
  assert (forall bs,
    map_result (fun v => match bfh v with Ok b => Ok (rev b) | Raise e => Raise e end)
      merkle_branch = Ok bs
    <-> Forall2 (fun v b => exists x, bfh v = Ok x /\ b = rev x) merkle_branch bs)
    as Hbranches.
  { intros bs. rewrite map_result_ok.
    split; intros Hall; (eapply Forall2_impl; [exact Hall|]); simpl; intros v b.
    - destruct (bfh v) as [x|e]; [|done]. intros [= <-]. eauto.
    - by intros (x & -> & ->). }
  split.
  - destruct (bfh merkle_root) as [received|]; [|done].
    destruct (bfh VERIFICATION_BLOCK_MERKLE_ROOT) as [expected|]; [|done].
    destruct (bytes_eqb (rev received) (rev expected)) eqn:Hroot; [|done].
    apply bytes_eqb_true in Hroot. simpl.
    destruct (bfh header) as [header_bytes|]; [|done].
    destruct (map_result _ merkle_branch) as [byte_branches|] eqn:Hbr; [|done].
    destruct (root_from_proof _ _ _) as [proven|] eqn:Hproven; [|done].
    destruct (bytes_eqb proven (rev expected)) eqn:Hp; [|done].
    apply bytes_eqb_true in Hp. subst proven. intros _.
    exists received, expected, header_bytes, byte_branches.
    repeat split; try done. by apply Hbranches.
  - intros (received & expected & header_bytes & byte_branches
            & -> & -> & Hroot & -> & Hbr & Hproven).
    apply bytes_eqb_true in Hroot as ->. simpl.
    apply Hbranches in Hbr.
    destruct (map_result _ merkle_branch) as [bs|] eqn:Hbs; [|done].
    injection Hbr as ->. rewrite Hproven.
    by rewrite (proj2 (bytes_eqb_true _ _) eq_refl).
Qed.

Lemma validate_checkpoint_result_raises merkle_root merkle_branch header h :
  validate_checkpoint_result merkle_root merkle_branch header h <> Ok tt ->
  exists e, validate_checkpoint_result merkle_root merkle_branch header h = Raise e.
Proof.
  destruct (validate_checkpoint_result _ _ _ _) as [[]|e]; [done|eauto].
Qed.

(** At or below a checkpoint that is not 0, [get_block_header] returns
    only a header whose proof [validate_checkpoint_result] accepted. *)
Lemma get_block_header_validated height assert_mode must_provide_proof w
    header proof_was_provided w' :
  max_checkpoint <> 0 ->
  height <= max_checkpoint ->
  get_block_header height assert_mode must_provide_proof w
  = Returns (header, proof_was_provided) w' ->
  proof_was_provided = true /\
  exists d root branch hexheader,
    server (msg_counter w + 1) (BlockHeader height max_checkpoint)
    = Ok (RespDict d) /\
    r_root d = Some root /\ r_branch d = Some branch /\
    r_header d = Some hexheader /\
    validate_checkpoint_result root branch hexheader height = Ok tt /\
    (b ← bfh hexheader; deserialize_header b height) = Ok header.
Proof.
  intros Hcp Hh. unfold get_block_header.
  destruct (Z.ltb_spec max_checkpoint height) as [|_]; [lia|].
  unfold bind at 1. unfold ret at 1.
  unfold send_request, bind, gets, modify, lift_result. simpl.
  destruct (server (msg_counter w + 1) (BlockHeader height max_checkpoint))
    as [res|e]; [|done].
  destruct (has_root res && has_branch res && has_header res) eqn:Hkeys.
  - destruct (Z.eqb_spec max_checkpoint 0) as [|_]; [done|].
    destruct res as [s|d]; simpl; [done|].
    destruct (r_header d) as [hexheader|] eqn:Hhex; [|done].
    destruct (r_root d) as [root|] eqn:Hroot; [|done].
    destruct (r_branch d) as [branch|] eqn:Hbranch; [|done].
    destruct (validate_checkpoint_result root branch hexheader height)
      as [[]|] eqn:Hvalid; [|done].
    unfold ret.
    destruct (b ← bfh hexheader; deserialize_header b height) as [hd|] eqn:Hd;
      [|done].
    intros [= <- <- <-]. split; [done|].
    exists d, root, branch, hexheader. done.
  - destruct (Z.eqb_spec max_checkpoint 0) as [|_]; [done|]. done.
Qed.

(** The same for a chunk that ends at or below the checkpoint:
    [request_headers] returns it only if [validate_checkpoint_result]
    accepted the proof for its last header and [verify_proven_chunk]
    accepted the chunk. *)
Lemma request_headers_validated height count w res proof_was_provided w' :
  max_checkpoint <> 0 ->
  height + count - 1 <= max_checkpoint ->
  request_headers height count w = Returns (res, proof_was_provided) w' ->
  proof_was_provided = true /\
  exists hexdata root branch data,
    get_item r_hex res = Ok hexdata /\
    get_item r_root res = Ok root /\ get_item r_branch res = Ok branch /\
    let n := Z.of_nat (String.length hexdata) / 160 in
    validate_checkpoint_result root branch
      (py_slice hexdata ((n - 1) * 160) ((n - 1) * 160 + 160)) (height + n - 1)
    = Ok tt /\
    bfh hexdata = Ok data /\ verify_proven_chunk height data = Ok tt.
Proof.
  intros Hcp Htop. unfold request_headers.
  destruct (2016 <? count); [done|].
  destruct (Z.ltb_spec max_checkpoint (height + count - 1)) as [|_]; [lia|].
  intros (res' & w1 & _ & Hrest)%bind_inv_returns.
  apply bind_inv_returns in Hrest as (hexdata & w2 & Hhex & Hrest).
  change (80 * 2) with 160 in Hrest.
  destruct (count <? Z.of_nat (String.length hexdata) / 160); [done|].
  apply bind_inv_returns in Hrest as (proof & w3 & Hproof & [= <- <- <-]).
  destruct (has_root res' && has_branch res').
  - destruct (Z.eqb_spec max_checkpoint 0) as [|_]; [done|].
    apply bind_inv_returns in Hproof as (root & w4 & Hroot & Hproof).
    apply bind_inv_returns in Hproof as (branch & w5 & Hbranch & Hproof).
    apply bind_inv_returns in Hproof as ([] & w6 & Hvalid & Hproof).
    apply bind_inv_returns in Hproof as (data & w7 & Hdata & Hproof).
    apply bind_inv_returns in Hproof as ([] & w8 & Hverify & [= <- <-]).
    split; [done|]. exists hexdata, root, branch, data.
    unfold lift_result in *.
    destruct (get_item r_hex res'); [|done].
    destruct (get_item r_root res'); [|done].
    destruct (get_item r_branch res'); [|done].
    destruct (validate_checkpoint_result _ _ _ _) as [[]|]; [|done].
    destruct (bfh hexdata); [|done].
    destruct (verify_proven_chunk _ _) as [[]|]; [|done].
    injection Hhex as ->. injection Hroot as ->. injection Hbranch as ->.
    injection Hdata as ->. done.
  - by destruct (Z.eqb_spec max_checkpoint 0) as [|_].
Qed.

(** C1, as amended: [validate_checkpoint_result] accepts exactly when
    (a) the byte-reversed [merkle_root] received equals the byte-reversed
    [VERIFICATION_BLOCK_MERKLE_ROOT] and (b) [root_from_proof] of the
    double SHA-256 of the header bytes, the byte-reversed branches and
    the height gives that expected root; on every other input it raises.
    Hence, when [max_checkpoint()] is not 0, a header at a height
    [h <= max_checkpoint()] is returned by [get_block_header] only with a
    proof that [validate_checkpoint_result] accepted, and a chunk
    requested up to a height [height + count - 1 <= max_checkpoint()] is
    returned by [request_headers] only with such a proof for the last
    header the server sent. *)
Theorem checkpoint_validation merkle_root merkle_branch header header_height :
  (validate_checkpoint_result merkle_root merkle_branch header header_height = Ok tt
   <-> exists received expected header_bytes byte_branches,
         bfh merkle_root = Ok received /\
         bfh VERIFICATION_BLOCK_MERKLE_ROOT = Ok expected /\
         rev received = rev expected /\
         bfh header = Ok header_bytes /\
         Forall2 (fun v b => exists x, bfh v = Ok x /\ b = rev x)
           merkle_branch byte_branches /\
         root_from_proof (sha256d header_bytes) byte_branches header_height
         = Ok (rev expected)) /\
  (validate_checkpoint_result merkle_root merkle_branch header header_height
   <> Ok tt ->
   exists e,
     validate_checkpoint_result merkle_root merkle_branch header header_height
     = Raise e) /\
  (max_checkpoint <> 0 ->
   forall h assert_mode must_provide_proof w fetched proof_was_provided w',
     h <= max_checkpoint ->
     get_block_header h assert_mode must_provide_proof w
     = Returns (fetched, proof_was_provided) w' ->
     proof_was_provided = true /\
     exists d root branch hexheader,
       server (msg_counter w + 1) (BlockHeader h max_checkpoint)
       = Ok (RespDict d) /\
       r_root d = Some root /\ r_branch d = Some branch /\
       r_header d = Some hexheader /\
       validate_checkpoint_result root branch hexheader h = Ok tt /\
       (b ← bfh hexheader; deserialize_header b h) = Ok fetched) /\
  (max_checkpoint <> 0 ->
   forall height count w res proof_was_provided w',
     height + count - 1 <= max_checkpoint ->
     request_headers height count w = Returns (res, proof_was_provided) w' ->
     proof_was_provided = true /\
     exists hexdata root branch data,
       get_item r_hex res = Ok hexdata /\
       get_item r_root res = Ok root /\ get_item r_branch res = Ok branch /\
       let n := Z.of_nat (String.length hexdata) / 160 in
       validate_checkpoint_result root branch
         (py_slice hexdata ((n - 1) * 160) ((n - 1) * 160 + 160)) (height + n - 1)
       = Ok tt /\
       bfh hexdata = Ok data /\ verify_proven_chunk height data = Ok tt).
Proof.
  split; [apply validate_checkpoint_result_ok|].
  split; [apply validate_checkpoint_result_raises|].
  split.
  - intros Hcp h assert_mode must_provide_proof w fetched proof_was_provided w' Hh.
    by apply get_block_header_validated.
  - intros Hcp height count w res proof_was_provided w' Htop.
    by apply request_headers_validated.
Qed.

(** *** request_chunk *)

Lemma request_chunk_total height tip can_return_early :
  total (request_chunk height tip can_return_early).
Proof.
  pose proof request_headers_total. unfold request_chunk, bound_chain. totality.
Qed.

Lemma fetch_requested index (c : M world (response * bool)) w w1 :
  preserves same_requested c ->
  final_state
    (try_finally
       (modify (set_requested_chunks (fun r => {[index]} ∪ r));; c)
       (set_requested_chunks (fun r => r ∖ {[index]})) w) = Some w1 ->
  requested_chunks w1 = requested_chunks w ∖ {[index]}.
Proof.
  intros Hc. unfold try_finally, bind at 1, modify at 1.
  destruct (c _) as [a w2|e w2|] eqn:Hrun; [| |done];
    intros [= <-]; simpl;
    rewrite (Hc _ w2 ltac:(by rewrite Hrun)); simpl;
    apply set_eq; intros x;
    rewrite !elem_of_difference, elem_of_union; tauto.
Qed.

Lemma request_chunk_requested height tip can_return_early w w' :
  ~ (can_return_early = true /\ height / 2016 ∈ requested_chunks w) ->
  final_state (request_chunk height tip can_return_early w) = Some w' ->
  requested_chunks w' = requested_chunks w ∖ {[height / 2016]}.
Proof.
  intros Hno. unfold request_chunk. unfold bind at 1, gets at 1.
  assert (can_return_early && bool_decide (height / 2016 ∈ requested_chunks w)
          = false) as ->.
  { destruct can_return_early; simpl; [|done].
    rewrite bool_decide_eq_false_2; [done|]. intros ?. by apply Hno. }
  assert (forall height count,
            preserves same_requested (request_headers height count)) as Hreq.
  { intros ??. eapply preserves_weaken;
      [apply only_wire_same_requested|apply request_headers_only_wire]. }
  intros [[e Hrun]|([res proof_was_provided] & w1 & Hrun & Hrest)]%final_state_bind.
  - eapply fetch_requested; [apply Hreq|]. by rewrite Hrun.
  - rewrite <- (fetch_requested _ _ w w1 (Hreq _ _) ltac:(by rewrite Hrun)).
    revert Hrest. generalize w1 w'.
    change (preserves same_requested
              (let* chain := bound_chain in
               let* hexdata := lift_result (get_item r_hex res) in
               let* st := gets store in
               let '(conn, st') :=
                 chain_connect_chunk st chain (height / 2016) hexdata
                   proof_was_provided in
               modify (set_store st');;
               if negb conn then ret (Some (conn, 0))
               else
                 let* count := lift_result (get_item r_count res) in
                 ret (Some (conn, count)))).
    unfold bound_chain. frame.
Qed.

Lemma request_chunk_pair height tip can_return_early w v w' :
  ~ (can_return_early = true /\ height / 2016 ∈ requested_chunks w) ->
  request_chunk height tip can_return_early w = Returns v w' ->
  exists conn n, v = Some (conn, n) /\ (conn = false -> n = 0).
Proof.
  intros Hno. unfold request_chunk. unfold bind at 1, gets at 1.
  assert (can_return_early && bool_decide (height / 2016 ∈ requested_chunks w)
          = false) as ->.
  { destruct can_return_early; simpl; [|done].
    rewrite bool_decide_eq_false_2; [done|]. intros ?. by apply Hno. }
  intros ([res proof_was_provided] & w1 & _ & Hrest)%bind_inv_returns.
  apply bind_inv_returns in Hrest as (chain & w2 & _ & Hrest).
  apply bind_inv_returns in Hrest as (hexdata & w3 & _ & Hrest).
  apply bind_inv_returns in Hrest as (st & w4 & _ & Hrest).
  destruct (chain_connect_chunk _ _ _ _ _) as [conn st'].
  apply bind_inv_returns in Hrest as ([] & w5 & _ & Hrest).
  destruct conn; simpl in Hrest.
  - apply bind_inv_returns in Hrest as (count & w6 & _ & [= <- <-]).
    exists true, count. done.
  - injection Hrest as <- <-. exists false, 0. done.
Qed.

(** C9: [request_chunk(height, tip, can_return_early=True)] with
    [index = height // 2016] already in [_requested_chunks] returns
    [None], sends nothing and leaves the set (and the whole state) as it
    was.  Every other call ends (it returns or raises) with [index] out
    of [_requested_chunks], also when the header request raised; and
    when it returns, it returns a pair [(conn, count)], which is
    [(conn, 0)] when [connect_chunk] failed. *)
Theorem request_chunk_early_or_pair height tip can_return_early w :
  let index := height / 2016 in
  (can_return_early = true -> index ∈ requested_chunks w ->
   request_chunk height tip can_return_early w = Returns None w) /\
  (~ (can_return_early = true /\ index ∈ requested_chunks w) ->
   (exists w', final_state (request_chunk height tip can_return_early w) = Some w') /\
   (forall w',
      final_state (request_chunk height tip can_return_early w) = Some w' ->
      requested_chunks w' = requested_chunks w ∖ {[index]}) /\
   (forall v w',
      request_chunk height tip can_return_early w = Returns v w' ->
      exists conn n, v = Some (conn, n) /\ (conn = false -> n = 0))).
Proof.
  intros index. split.
  - intros -> Hin. unfold request_chunk, bind, gets. simpl.
    by rewrite bool_decide_eq_true_2.
  - intros Hno. split; [|split].
    + pose proof (request_chunk_total height tip can_return_early w) as Htot.
      destruct (request_chunk _ _ _ w); [eauto..|done].
    + intros w'. by apply request_chunk_requested.
    + intros v w'. by apply request_chunk_pair.
Qed.

(** *** Nothing but [run_fetch_blocks] writes the tip *)

Lemma preserves_out_of_fuel {A} (R : world -> world -> Prop) :
  preserves R (out_of_fuel (A:=A)).
Proof. by intros w w'. Qed.

Lemma get_block_header_same_tip height assert_mode must_provide_proof :
  preserves same_tip (get_block_header height assert_mode must_provide_proof).
Proof.
  eapply preserves_weaken;
    [apply only_wire_same_tip|apply get_block_header_only_wire].
Qed.

Lemma request_headers_same_tip height count :
  preserves same_tip (request_headers height count).
Proof.
  eapply preserves_weaken;
    [apply only_wire_same_tip|apply request_headers_only_wire].
Qed.

Hint Resolve get_block_header_same_tip request_headers_same_tip
  preserves_out_of_fuel : frame.

Lemma check_same_tip header : preserves same_tip (check header).
Proof. unfold check. frame. Qed.

Lemma connect_same_tip header proof height :
  preserves same_tip (connect header proof height).
Proof. unfold connect. frame. Qed.

Lemma rebind_same_tip chain : preserves same_tip (rebind chain).
Proof. unfold rebind. frame. Qed.

Hint Resolve check_same_tip connect_same_tip rebind_same_tip : frame.

Lemma assert_not_check_same_tip header :
  preserves same_tip (_assert_header_does_not_check_against_any_chain header).
Proof. unfold _assert_header_does_not_check_against_any_chain. frame. Qed.

Lemma bound_chain_same_tip : preserves same_tip bound_chain.
Proof. unfold bound_chain. frame. Qed.

Lemma trigger_callback_same_tip name : preserves same_tip (trigger_callback name).
Proof. unfold trigger_callback. frame. Qed.

Hint Resolve assert_not_check_same_tip bound_chain_same_tip
  trigger_callback_same_tip : frame.

Lemma request_chunk_same_tip height tip can_return_early :
  preserves same_tip (request_chunk height tip can_return_early).
Proof. unfold request_chunk. frame. Qed.

Lemma iterate_same_tip height : preserves same_tip (iterate height).
Proof. unfold iterate. frame. Qed.

Hint Resolve request_chunk_same_tip iterate_same_tip : frame.

Lemma backwards_loop_same_tip fuel : forall height bad bad_header,
  preserves same_tip (backwards_loop fuel height bad bad_header).
Proof. induction fuel as [|fuel IH]; intros; simpl; frame. Qed.

Hint Resolve backwards_loop_same_tip : frame.

Lemma search_headers_backwards_same_tip fuel height header :
  preserves same_tip (_search_headers_backwards fuel height header).
Proof. unfold _search_headers_backwards. frame. Qed.

Lemma binary_loop_same_tip fuel : forall good bad bad_header,
  preserves same_tip (binary_loop fuel good bad bad_header).
Proof. induction fuel as [|fuel IH]; intros; simpl; frame. Qed.

Hint Resolve search_headers_backwards_same_tip binary_loop_same_tip : frame.

Lemma search_headers_binary_same_tip fuel height bad bad_header chain :
  preserves same_tip (_search_headers_binary fuel height bad bad_header chain).
Proof. unfold _search_headers_binary. frame. Qed.

Lemma forkfun_same_tip c bad_header : preserves same_tip (forkfun c bad_header).
Proof. unfold forkfun. frame. Qed.

Hint Resolve search_headers_binary_same_tip forkfun_same_tip : frame.

Lemma resolve_same_tip good bad bad_header :
  preserves same_tip
    (_resolve_potential_chain_fork_given_forkpoint good bad bad_header).
Proof. unfold _resolve_potential_chain_fork_given_forkpoint. frame. Qed.

Hint Resolve resolve_same_tip : frame.

Lemma step_same_tip fuel height header : preserves same_tip (step fuel height header).
Proof. unfold step. frame. Qed.

Hint Resolve step_same_tip : frame.

Lemma sync_until_body_same_tip fuel last height next_height :
  preserves same_tip (sync_until_body fuel last height next_height).
Proof. unfold sync_until_body. frame. Qed.

Hint Resolve sync_until_body_same_tip : frame.

Lemma sync_until_loop_same_tip inner fuel : forall last height next_height,
  preserves same_tip (sync_until_loop inner fuel last height next_height).
Proof. induction fuel as [|fuel IH]; intros; simpl; frame. Qed.

Hint Resolve sync_until_loop_same_tip : frame.

Lemma sync_until_same_tip fuel height next_height :
  preserves same_tip (sync_until fuel height next_height).
Proof. unfold sync_until. frame. Qed.

Hint Resolve sync_until_same_tip : frame.

Lemma process_header_at_tip_same_tip fuel :
  preserves same_tip (_process_header_at_tip fuel).
Proof. unfold _process_header_at_tip. frame. Qed.

Lemma mark_ready_same_tip : preserves same_tip mark_ready.
Proof. unfold mark_ready. frame. Qed.

(** *** The tip watcher *)

Lemma on_tip_unfold fuel raw w :
  on_tip fuel raw w =
    match (b ← bfh (raw_hex raw); deserialize_header b (raw_height raw)) with
    | Raise e => Raises e w
    | Ok header =>
        let w1 := set_tip (raw_height raw) header w in
        if raw_height raw <? max_checkpoint
        then Raises (GracefulDisconnect "server tip below max checkpoint") w1
        else (mark_ready;; _process_header_at_tip fuel;;
              trigger_callback "network_updated") w1
    end.
Proof.
  unfold on_tip. unfold bind at 1, lift_result.
  destruct (b ← bfh (raw_hex raw); deserialize_header b (raw_height raw));
    [|done].
  unfold bind at 1, modify at 1. unfold bind at 1, gets at 1. simpl.
  by destruct (raw_height raw <? max_checkpoint).
Qed.

Lemma on_tip_returns fuel raw w w' :
  on_tip fuel raw w = Returns tt w' ->
  tip w' = raw_height raw /\ max_checkpoint <= tip w'.
Proof.
  rewrite on_tip_unfold.
  destruct (b ← bfh (raw_hex raw); deserialize_header b (raw_height raw))
    as [header|]; [|done].
  simpl. destruct (Z.ltb_spec (raw_height raw) max_checkpoint); [done|].
  intros Hrun.
  assert (preserves same_tip
            (mark_ready;; _process_header_at_tip fuel;;
             trigger_callback "network_updated")) as Hpres.
  { pose proof mark_ready_same_tip. pose proof process_header_at_tip_same_tip.
    frame. }
  specialize (Hpres (set_tip (raw_height raw) header w) w').
  rewrite Hrun in Hpres. specialize (Hpres eq_refl).
  unfold same_tip in Hpres. simpl in Hpres. lia.
Qed.

(** C5, as amended: when a tip with [tip_height < max_checkpoint()] is
    delivered, the interface raises, and does so before marking itself
    ready: it raises
    [GracefulDisconnect('server tip below max checkpoint')], with the tip
    written, when the header of the tip deserializes; when it does not,
    it raises the error of [bfh] or [deserialize_header], with nothing
    written.  So whenever handling a tip returns, and whenever
    [run_fetch_blocks] has gone through the tips delivered so far,
    [tip >= max_checkpoint()]. *)
Theorem tip_below_checkpoint_disconnects fuel raw w :
  (raw_height raw < max_checkpoint ->
   (exists e w', on_tip fuel raw w = Raises e w' /\ ready w' = ready w) /\
   (forall header,
      (b ← bfh (raw_hex raw); deserialize_header b (raw_height raw)) = Ok header ->
      on_tip fuel raw w
      = Raises (GracefulDisconnect "server tip below max checkpoint")
          (set_tip (raw_height raw) header w)) /\
   (forall e,
      (b ← bfh (raw_hex raw); deserialize_header b (raw_height raw)) = Raise e ->
      on_tip fuel raw w = Raises e w)) /\
  (forall w', on_tip fuel raw w = Returns tt w' ->
              tip w' = raw_height raw /\ max_checkpoint <= tip w') /\
  (forall items w',
     items <> [] ->
     run_fetch_blocks fuel items w = Returns tt w' ->
     max_checkpoint <= tip w').
Proof.
  split; [|split].
  - intros Hlow. rewrite on_tip_unfold.
    destruct (b ← bfh (raw_hex raw); deserialize_header b (raw_height raw))
      as [header|e].
    + simpl. destruct (Z.ltb_spec (raw_height raw) max_checkpoint); [|lia].
      split; [eauto|]. split; [by intros ? [= <-]|done].
    + split; [eauto|]. split; [done|by intros ? [= <-]].
  - apply on_tip_returns.
  - intros items. revert w. induction items as [|item items IH]; [done|].
    intros w w' _. simpl.
    intros ([] & w1 & Hitem & Hrest)%bind_inv_returns.
    destruct items as [|item' items'].
    + injection Hrest as <-. by apply on_tip_returns in Hitem as [_ ?].
    + by apply (IH w1).
Qed.

(** *** Fork resolution *)

Lemma check_returns header w : exists chain, check header w = Returns chain w.
Proof. unfold check, gets. eauto. Qed.

Lemma assert_not_check_run header w :
  _assert_header_does_not_check_against_any_chain header w
  = if checks header w then Raises (Exception "bad_header must not check!") w
    else Returns tt w.
Proof.
  unfold _assert_header_does_not_check_against_any_chain, checks, bind, check, gets.
  by destruct (truthy _).
Qed.

Lemma forkfun_real c bad_header w b st :
  mock bad_header = None ->
  chain_fork (store w) c bad_header = Ok (b, st) ->
  forkfun c bad_header w = Returns b (set_store st w).
Proof.
  intros Hmock Hfork. unfold forkfun. rewrite Hmock.
  unfold bind, gets, lift_result. by rewrite Hfork.
Qed.

Lemma resolve_run good bad bad_header w c :
  good + 1 = bad -> bad = block_height bad_header ->
  checks bad_header w = false -> blockchain w = Some c ->
  good <= chain_height (store w) c ->
  _resolve_potential_chain_fork_given_forkpoint good bad bad_header w
  = if chain_height (store w) c =? good then Returns (no_fork, good + 1) w
    else (let* b := forkfun c bad_header in
          modify (set_blockchain (Some b));;
          assert (forkpoint b =? bad) "";;
          ret (fork, bad + 1)) w.
Proof.
  intros Hgood Hbad Hcheck Hbound Hbh.
  unfold _resolve_potential_chain_fork_given_forkpoint.
  rewrite (proj2 (Z.eqb_eq _ _) Hgood), (proj2 (Z.eqb_eq _ _) Hbad).
  unfold assert at 1 2. unfold bind at 1 2 3. unfold ret at 1 2.
  rewrite assert_not_check_run, Hcheck.
  unfold bind at 1, bound_chain, bind at 1, gets at 1. rewrite Hbound.
  unfold ret at 1. unfold bind at 1, gets at 1.
  rewrite (proj2 (Z.leb_le _ _) Hbh).
  unfold bind at 1, assert at 1, ret at 1.
  by destruct (chain_height (store w) c =? good).
Qed.

(** C3: under its preconditions ([good + 1 == bad], [bad] is the height
    of [bad_header], [bad_header] checks against no chain),
    [_resolve_potential_chain_fork_given_forkpoint] returns
    [('no_fork', good + 1)] when the height of the bound chain is [good].
    When that height is above [good] it calls [fork(bad_header)], binds
    the interface to the chain returned, whose forkpoint is [bad], and
    returns [('fork', bad + 1)]; it returns ['fork'] in no other way. *)
Theorem resolve_fork_given_forkpoint good bad bad_header w c :
  good + 1 = bad -> bad = block_height bad_header ->
  checks bad_header w = false -> blockchain w = Some c ->
  let bh := chain_height (store w) c in
  (bh = good ->
   _resolve_potential_chain_fork_given_forkpoint good bad bad_header w
   = Returns (no_fork, good + 1) w) /\
  (good < bh ->
   (forall b w1,
      forkfun c bad_header w = Returns b w1 -> forkpoint b = bad ->
      _resolve_potential_chain_fork_given_forkpoint good bad bad_header w
      = Returns (fork, bad + 1) (set_blockchain (Some b) w1)) /\
   (forall b st,
      mock bad_header = None ->
      chain_fork (store w) c bad_header = Ok (b, st) -> forkpoint b = bad ->
      _resolve_potential_chain_fork_given_forkpoint good bad bad_header w
      = Returns (fork, bad + 1) (set_blockchain (Some b) (set_store st w))) /\
   (forall next_height w',
      _resolve_potential_chain_fork_given_forkpoint good bad bad_header w
      = Returns (fork, next_height) w' ->
      next_height = bad + 1 /\
      exists b, blockchain w' = Some b /\ forkpoint b = bad)).
Proof.
  intros Hgood Hbad Hcheck Hbound bh.
  assert (forall b w1,
            good < bh ->
            forkfun c bad_header w = Returns b w1 -> forkpoint b = bad ->
            _resolve_potential_chain_fork_given_forkpoint good bad bad_header w
            = Returns (fork, bad + 1) (set_blockchain (Some b) w1)) as Hfork.
  { intros b w1 Hbh Hrun Hpoint.
    rewrite (resolve_run _ _ _ _ c) by (done || (fold bh; lia)).
    fold bh. destruct (Z.eqb_spec bh good); [lia|].
    unfold bind at 1. rewrite Hrun.
    unfold bind at 1, modify at 1. unfold bind at 1.
    by rewrite (proj2 (Z.eqb_eq _ _) Hpoint). }
  split; [|split; [|split]].
  - intros Hbh. rewrite (resolve_run _ _ _ _ c) by (done || (fold bh; lia)).
    fold bh. by rewrite (proj2 (Z.eqb_eq _ _) Hbh).
  - intros b w1. by apply Hfork.
  - intros b st Hmock Hrun. apply Hfork; [done|]. by apply forkfun_real.
  - intros next_height w'.
    rewrite (resolve_run _ _ _ _ c) by (done || (fold bh; lia)).
    fold bh. destruct (Z.eqb_spec bh good); [lia|].
    intros (b & w1 & Hrun & Hrest)%bind_inv_returns.
    unfold bind at 1, modify at 1 in Hrest. unfold bind at 1 in Hrest.
    destruct (Z.eqb_spec (forkpoint b) bad) as [Hpoint|]; [|done].
    injection Hrest as <- <-. split; [done|]. exists b. done.
Qed.

(** *** Backward probe *)

Lemma checks_store header w w' :
  store w' = store w -> checks header w' = checks header w.
Proof. intros Hst. unfold checks, check, gets. by rewrite Hst. Qed.

Lemma links_false header proof height w :
  links header proof height w = false -> checks header w = false.
Proof. unfold links. by intros [? _]%orb_false_iff. Qed.

Lemma iterate_run height w :
  iterate height w =
    match get_block_header (Z.max height max_checkpoint) "backward" false w with
    | Returns (header, proof) w' =>
        if links header proof (Z.max height max_checkpoint) w'
        then Returns (false, (Z.max height max_checkpoint, header, proof)) w'
        else if height <=? max_checkpoint
             then Raises (GracefulDisconnect
                            "server chain conflicts with checkpoints") w'
             else Returns (true, (Z.max height max_checkpoint, header, proof)) w'
    | Raises e w' => Raises e w'
    | OutOfFuel => OutOfFuel
    end.
Proof.
  unfold iterate.
  assert ((if height <=? max_checkpoint then max_checkpoint else height)
          = Z.max height max_checkpoint) as ->.
  { destruct (Z.leb_spec height max_checkpoint); lia. }
  unfold bind at 1.
  destruct (get_block_header _ _ _ w) as [[header proof] w'| |]; [|done..].
  unfold links, checks, bind, check, connect, gets.
  by destruct (truthy _ || truthy _), (height <=? max_checkpoint).
Qed.

Lemma backwards_loop_S fuel probe bad bad_header w :
  backwards_loop (S fuel) probe bad bad_header w =
    match get_block_header (Z.max probe max_checkpoint) "backward" false w with
    | Returns (header, proof) w' =>
        if links header proof (Z.max probe max_checkpoint) w'
        then Returns (Z.max probe max_checkpoint, header, bad, bad_header, proof) w'
        else if probe <=? max_checkpoint
             then Raises (GracefulDisconnect
                            "server chain conflicts with checkpoints") w'
             else backwards_loop fuel
                    (tip w' - 2 * (tip w' - Z.max probe max_checkpoint))
                    (Z.max probe max_checkpoint) header w'
    | Raises e w' => Raises e w'
    | OutOfFuel => OutOfFuel
    end.
Proof.
  simpl. unfold bind at 1. rewrite iterate_run.
  destruct (get_block_header _ _ _ w) as [[header proof] w'| |]; [|done..].
  by destruct (links _ _ _ _), (probe <=? max_checkpoint).
Qed.

Lemma backwards_loop_spec : forall (n : nat) probe bad bad_header w,
  probe < tip w ->
  probe - max_checkpoint <= Z.of_nat n ->
  checks bad_header w = false ->
  exists out,
    backward_probe w probe bad bad_header out /\
    (forall fuel, (n < fuel)%nat ->
                  backwards_loop fuel probe bad bad_header w = out) /\
    match out with
    | Returns (_, _, _, bad_header', _) w' =>
        store w' = store w /\ checks bad_header' w' = false
    | Raises _ _ => True
    | OutOfFuel => False
    end.
Proof.
  induction n as [|n IH]; intros probe bad bad_header w Htip Hn Hbad;
    pose proof (get_block_header_total
                  (Z.max probe max_checkpoint) "backward" false w) as Htotal;
    pose proof (get_block_header_only_wire
                  (Z.max probe max_checkpoint) "backward" false w) as Hwire;
    destruct (get_block_header (Z.max probe max_checkpoint) "backward" false w)
      as [[header proof] w'|e w'|] eqn:Hfetch;
    try done;
    try (exists (Raises e w'); split; [by apply probe_fetch_raises|];
         split; [|done]; intros [|fuel] Hfuel; [lia|];
         by rewrite backwards_loop_S, Hfetch).
  - (* the probe is at or below the checkpoint *)
    assert (Z.max probe max_checkpoint = max_checkpoint) as Hmax by lia.
    destruct (Hwire w' eq_refl) as (_ & _ & _ & _ & _ & Hstore & _).
    destruct (links header proof max_checkpoint w') eqn:Hlinks.
    + eexists. split; [|split].
      * apply probe_clamped_links; [lia| |done]. by rewrite <- Hmax.
      * intros [|fuel] Hfuel; [lia|].
        by rewrite backwards_loop_S, Hfetch, Hmax, Hlinks.
      * simpl. split; [done|]. by rewrite (checks_store _ _ _ Hstore).
    + eexists. split; [|split].
      * eapply probe_clamped_conflict; [lia| |done]. by rewrite <- Hmax.
      * intros [|fuel] Hfuel; [lia|].
        rewrite backwards_loop_S, Hfetch, Hmax, Hlinks.
        by destruct (Z.leb_spec probe max_checkpoint); [|lia].
      * done.
  - destruct (Hwire w' eq_refl) as (Htip' & _ & _ & _ & _ & Hstore & _).
    destruct (Z.leb_spec probe max_checkpoint) as [Hle|Hgt].
    + assert (Z.max probe max_checkpoint = max_checkpoint) as Hmax by lia.
      destruct (links header proof max_checkpoint w') eqn:Hlinks.
      * eexists. split; [|split].
        -- apply probe_clamped_links; [lia| |done]. by rewrite <- Hmax.
        -- intros [|fuel] Hfuel; [lia|].
           by rewrite backwards_loop_S, Hfetch, Hmax, Hlinks.
        -- simpl. split; [done|]. by rewrite (checks_store _ _ _ Hstore).
      * eexists. split; [|split].
        -- eapply probe_clamped_conflict; [lia| |done]. by rewrite <- Hmax.
        -- intros [|fuel] Hfuel; [lia|].
           rewrite backwards_loop_S, Hfetch, Hmax, Hlinks.
           by destruct (Z.leb_spec probe max_checkpoint); [|lia].
        -- done.
    + assert (Z.max probe max_checkpoint = probe) as Hmax by lia.
      rewrite Hmax in Hfetch.
      destruct (links header proof probe w') eqn:Hlinks.
      * eexists. split; [|split].
        -- apply probe_links; [lia|done..].
        -- intros [|fuel] Hfuel; [lia|].
           by rewrite backwards_loop_S, Hmax, Hfetch, Hlinks.
        -- simpl. split; [done|]. by rewrite (checks_store _ _ _ Hstore).
      * destruct (IH (tip w' - 2 * (tip w' - probe)) probe header w')
          as (out & Hspec & Hrun & Hout); [lia|lia| |].
        { by apply links_false in Hlinks. }
        exists out. split; [|split].
        -- eapply probe_retreats; [lia|done..].
        -- intros [|fuel] Hfuel; [lia|].
           rewrite backwards_loop_S, Hmax, Hfetch, Hlinks.
           destruct (Z.leb_spec probe max_checkpoint); [lia|].
           apply Hrun. lia.
        -- destruct out as [[[[[? ?] ?] ?] ?] w''| |]; [|done..].
           destruct Hout as [Hst ?]. split; [congruence|done].
Qed.

(** Whatever the fuel and the heights: a run that ends is a run of the
    probe. *)
Lemma backwards_loop_partial : forall (fuel : nat) probe bad bad_header w,
  checks bad_header w = false ->
  match backwards_loop fuel probe bad bad_header w with
  | OutOfFuel => True
  | Returns (height', header', bad', bad_header', proof') w' as out =>
      backward_probe w probe bad bad_header out /\
      store w' = store w /\ checks bad_header' w' = false
  | Raises _ _ as out => backward_probe w probe bad bad_header out
  end.
Proof.
  induction fuel as [|fuel IH]; intros probe bad bad_header w Hbad; [done|].
  rewrite backwards_loop_S.
  pose proof (get_block_header_only_wire
                (Z.max probe max_checkpoint) "backward" false w) as Hwire.
  destruct (get_block_header (Z.max probe max_checkpoint) "backward" false w)
    as [[header proof] w'|e w'|] eqn:Hfetch; [| |done].
  - destruct (Hwire w' eq_refl) as (_ & _ & _ & _ & _ & Hstore & _).
    destruct (Z.leb_spec probe max_checkpoint) as [Hle|Hgt].
    + assert (Z.max probe max_checkpoint = max_checkpoint) as Hmax by lia.
      rewrite Hmax in *.
      destruct (links header proof max_checkpoint w') eqn:Hlinks.
      * split; [by apply probe_clamped_links|].
        split; [done|]. by rewrite (checks_store _ _ _ Hstore).
      * by eapply probe_clamped_conflict.
    + assert (Z.max probe max_checkpoint = probe) as Hmax by lia.
      rewrite Hmax in *.
      destruct (links header proof probe w') eqn:Hlinks.
      * split; [by apply probe_links; [lia|..]|].
        split; [done|]. by rewrite (checks_store _ _ _ Hstore).
      * specialize (IH (tip w' - 2 * (tip w' - probe)) probe header w'
                      (links_false _ _ _ _ Hlinks)).
        destruct (backwards_loop fuel _ probe header w')
          as [[[[[? ?] ?] ?] ?] w''|e w''|]; [| |done].
        -- destruct IH as (Hspec & Hst & Hchk).
           split; [by eapply probe_retreats; [lia|..]|].
           split; [congruence|done].
        -- by eapply probe_retreats; [lia|..].
  - by apply probe_fetch_raises.
Qed.

Lemma foldr_max_spec (l : list Z) :
  let m := foldr Z.max 0 l in
  0 <= m /\ (forall x, x ∈ l -> x <= m) /\ (m = 0 \/ m ∈ l).
Proof.
  induction l as [|x l (Hpos & Hub & Hin)]; simpl.
  - split; [done|]. split; [by intros x ?%elem_of_nil|by left].
  - split; [lia|]. split.
    + intros y [->|Hy]%elem_of_cons; [lia|]. specialize (Hub y Hy). lia.
    + destruct (Z.max_spec x (foldr Z.max 0 l)) as [[_ ->]|[_ ->]].
      * destruct Hin as [->|Hin]; [by left|]. right. by apply elem_of_cons; right.
      * right. by apply elem_of_cons; left.
Qed.

Lemma first_probe_below header height w : first_probe header height w <= height - 1.
Proof. unfold first_probe. destruct (local_max header w); lia. Qed.

Lemma search_headers_backwards_run fuel h header w :
  checks header w = false ->
  _search_headers_backwards fuel h header w =
    match backwards_loop fuel (first_probe header h w) h header w with
    | Returns (height', header', bad', bad_header', proof') w' =>
        if checks bad_header' w'
        then Raises (Exception "bad_header must not check!") w'
        else Returns (height', header', bad', bad_header', proof') w'
    | Raises e w' => Raises e w'
    | OutOfFuel => OutOfFuel
    end.
Proof.
  intros Hcheck. unfold _search_headers_backwards. unfold bind at 1.
  rewrite assert_not_check_run, Hcheck.
  unfold bind at 1, gets at 1. unfold bind at 1.
  destruct (backwards_loop fuel _ h header w)
    as [[[[[height' header'] bad'] bad_header'] proof'] w'|e w'|]; [|done..].
  unfold bind at 1. rewrite assert_not_check_run.
  by destruct (checks bad_header' w').
Qed.


(** *** sync_until *)

(** The fallback after a chunk that did not connect: whatever [step]
    returns becomes the next [(last, height)], with no check against the
    pair the turn started from. *)
Lemma sync_until_body_fallback fuel last height next_height w n w1 last' height' w2 :
  height + 10 < next_height ->
  request_chunk height (Some next_height) false w = Returns (Some (false, n)) w1 ->
  max_checkpoint < height ->
  step fuel height None w1 = Returns (last', height') w2 ->
  sync_until_body fuel last height next_height w = Returns (Some last', height') w2.
Proof.
  intros Hfar Hchunk Hcp Hstep. unfold sync_until_body.
  destruct (Z.ltb_spec (height + 10) next_height); [|lia].
  unfold bind at 1. rewrite Hchunk. simpl.
  destruct (Z.leb_spec height max_checkpoint); [lia|].
  unfold bind at 1. by rewrite Hstep.
Qed.

(** More than 10 headers behind, the turn starts with a chunk request. *)
Lemma sync_until_body_requests_chunk fuel last height next_height w :
  next_height - height > 10 ->
  sync_until_body fuel last height next_height w =
    (let* chunk := request_chunk height (Some next_height) false in
     match chunk with
     | None => raise (TypeError "cannot unpack non-iterable NoneType object")
     | Some (could_connect, num_headers) =>
         if negb could_connect
         then
           if height <=? max_checkpoint
           then raise (GracefulDisconnect
                         "server chain conflicts with checkpoints or genesis")
           else
             let* (last, height) := step fuel height None in
             ret (Some last, height)
         else
           trigger_callback "network_updated";;
           let height' := (height / 2016 * 2016) + num_headers in
           assert (height' <=? next_height + 1) "(height, self.tip)";;
           assert (negb (bool_decide ((last, height) = (Some catchup, height'))))
             "had to prevent infinite loop in interface.sync_until";;
           ret (Some catchup, height')
     end) w.
Proof.
  intros Hfar. unfold sync_until_body.
  by destruct (Z.ltb_spec (height + 10) next_height); [|lia].
Qed.

(** A turn returns a pair other than the one it started from, unless it
    took the fallback after a chunk that did not connect. *)
Lemma sync_until_body_guarded fuel last height next_height w last' height' w' :
  sync_until_body fuel last height next_height w = Returns (last', height') w' ->
  (last', height') <> (last, height)
  \/ (height + 10 < next_height /\ max_checkpoint < height /\
      exists n w1, request_chunk height (Some next_height) false w
                   = Returns (Some (false, n)) w1).
Proof.
  unfold sync_until_body.
  destruct (Z.ltb_spec (height + 10) next_height) as [Hfar|Hnear].
  - intros ([[could_connect n]|] & w1 & Hchunk & Hrest)%bind_inv_returns; [|done].
    destruct could_connect; simpl in Hrest.
    + apply bind_inv_returns in Hrest as ([] & w2 & _ & Hrest).
      apply bind_inv_returns in Hrest as ([] & w3 & _ & Hrest).
      apply bind_inv_returns in Hrest as ([] & w4 & Hassert & Hrest).
      injection Hrest as <- <- <-. left.
      unfold assert in Hassert.
      destruct (bool_decide _) eqn:Hsame; [done|].
      apply bool_decide_eq_false in Hsame. congruence.
    + destruct (Z.leb_spec height max_checkpoint); [done|].
      right. eauto.
  - intros ([last1 height1] & w1 & _ & Hrest)%bind_inv_returns.
    apply bind_inv_returns in Hrest as ([] & w2 & Hassert & Hrest).
    injection Hrest as <- <- <-. left.
    unfold assert in Hassert.
    destruct (bool_decide _) eqn:Hsame; [done|].
    apply bool_decide_eq_false in Hsame. congruence.
Qed.

(** A chunk that connected takes the height to
    [(height // 2016) * 2016 + num_headers], no further than
    [next_height + 1]. *)
Lemma sync_until_body_chunk_connected fuel last height next_height w n w1
    last' height' w' :
  height + 10 < next_height ->
  request_chunk height (Some next_height) false w = Returns (Some (true, n)) w1 ->
  sync_until_body fuel last height next_height w = Returns (last', height') w' ->
  last' = Some catchup /\ height' = height / 2016 * 2016 + n /\
  height' <= next_height + 1.
Proof.
  intros Hfar Hchunk. unfold sync_until_body.
  destruct (Z.ltb_spec (height + 10) next_height); [|lia].
  unfold bind at 1. rewrite Hchunk. simpl.
  intros ([] & w2 & _ & Hrest)%bind_inv_returns.
  apply bind_inv_returns in Hrest as ([] & w3 & Hassert & Hrest).
  apply bind_inv_returns in Hrest as ([] & w4 & _ & Hrest).
  injection Hrest as <- <- <-. unfold assert in Hassert.
  destruct (Z.leb_spec (height / 2016 * 2016 + n) (next_height + 1)); done.
Qed.

End Interface.

(** *** Cases run in the small world *)

Lemma stalling_turn inner last th rq rd mc wr cb :
  sync_until_body (H:=Toy.stalling_server) (S inner) last 50 100
    (mkWorld (H:=Toy.stalling_server) 100 th (Some 0) rq rd mc wr 49 cb)
  = Returns (Some catchup, 50)
      (mkWorld (H:=Toy.stalling_server) 100 th (Some 0) (({[0]} ∪ rq) ∖ {[0]}) rd
         (mc + 1 + 1 + 1)
         (((wr ++ [BlockHeaders 0 101 0]) ++ [BlockHeader 50 0])
            ++ [BlockHeader 49 0])
         49 cb).
Proof. reflexivity. Qed.

Lemma stalling_loop inner fuel : forall last th rq rd mc wr cb,
  sync_until_loop (H:=Toy.stalling_server) (S inner) fuel last 50 100
    (mkWorld (H:=Toy.stalling_server) 100 th (Some 0) rq rd mc wr 49 cb)
  = OutOfFuel.
Proof.
  induction fuel as [|fuel IH]; intros last th rq rd mc wr cb.
  - simpl. by rewrite orb_true_r.
  - change (sync_until_loop (S inner) (S fuel) last 50 100)
      with (if bool_decide (last = None) || (50 <=? 100)
            then (let* (last, height) :=
                    sync_until_body (H:=Toy.stalling_server) (S inner) last 50 100 in
                  sync_until_loop (S inner) fuel last height 100)
            else ret (last, 50)).
    rewrite orb_true_r. unfold bind. rewrite stalling_turn. apply IH.
Qed.

(** The same turn with headers that carry the test hooks. *)
Lemma mocking_turn inner last th rq rd mc wr st cb :
  sync_until_body (H:=Toy.mocking_server) (S inner) last 50 100
    (mkWorld (H:=Toy.mocking_server) 100 th (Some 0) rq rd mc wr st cb)
  = Returns (Some catchup, 50)
      (mkWorld (H:=Toy.mocking_server) 100 th (Some 0) (({[0]} ∪ rq) ∖ {[0]}) rd
         (mc + 1 + 1 + 1)
         (((wr ++ [BlockHeaders 0 101 0]) ++ [BlockHeader 50 0])
            ++ [BlockHeader 49 0])
         st cb).
Proof. reflexivity. Qed.

(** C4, the code at the failing input: with the tip at 100 and the bound
    chain at height 49, against a server whose chunk does not connect and
    whose header 50 neither checks nor connects while its header 49
    connects, a turn of the loop of [sync_until] that starts from
    [('catchup', 50)] ends at [('catchup', 50)] again with no assertion
    raised, and [sync_until(50, 100)] never returns, whatever the fuel. *)
Theorem sync_until_repeats_pair :
  let w := Toy.world_at (H:=Toy.stalling_server) 100 (Some 0) 49 in
  (exists w',
     sync_until_body (H:=Toy.stalling_server) 1 (Some catchup) 50 100 w
     = Returns (Some catchup, 50) w') /\
  forall fuel, sync_until (H:=Toy.stalling_server) fuel 50 (Some 100) w = OutOfFuel.
Proof.
  intros w. split.
  - eexists. apply stalling_turn.
  - intros [|fuel]; [reflexivity|].
    unfold sync_until, bind, ret. apply stalling_loop.
Qed.


(** The bound chain is at height 7, above [good = 4]: a fork at 5. *)
Lemma resolve_fork_given_forkpoint_witness :
  let w := Toy.world_at (H:=Toy.stalling_server) 100 (Some 0) 7 in
  let bad_header := Toy.mkToy 5 false true false in
  _resolve_potential_chain_fork_given_forkpoint (H:=Toy.stalling_server)
    4 5 bad_header w
  = Returns (fork, 5 + 1)
      (set_blockchain (H:=Toy.stalling_server) (Some 5)
         (set_store (H:=Toy.stalling_server) 7 w)).
Proof.
  intros w bad_header.
  refine (proj1 (proj2 (proj2 (resolve_fork_given_forkpoint
                                 (H:=Toy.stalling_server) 4 5 bad_header w 0
                                 eq_refl eq_refl eq_refl eq_refl) _))
            5 7 eq_refl eq_refl eq_refl).
  simpl. lia.
Defined.

(** A tip at height 3 with the checkpoint at 5. *)
Lemma tip_below_checkpoint_disconnects_witness :
  let w := Toy.world_at (H:=Toy.proving_server) 0 None 0 in
  on_tip (H:=Toy.proving_server) 1 (mkRaw 3 "") w
  = Raises (GracefulDisconnect "server tip below max checkpoint")
      (set_tip (H:=Toy.proving_server) 3 (Toy.mkToy 3 false false false) w).
Proof.
  intros w.
  refine (proj1 (proj2 (proj1 (tip_below_checkpoint_disconnects
                                 (H:=Toy.proving_server) 1 (mkRaw 3 "") w) _))
            (Toy.mkToy 3 false false false) eq_refl).
  simpl. lia.
Defined.

(** C5 as stated fails for a tip whose header does not deserialize: the
    hex is read before the height is compared with the checkpoint, and
    the [ValueError] of [bfh] is no graceful disconnect. *)
Lemma tip_undecodable_counterexample :
  let w := Toy.world_at (H:=Toy.hex_checking) 0 None 0 in
  3 < max_checkpoint (Collaborators:=Toy.hex_checking) /\
  on_tip (H:=Toy.hex_checking) 1 (mkRaw 3 "zz") w
  = Raises (ValueError "non-hexadecimal number found in fromhex() arg") w /\
  is_graceful (ValueError "non-hexadecimal number found in fromhex() arg")
  = false.
Proof. intros w. split; [done|]. split; reflexivity. Qed.

(** Chunk 0 is being fetched: a second request for it returns early. *)
Lemma request_chunk_early_or_pair_witness :
  let w := set_requested_chunks (H:=Toy.stalling_server) (fun _ => {[0]})
             (Toy.world_at (H:=Toy.stalling_server) 100 (Some 0) 49) in
  request_chunk (H:=Toy.stalling_server) 50 (Some 100) true w = Returns None w.
Proof.
  intros w.
  refine (proj1 (request_chunk_early_or_pair (H:=Toy.stalling_server)
                   50 (Some 100) true w) eq_refl _).
  apply elem_of_singleton. reflexivity.
Defined.

(** With the checkpoint at 5, the header at height 3 comes with a proof. *)
Lemma checkpoint_validation_witness :
  let w := Toy.world_at (H:=Toy.proving_server) 9 None 0 in
  get_block_header (H:=Toy.proving_server) 3 "catchup" false w
  = Returns (Toy.mkToy 3 false false false, true) (on_wire (BlockHeader 3 5) w) /\
  exists d root branch hexheader,
    server (Collaborators:=Toy.proving_server) (msg_counter w + 1) (BlockHeader 3 5)
    = Ok (RespDict d) /\
    r_root d = Some root /\ r_branch d = Some branch /\
    r_header d = Some hexheader /\
    validate_checkpoint_result (H:=Toy.proving_server) root branch hexheader 3
    = Ok tt /\
    (b ← bfh (Collaborators:=Toy.proving_server) hexheader;
     deserialize_header (Collaborators:=Toy.proving_server) b 3)
    = Ok (Toy.mkToy 3 false false false).
Proof.
  intros w. split; [reflexivity|].
  refine (proj2 (proj1 (proj2 (proj2 (checkpoint_validation
                                        (H:=Toy.proving_server) "" [] "" 0)))
                   _ 3 "catchup" false w (Toy.mkToy 3 false false false) true
                   (on_wire (BlockHeader 3 5) w) _ _)).
  - discriminate.
  - simpl. lia.
  - reflexivity.
Defined.

(** C1 as stated fails in three ways.  Where [max_checkpoint()] is 0 the
    header at height 0 is at the checkpoint height: [get_block_header]
    asks for it with [cp_height = 0], that is without a proof, and returns
    the bare header the server sent, which no root and branch would
    validate.  With the checkpoint at 5, [request_headers(0, 10)] asks
    beyond the checkpoint and so without a proof; the server sends three
    headers, and the chunk, whose last header is at height 2, is returned
    unvalidated.  And a tip at height 5, the checkpoint height, comes with
    the subscription and not by a request: [step] connects and saves it
    with nothing sent to the server, so with no proof at all. *)
Lemma checkpoint_unvalidated_counterexample :
  (let w := Toy.world_at (H:=Toy.no_checkpoint) 0 None 0 in
   0 <= max_checkpoint (Collaborators:=Toy.no_checkpoint) /\
   get_block_header (H:=Toy.no_checkpoint) 0 "catchup" false w
   = Returns (Toy.mkToy 0 false false false, false) (on_wire (BlockHeader 0 0) w) /\
   forall root branch,
     validate_checkpoint_result (H:=Toy.no_checkpoint) root branch Toy.zero_header 0
     <> Ok tt) /\
  (let w := Toy.world_at (H:=Toy.short_chunk_server) 0 None 0 in
   let hexdata := (Toy.zero_header +:+ Toy.zero_header +:+ Toy.zero_header)%string in
   let res := RespDict (mkRdict None None None (Some hexdata) (Some 3)) in
   max_checkpoint (Collaborators:=Toy.short_chunk_server) = 5 /\
   request_headers (H:=Toy.short_chunk_server) 0 10 w
   = Returns (res, false) (on_wire (BlockHeaders 0 10 0) w) /\
   0 + Z.of_nat (String.length hexdata) / 160 - 1 = 2) /\
  (let w := Toy.world_at (H:=Toy.proving_server) 0 None 0 in
   let header := Toy.mkToy 5 false true false in
   max_checkpoint (Collaborators:=Toy.proving_server) = 5 /\
   exists w',
     on_tip (H:=Toy.proving_server) 1 (mkRaw 5 "C") w = Returns tt w' /\
     tip w' = 5 /\ tip_header w' = Some header /\
     blockchain w' = Some 0 /\
     store w' = chain_save_header (Collaborators:=Toy.proving_server)
                  (store w) 0 header /\
     wire w' = []).
Proof.
  split; [|split].
  - intros w. split; [done|]. split; [reflexivity|].
    intros root branch. unfold validate_checkpoint_result.
    change (bfh (Collaborators:=Toy.no_checkpoint))
      with (fun s : string => Ok (list_ascii_of_string s)).
    change (root_from_proof (Collaborators:=Toy.no_checkpoint))
      with (fun (hash : bytes) (_ : list bytes) (_ : Z) => Ok hash).
    change (sha256d (Collaborators:=Toy.no_checkpoint)) with (fun b : bytes => b).
    unfold mbind, result_bind, rbind.
    destruct (bytes_eqb _ _); cbv beta iota; [|done].
    destruct (map_result _ branch); [|done].
    by destruct (negb _) eqn:Hsame; [|vm_compute in Hsame].
  - intros w hexdata res. split; [reflexivity|]. split; vm_compute; reflexivity.
  - intros w header. split; [reflexivity|].
    eexists. split; [vm_compute; reflexivity|]. repeat split.
Qed.

End IfaceProofs.

(** * More properties *)

(** ** Hostnames *)

Module HostnameProofs.
Import Hostname.

Lemma startswith_iff s prefix :
  startswith s prefix = true <-> exists rest, s = prefix +:+ rest.
Proof.
  revert s. induction prefix as [|p prefix IH]; intros s; simpl.
  - split; [by exists s|done].
  - destruct s as [|c s].
    + split; [done|]. by intros [rest [=]].
    + rewrite andb_true_iff, Ascii.eqb_eq, IH. split.
      * intros [-> [rest ->]]. by exists rest.
      * intros [rest [= -> ->]]. eauto.
Qed.

Lemma endswith_iff s suffix :
  endswith s suffix = true <-> exists front, s = front +:+ suffix.
Proof.
  induction s as [|c s IH]; cbn [endswith].
  - rewrite orb_false_r, String.eqb_eq. split.
    + intros <-. by exists ""%string.
    + intros [[|??] Hf]; [done|discriminate Hf].
  - rewrite orb_true_iff, String.eqb_eq, IH. split.
    + intros [<-|[front ->]]; [by exists ""%string|by exists (String c front)].
    + intros [[|c' front] Hf]; [by left|].
      injection Hf as -> ->. right. eauto.
Qed.

(** X1: [_match_hostname(name, val)] holds exactly when [val] is [name],
    or [val] is ["*." + rest] and [name] ends with ["." + rest]: the
    wildcard stands for anything in front of the dot, the empty string and
    several labels included. *)
Theorem match_hostname_iff name val :
  _match_hostname name val = true <->
  val = name \/
  exists front rest,
    val = ("*." +:+ rest)%string /\ name = (front +:+ "." +:+ rest)%string.
Proof.
  unfold _match_hostname. destruct (String.eqb_spec val name) as [->|Hne].
  - split; [by left|done].
  - rewrite andb_true_iff, startswith_iff, endswith_iff. split.
    + intros [[rest ->] [front ->]]. right. by exists front, rest.
    + intros [?|(front & rest & -> & ->)]; [done|]. split; [by exists rest|].
      by exists front.
Qed.

End HostnameProofs.

(** ** Server address codec, the other way round *)

Module ServerAddrMore.
Import PyStr PyStrMore ServerAddr ServerAddrProofs.

Lemma rsplit_last_contains sep s :
  rsplit_last sep s = None -> contains sep s = false.
Proof.
  induction s as [|c s IH]; simpl; [done|].
  destruct (rsplit_last sep s) as [[a b]|]; [done|].
  destruct (c =? sep); [done|]. intros _. by rewrite IH.
Qed.

Lemma rsplit_last_some sep s a b :
  rsplit_last sep s = Some (a, b) ->
  s = a ++ sep :: b /\ contains sep b = false.
Proof.
  revert a. induction s as [|c s IH]; intros a; simpl; [done|].
  destruct (rsplit_last sep s) as [[a' b']|] eqn:Hs.
  - intros [= <- <-]. by destruct (IH _ eq_refl) as [-> Hb].
  - destruct (Z.eqb_spec c sep) as [->|]; [|done].
    intros [= <- <-]. split; [done|]. by apply rsplit_last_contains.
Qed.

Lemma count_char_app c a b :
  count_char c (a ++ b) = (count_char c a + count_char c b)%nat.
Proof.
  induction a as [|x a IH]; simpl; [done|]. rewrite IH. lia.
Qed.

Lemma count_char_contains c s :
  contains c s = false -> count_char c s = O.
Proof.
  induction s as [|x s IH]; simpl; [done|].
  intros [-> Hs]%orb_false_iff. by rewrite IH.
Qed.

Lemma rsplit_three s host port protocol :
  rsplit (ord ":") 2 s = [host; port; protocol] ->
  s = join (lit ":") [host; port; protocol] /\
  contains (ord ":") port = false /\ contains (ord ":") protocol = false.
Proof.
  unfold rsplit.
  destruct (rsplit_last (ord ":") s) as [[a b]|] eqn:Hs; [|done].
  destruct (rsplit_last (ord ":") a) as [[a' b']|] eqn:Ha; [|done].
  intros [= <- <- <-].
  apply rsplit_last_some in Hs as [-> Hb], Ha as [-> Hb'].
  split; [|done]. unfold join. change (lit ":") with [ord ":"].
  by rewrite <- app_assoc.
Qed.

Lemma rsplit_short s :
  (count_char (ord ":") s < 2)%nat ->
  forall host port protocol, rsplit (ord ":") 2 s <> [host; port; protocol].
Proof.
  intros Hc host port protocol Hs.
  apply rsplit_three in Hs as (-> & Hp & Hpr). revert Hc.
  unfold join. change (lit ":") with [ord ":"].
  rewrite !count_char_app. cbn [count_char]. rewrite Z.eqb_refl. lia.
Qed.

Section Int.
Context `{Runtime}.

(** X2: [deserialize_server] accepts exactly the strings
    [host:port:protocol] of a valid triple, and reading back what it returns
    with [serialize_server] gives the input string again.  The port and the
    protocol are what follows the last two colons, so a host may hold
    colons of its own. *)
Theorem deserialize_server_iff s host port protocol :
  deserialize_server s = Ok (host, port, protocol) <->
  serialize_server host (PortStr port) protocol = Ok s /\
  valid_triple host (PortStr port) protocol.
Proof.
  split.
  - unfold deserialize_server.
    destruct (rsplit (ord ":") 2 s) as [|h [|p [|pr [|??]]]] eqn:Hs; try done.
    apply rsplit_three in Hs as (-> & _ & _).
    destruct (decide (h = [])) as [|Hh];
      [by rewrite bool_decide_eq_true_2|].
    rewrite bool_decide_eq_false_2 by done.
    destruct (bool_decide (pr = lit "s") || bool_decide (pr = lit "t")) eqn:Hpr;
      [|done].
    destruct (int_of_str p) as [n|] eqn:Hp; [|done]. cbn [negb].
    destruct ((0 <? n) && (n <? 2 ^ 16)) eqn:Hn; [|done].
    intros [= <- <- <-]. split; [done|]. split; [done|]. split.
    + exists n. split; [done|]. apply andb_true_iff in Hn. lia.
    + apply orb_true_iff in Hpr as [?%bool_decide_eq_true|?%bool_decide_eq_true];
        auto.
  - intros [Hser (Hh & (n & Hp & Hn) & Hpr)]. simpl in Hp.
    unfold serialize_server, str_of_port in Hser. injection Hser as <-.
    rewrite (deserialize_server_fields _ host port protocol).
    + rewrite bool_decide_eq_false_2 by done.
      replace (bool_decide (protocol = lit "s") || bool_decide (protocol = lit "t"))
        with true by (by destruct Hpr as [-> | ->]).
      rewrite Hp. cbn [negb].
      replace ((0 <? n) && (n <? 2 ^ 16)) with true; [done|].
      symmetry. apply andb_true_iff. lia.
    + apply rsplit_join; [by eapply int_of_str_no_colon|].
      by destruct Hpr as [-> | ->].
Qed.

(** X3: a string with fewer than two colons is no server address:
    [deserialize_server] raises [ValueError] from the unpacking. *)
Theorem deserialize_server_needs_two_colons s :
  (count_char (ord ":") s < 2)%nat ->
  deserialize_server s =
    Raise (ValueError "not enough values to unpack (expected 3)").
Proof.
  intros Hc. pose proof (rsplit_short s Hc) as Hs. unfold deserialize_server.
  destruct (rsplit (ord ":") 2 s) as [|h [|p [|pr [|??]]]]; try done.
  by destruct (Hs h p pr).
Qed.

End Int.

Lemma deserialize_server_needs_two_colons_witness :
  deserialize_server (H:=ToyRuntime.runtime) (lit "example.org:50002") =
    Raise (ValueError "not enough values to unpack (expected 3)").
Proof.
  apply (deserialize_server_needs_two_colons (H:=ToyRuntime.runtime)
           (lit "example.org:50002")).
  vm_compute. lia.
Defined.

End ServerAddrMore.

(** ** The session over its life *)

Module SessionMore.
Import Session SessionProofs.

Section WithValues.
Context {V : Type}.
Variable repr : list V -> string.
Variable respond : Z -> string -> list V -> wire_outcome V.

Abbreviation key_of := (get_hashable_key_for_rpc_call repr).
Abbreviation subscribe := (subscribe repr respond).
Abbreviation handle_request := (handle_request (V:=V) repr).
Abbreviation run := (run repr respond).
Abbreviation after := (after repr respond).

Lemma unsnoc_some (args params : list V) result :
  unsnoc args = Some (params, result) -> args = params ++ [result].
Proof.
  revert params. induction args as [|x args IH]; intros params; [done|].
  simpl. destruct args as [|y args]; [by intros [= <- <-]|].
  destruct (unsnoc (y :: args)) as [[front z]|]; [|done].
  intros [= <- <-]. by rewrite (IH front eq_refl).
Qed.

(** X4: whatever [handle_request] is given, when it raises it has changed
    nothing: the cache, the subscriptions and the queues are as before.  It
    raises in two cases only, a notification without arguments
    ([IndexError]) and a notification nobody subscribed to; a message that
    is no notification is ignored. *)
Theorem handle_request_raises_unchanged request (s : @session V) :
  (forall e s', handle_request request s = Raises e s' ->
     s' = s /\
     exists method args,
       request = Notification method args /\
       (args = [] /\ e = IndexError "list index out of range" \/
        exists params result,
          args = params ++ [result] /\
          subscriptions s !! key_of method params = None /\
          e = Exception "unexpected request")) /\
  (forall method args, request = Request method args ->
     handle_request request s = Returns tt s) /\
  handle_request request s <> OutOfFuel.
Proof.
  destruct request as [method args|method args].
  - unfold Session.handle_request.
    destruct (unsnoc args) as [[params result]|] eqn:Hargs.
    + apply unsnoc_some in Hargs as ->. unfold bind, gets.
      destruct (subscriptions s !! key_of method params) as [qs|] eqn:Hqs.
      * unfold modify.
        destruct (put_all_spec qs (params ++ [result])
                    (set_cache (fun c => <[key_of method params := result]> c) s))
          as (s1 & -> & _).
        split; done.
      * split; [|done].
        intros e s' [= <- <-]. split; [done|].
        exists method, (params ++ [result]).
        split; [done|]. right. by exists params, result.
    + destruct args as [|x args].
      * split; [|done].
        intros e s' [= <- <-]. split; [done|].
        exists method, []. split; [done|]. by left.
      * exfalso. revert x Hargs. induction args as [|y args IH]; intros x; [done|].
        simpl. specialize (IH y). simpl in IH.
        destruct args as [|z args]; [done|].
        destruct (unsnoc (z :: args)) as [[??]|]; [done|]. by destruct IH.
  - repeat split; done.
Qed.

(** What every call keeps: the counter counts the requests sent, and a
    cached key has a subscription entry. *)
Lemma after_invariant c (s : @session V) :
  msg_counter s = Z.of_nat (length (wire s)) ->
  (forall key v, cache s !! key = Some v -> is_Some (subscriptions s !! key)) ->
  let s' := after c s in
  msg_counter s' = Z.of_nat (length (wire s')) /\
  (forall key v, cache s' !! key = Some v -> is_Some (subscriptions s' !! key)) /\
  (wire s' = wire s \/
   exists m p q, c = CallSubscribe m p q /\ cache s !! key_of m p = None /\
                 wire s' = wire s ++ [(m, p)]).
Proof.
  intros Hctr Hcache. destruct c as [m p q|q|r]; unfold Session.after, run_call.
  - assert (forall key v (c : gmap string V),
               (c = cache s \/ exists r, c = <[key_of m p := r]> (cache s)) ->
               c !! key = Some v ->
               is_Some (Session.registered repr m p q s !! key)) as Hreg.
    { intros key v c Hc Hkey. unfold Session.registered.
      destruct (decide (key_of m p = key)) as [<-|Hne].
      - rewrite lookup_insert_eq. eauto.
      - rewrite lookup_insert_ne by done.
        destruct Hc as [->|[r ->]]; [by eauto|].
        rewrite lookup_insert_ne in Hkey by done. eauto. }
    destruct (cache s !! key_of m p) as [v|] eqn:Hc.
    + rewrite (subscribe_cached repr respond _ _ _ _ _ Hc). simpl.
      split; [done|]. split; [|by left]. intros key v'. apply Hreg. by left.
    + rewrite (subscribe_uncached repr respond _ _ _ _ Hc).
      assert (msg_counter s + 1
              = Z.of_nat (length (wire s ++ [(m, p)]))) as Hctr'.
      { rewrite length_app. simpl. lia. }
      destruct (respond (msg_counter s + 1) m p) as [r| |e]; simpl;
        (split; [done|]); (split; [|right; by exists m, p, q]); intros key v'.
      * apply Hreg. right. by exists r.
      * apply Hreg. by left.
      * apply Hreg. by left.
  - simpl. split; [done|]. split; [|by left]. intros key v Hkey.
    rewrite lookup_fmap. apply fmap_is_Some. eauto.
  - destruct r as [method args|method args]; [|simpl; by eauto].
    unfold Session.handle_request.
    destruct (unsnoc args) as [[params result]|]; [|simpl; by eauto].
    unfold bind, gets.
    destruct (subscriptions s !! key_of method params) as [qs|] eqn:Hqs;
      [|simpl; by eauto].
    unfold modify.
    destruct (put_all_spec qs args
                (set_cache (fun c => <[key_of method params := result]> c) s))
      as (s1 & -> & Hsub & Hc & Hwire & Hcount & _).
    simpl. rewrite Hsub, Hc, Hwire, Hcount. simpl.
    split; [done|]. split; [|by left]. intros key v.
    destruct (decide (key_of method params = key)) as [<-|Hne].
    + intros _. eauto.
    + rewrite lookup_insert_ne by done. eauto.
Qed.

Lemma run_invariant calls : forall s : @session V,
  msg_counter s = Z.of_nat (length (wire s)) ->
  (forall key v, cache s !! key = Some v -> is_Some (subscriptions s !! key)) ->
  let s' := run calls s in
  msg_counter s' = Z.of_nat (length (wire s')) /\
  (forall key v, cache s' !! key = Some v -> is_Some (subscriptions s' !! key)) /\
  forall m p, In (m, p) (wire s') ->
    In (m, p) (wire s) \/ exists q, In (CallSubscribe m p q) calls.
Proof.
  induction calls as [|c calls IH]; intros s Hctr Hcache.
  - simpl. eauto.
  - change (Session.run repr respond (c :: calls) s) with (run calls (after c s)).
    destruct (after_invariant c s Hctr Hcache) as (Hctr' & Hcache' & Hwire).
    destruct (IH _ Hctr' Hcache') as (Hctr'' & Hcache'' & Hsent).
    split; [done|]. split; [done|]. intros m p Hin.
    destruct (Hsent m p Hin) as [Hold|[q Hq]].
    + destruct Hwire as [<-|(m' & p' & q' & -> & _ & Hw)]; [by left|].
      rewrite Hw in Hold. apply in_app_or in Hold as [?|[[= <- <-]|[]]];
        [by left|]. right. exists q'. by left.
    + right. exists q. by right.
Qed.


(** X6: the cache follows the notifications: once a notification for a
    subscribed key was handled, [subscribe] with that key sends no request
    and puts the notified value, not the value first fetched, on the new
    subscriber's queue. *)
Theorem subscribe_after_notification method params result queue qs
    (s : @session V) :
  subscriptions s !! key_of method params = Some qs ->
  exists s1 s2,
    handle_request (Notification method (params ++ [result])) s = Returns tt s1 /\
    subscribe method params queue s1 = Returns tt s2 /\
    wire s2 = wire s /\
    cache s2 !! key_of method params = Some result /\
    queues s2 !! queue
    = Some (default [] (queues s1 !! queue) ++ [params ++ [result]]).
Proof.
  intros Hqs.
  destruct (handle_request_delivers repr method params result qs s Hqs)
    as (s1 & Hrun & _ & Hcache & Hwire & _).
  assert (cache s1 !! key_of method params = Some result) as Hc
    by (rewrite Hcache; apply lookup_insert_eq).
  exists s1. eexists. split; [done|].
  rewrite (subscribe_cached repr respond _ _ _ _ _ Hc).
  split; [done|]. simpl. split; [done|]. split; [done|].
  by rewrite lookup_insert_eq.
Qed.

End WithValues.

(** A subscriber at height 7 is told of 8; the next subscriber gets 8 and
    nothing is sent. *)
Lemma subscribe_after_notification_witness :
  let repr := fun _ : list Z => "[]"%string in
  let respond := fun (_ : Z) (_ : string) (_ : list Z) => Response 7 in
  let s := run repr respond [CallSubscribe "blockchain.headers.subscribe" [] 0%nat]
             init in
  exists s1 s2,
    handle_request repr (Notification "blockchain.headers.subscribe" ([] ++ [8])) s
    = Returns tt s1 /\
    subscribe repr respond "blockchain.headers.subscribe" [] 1%nat s1
    = Returns tt s2 /\
    wire s2 = wire s /\
    cache s2 !! "blockchain.headers.subscribe[]"%string = Some 8 /\
    queues s2 !! 1%nat = Some (default [] (queues s1 !! 1%nat) ++ [[] ++ [8]]).
Proof.
  intros repr respond s.
  apply (subscribe_after_notification repr respond
           "blockchain.headers.subscribe" [] 8 1%nat [0%nat] s).
  reflexivity.
Defined.

End SessionMore.

(** ** The fetchers and the wire *)

Module IfaceMore.
Import Iface IfaceProofs SyncFrame.

Section Fetchers.
Context `{Collaborators}.

Ltac run_monad :=
  unfold send_request, bind, gets, modify, lift_result, ret, raise, assert;
  simpl.

(** A fetcher ends in the state it started in with its one request put on
    the wire, if everything after the request leaves the state alone. *)
Lemma final_state_after_request {A} r (k : response -> M world A) w :
  (forall res, preserves eq (k res)) -> (forall res, total (k res)) ->
  final_state ((let* res := send_request r in k res) w) = Some (on_wire r w).
Proof.
  intros Hk Ht. run_monad.
  destruct (server (msg_counter w + 1) r) as [res|e]; [|done].
  specialize (Hk res (on_wire r w)). specialize (Ht res (on_wire r w)).
  destruct (k res (on_wire r w)) as [a w'|e w'|]; simpl in *;
    [by rewrite (Hk w' eq_refl)..|done].
Qed.

(** X7: [get_block_header] refuses, before anything is sent, to ask for
    a proof above the checkpoint.  Otherwise it sends exactly one request,
    with [cp_height = max_checkpoint()] for a height up to the checkpoint
    and [cp_height = 0] above it, and changes nothing else, whether it
    returns or raises.  The flag it returns says whether a proof was asked
    for; when none was asked for, the header returned is the bare hex
    string the server sent, and an object in place of the string is
    rejected. *)
Theorem get_block_header_request height assert_mode must_provide_proof w :
  let cp_height := if max_checkpoint <? height then 0 else max_checkpoint in
  if (max_checkpoint <? height) && must_provide_proof
  then get_block_header height assert_mode must_provide_proof w
       = Raises (Exception
           "Can't request a checkpoint proof because requested height is above checkpoint height")
           w
  else
    final_state (get_block_header height assert_mode must_provide_proof w)
    = Some (on_wire (BlockHeader height cp_height) w) /\
    (forall header proof_was_provided w',
       get_block_header height assert_mode must_provide_proof w
       = Returns (header, proof_was_provided) w' ->
       proof_was_provided = negb (cp_height =? 0) /\
       (cp_height = 0 ->
        exists s,
          server (msg_counter w + 1) (BlockHeader height 0) = Ok (RespStr s) /\
          (b ← bfh s; deserialize_header b height) = Ok header)) /\
    (cp_height = 0 ->
     forall d,
       server (msg_counter w + 1) (BlockHeader height 0) = Ok (RespDict d) ->
       exists e,
         get_block_header height assert_mode must_provide_proof w
         = Raises e (on_wire (BlockHeader height 0) w)).
Proof.
  intros cp_height. unfold get_block_header.
  destruct ((max_checkpoint <? height) && must_provide_proof) eqn:Hproof.
  { apply andb_true_iff in Hproof as [-> ->]. reflexivity. }
  assert ((if max_checkpoint <? height
           then if must_provide_proof
                then raise (Exception
                       "Can't request a checkpoint proof because requested height is above checkpoint height")
                else ret 0
           else ret max_checkpoint) w = Returns cp_height w) as Hcp.
  { unfold cp_height. destruct (max_checkpoint <? height); [|done].
    by destruct must_provide_proof. }
  rewrite (bind_returns _ _ _ _ _ Hcp). clear Hcp.
  split; [|split].
  - apply final_state_after_request.
    + intros res. frame.
    + intros res. totality.
  - intros header proof w'. run_monad.
    destruct (server (msg_counter w + 1) (BlockHeader height cp_height))
      as [res|e] eqn:Hres; [|done].
    destruct (has_root res && has_branch res && has_header res).
    + destruct (Z.eqb_spec cp_height 0) as [|Hz]; [done|].
      destruct (get_item r_header res); [|done].
      destruct (get_item r_root res); [|done].
      destruct (get_item r_branch res); [|done].
      destruct (validate_checkpoint_result _ _ _ _); [|done].
      destruct (b ← bfh _; deserialize_header b height); [|done].
      intros [= <- <- <-]. split; [done|]. done.
    + destruct (Z.eqb_spec cp_height 0) as [Hz|Hz]; [|done]. simpl.
      destruct res as [s|d]; [|done].
      destruct (b ← bfh _; deserialize_header b height) eqn:Hd; [|done].
      intros [= <- <- <-]. split; [done|]. intros _. exists s.
      by rewrite <- Hz.
  - intros Hz d Hd. rewrite Hz. run_monad. rewrite Hd.
    destruct (has_root _ && has_branch _ && has_header _); eauto.
Qed.

Lemma request_headers_final height count w :
  count <= 2016 ->
  final_state (request_headers height count w)
  = Some (on_wire (BlockHeaders height count
                     (if max_checkpoint <? height + count - 1 then 0
                      else max_checkpoint)) w).
Proof.
  intros Hc. unfold request_headers.
  destruct (Z.ltb_spec 2016 count); [lia|].
  apply final_state_after_request.
  - intros res. frame.
  - intros res. totality.
Qed.

(** X8: [request_headers] refuses, before anything is sent, to ask for
    more than 2016 headers.  Otherwise it sends exactly one request, with
    [cp_height = max_checkpoint()] when the last header asked for is at or
    below the checkpoint and [cp_height = 0] when it is above, and changes
    nothing else.  What it returns is the server's response, never with
    more headers than were asked for, and the flag says whether a proof
    was asked for. *)
Theorem request_headers_request height count w :
  let cp_height :=
    if max_checkpoint <? height + count - 1 then 0 else max_checkpoint in
  if 2016 <? count
  then request_headers height count w
       = Raises (Exception
           "Server does not support requesting more than 2016 consecutive headers")
           w
  else
    final_state (request_headers height count w)
    = Some (on_wire (BlockHeaders height count cp_height) w) /\
    forall res proof_was_provided w',
      request_headers height count w = Returns (res, proof_was_provided) w' ->
      server (msg_counter w + 1) (BlockHeaders height count cp_height) = Ok res /\
      proof_was_provided = negb (cp_height =? 0) /\
      exists hexdata,
        get_item r_hex res = Ok hexdata /\
        Z.of_nat (String.length hexdata) / 160 <= count.
Proof.
  intros cp_height. unfold request_headers.
  destruct (Z.ltb_spec 2016 count); [done|]. fold cp_height. split.
  - pose proof (request_headers_final height count w) as Hf.
    unfold request_headers in Hf.
    destruct (Z.ltb_spec 2016 count); [lia|]. apply Hf. lia.
  - intros res proof w'. run_monad.
    destruct (server (msg_counter w + 1) (BlockHeaders height count cp_height))
      as [res'|e] eqn:Hres; [|done].
    destruct (get_item r_hex res') as [hexdata|] eqn:Hhex; [|done].
    change (80 * 2) with 160.
    destruct (Z.ltb_spec count (Z.of_nat (String.length hexdata) / 160));
      [done|].
    destruct (has_root res' && has_branch res').
    + destruct (cp_height =? 0); [done|].
      destruct (get_item r_root res'); [|done].
      destruct (get_item r_branch res'); [|done].
      destruct (validate_checkpoint_result _ _ _ _); [|done].
      destruct (bfh hexdata); [|done].
      destruct (verify_proven_chunk _ _); [|done].
      intros [= <- <- <-]. eauto.
    + destruct (cp_height =? 0); [|done].
      intros [= <- <- <-]. eauto.
Qed.

(** X9: unless it returns early, [request_chunk(height, tip)] sends
    exactly one request: for the chunk of 2016 heights that holds [height],
    from the first height of that chunk, for 2016 headers or, when a tip
    is given, for as many as there are up to the tip (none when the tip is
    below the chunk).  So it never asks for a header above the tip, and
    never for more than [request_headers] accepts. *)
Theorem request_chunk_request height tip can_return_early w :
  ~ (can_return_early = true /\ height / 2016 ∈ requested_chunks w) ->
  let start := height / 2016 * 2016 in
  exists size w',
    final_state (request_chunk height tip can_return_early w) = Some w' /\
    wire w' = wire w ++ [BlockHeaders start size
                           (if max_checkpoint <? start + size - 1 then 0
                            else max_checkpoint)] /\
    msg_counter w' = msg_counter w + 1 /\
    start <= height < start + 2016 /\ start mod 2016 = 0 /\
    0 <= size <= 2016 /\
    match tip with
    | None => size = 2016
    | Some t =>
        (0 < size -> start + size - 1 <= t) /\
        (size < 2016 -> t < start + size)
    end.
Proof.
  intros Hearly start.
  set (size := match tip with
               | Some t => Z.max (Z.min 2016 (t - start + 1)) 0
               | None => 2016
               end).
  assert (0 <= size <= 2016) as Hsize by (unfold size; destruct tip; lia).
  assert (start <= height < start + 2016 /\ start mod 2016 = 0) as [Hstart Hmod].
  { unfold start. split; [|by rewrite Z.mod_mul].
    pose proof (Z.div_mod height 2016). pose proof (Z.mod_pos_bound height 2016).
    lia. }
  assert (match tip with
          | None => size = 2016
          | Some t =>
              (0 < size -> start + size - 1 <= t) /\
              (size < 2016 -> t < start + size)
          end) as Htip by (unfold size; destruct tip; lia).
  assert (can_return_early && bool_decide (height / 2016 ∈ requested_chunks w)
          = false) as Hno.
  { apply not_true_is_false. intros [? ?%bool_decide_eq_true]%andb_true_iff.
    by destruct Hearly. }
  exists size.
  unfold request_chunk. unfold bind at 1. unfold gets at 1. rewrite Hno.
  fold start. fold size.
  set (w0 := set_requested_chunks (fun r => {[height / 2016]} ∪ r) w).
  pose proof (request_headers_final start size w0 (proj2 Hsize)) as Hfinal.
  unfold bind at 1. unfold try_finally. unfold bind at 1, modify at 1.
  fold w0.
  destruct Hstart as [Hlo Hhi], Hsize as [Hs0 Hs1].
  destruct (request_headers start size w0) as [[res proof] w1|e w1|] eqn:Hrh;
    simpl in Hfinal; [|injection Hfinal as ->; eexists; split; [done|]|done].
  - injection Hfinal as ->. unfold bound_chain. run_monad.
    destruct (blockchain w) as [c|]; [|eexists; split; [done|]; done].
    destruct (get_item r_hex res) as [hexdata|]; [|eexists; split; [done|]; done].
    simpl.
    destruct (chain_connect_chunk (store w) c (height / 2016) hexdata proof)
      as [conn st'].
    simpl. destruct conn; simpl; [|eexists; split; [done|]; done].
    destruct (get_item r_count res); eexists; (split; [done|]); done.
  - done.
Qed.

(** *** What synchronising leaves alone *)

#[local] Instance sync_frame_preorder : PreOrder sync_frame.
Proof.
  split.
  - intros w. unfold sync_frame. repeat split; done.
  - intros w1 w2 w3 (?&?&?&?&?&?&?) (?&?&?&?&?&?&?).
    unfold sync_frame. repeat split; try congruence; try tauto; try lia.
    + by trans (wire w2).
    + by trans (callbacks w2).
Qed.

Lemma sync_frame_on_wire r w : sync_frame w (on_wire r w).
Proof.
  unfold sync_frame. simpl. repeat split; try done.
  - by apply prefix_app_r.
  - rewrite length_app. simpl. lia.
Qed.

Lemma sync_frame_set_blockchain c w : sync_frame w (set_blockchain (Some c) w).
Proof. unfold sync_frame. simpl. repeat split; try done; eauto. Qed.

Lemma sync_frame_set_store s w : sync_frame w (set_store s w).
Proof. unfold sync_frame. simpl. repeat split; done. Qed.

Lemma sync_frame_set_requested f w : sync_frame w (set_requested_chunks f w).
Proof. unfold sync_frame. simpl. repeat split; done. Qed.

Lemma sync_frame_callback name w :
  sync_frame w
    (mkWorld (tip w) (tip_header w) (blockchain w) (requested_chunks w)
       (ready w) (msg_counter w) (wire w) (store w) (callbacks w ++ [name])).
Proof.
  unfold sync_frame. simpl. repeat split; try done. by apply prefix_app_r.
Qed.

Hint Resolve sync_frame_on_wire sync_frame_set_blockchain sync_frame_set_store
  sync_frame_set_requested sync_frame_callback : frame.

Lemma send_request_frame r : preserves sync_frame (send_request r).
Proof. unfold send_request. frame. Qed.

Hint Resolve send_request_frame : frame.

Lemma get_block_header_frame height assert_mode must_provide_proof :
  preserves sync_frame (get_block_header height assert_mode must_provide_proof).
Proof. unfold get_block_header. frame. Qed.

Lemma request_headers_frame height count :
  preserves sync_frame (request_headers height count).
Proof. unfold request_headers. frame. Qed.

Lemma check_frame header : preserves sync_frame (check header).
Proof. unfold check. frame. Qed.

Lemma connect_frame header proof height :
  preserves sync_frame (connect header proof height).
Proof. unfold connect. frame. Qed.

Lemma rebind_frame chain : preserves sync_frame (rebind chain).
Proof. unfold rebind. frame. Qed.

Lemma bound_chain_frame : preserves sync_frame bound_chain.
Proof. unfold bound_chain. frame. Qed.

Lemma trigger_callback_frame name : preserves sync_frame (trigger_callback name).
Proof. unfold trigger_callback. frame. Qed.

Hint Resolve get_block_header_frame request_headers_frame check_frame
  connect_frame rebind_frame bound_chain_frame trigger_callback_frame : frame.

Lemma assert_not_check_frame header :
  preserves sync_frame (_assert_header_does_not_check_against_any_chain header).
Proof. unfold _assert_header_does_not_check_against_any_chain. frame. Qed.

Lemma request_chunk_frame height tip can_return_early :
  preserves sync_frame (request_chunk height tip can_return_early).
Proof. unfold request_chunk. frame. Qed.

Lemma iterate_frame height : preserves sync_frame (iterate height).
Proof. unfold iterate. frame. Qed.

Hint Resolve assert_not_check_frame request_chunk_frame iterate_frame : frame.

Lemma backwards_loop_frame fuel : forall height bad bad_header,
  preserves sync_frame (backwards_loop fuel height bad bad_header).
Proof.
  induction fuel as [|fuel IH]; intros; simpl;
    [apply preserves_out_of_fuel|frame].
Qed.

Lemma binary_loop_frame fuel : forall good bad bad_header,
  preserves sync_frame (binary_loop fuel good bad bad_header).
Proof.
  induction fuel as [|fuel IH]; intros; simpl;
    [apply preserves_out_of_fuel|frame].
Qed.

Lemma forkfun_frame c bad_header : preserves sync_frame (forkfun c bad_header).
Proof. unfold forkfun. frame. Qed.

Hint Resolve backwards_loop_frame binary_loop_frame forkfun_frame : frame.

Lemma search_headers_backwards_frame fuel height header :
  preserves sync_frame (_search_headers_backwards fuel height header).
Proof. unfold _search_headers_backwards. frame. Qed.

Lemma search_headers_binary_frame fuel height bad bad_header chain :
  preserves sync_frame (_search_headers_binary fuel height bad bad_header chain).
Proof. unfold _search_headers_binary. frame. Qed.

Lemma resolve_frame good bad bad_header :
  preserves sync_frame
    (_resolve_potential_chain_fork_given_forkpoint good bad bad_header).
Proof. unfold _resolve_potential_chain_fork_given_forkpoint. frame. Qed.

Hint Resolve search_headers_backwards_frame search_headers_binary_frame
  resolve_frame : frame.

Lemma step_frame fuel height header :
  preserves sync_frame (step fuel height header).
Proof. unfold step. frame. Qed.

Hint Resolve step_frame : frame.

Lemma sync_until_body_frame fuel last height next_height :
  preserves sync_frame (sync_until_body fuel last height next_height).
Proof. unfold sync_until_body. frame. Qed.

Hint Resolve sync_until_body_frame : frame.

Lemma sync_until_loop_frame inner fuel : forall last height next_height,
  preserves sync_frame (sync_until_loop inner fuel last height next_height).
Proof.
  induction fuel as [|fuel IH]; intros; simpl; frame;
    apply preserves_out_of_fuel.
Qed.

Hint Resolve sync_until_loop_frame : frame.

Lemma sync_until_frame fuel height next_height :
  preserves sync_frame (sync_until fuel height next_height).
Proof. unfold sync_until. frame. Qed.

Hint Resolve sync_until_frame : frame.

Lemma process_header_at_tip_frame fuel :
  preserves sync_frame (_process_header_at_tip fuel).
Proof. unfold _process_header_at_tip. frame. Qed.

(** X10: the synchronisation code, [step], [sync_until] and
    [_process_header_at_tip] with the searches and fetchers they call,
    whether it returns or raises: never changes [tip], [tip_header] or
    [ready]; never leaves the interface without a chain once it had one;
    only appends to the requests sent and the callbacks triggered; and
    the message counter moves by one for each request. *)
Theorem sync_leaves_tip_and_ready fuel :
  (forall height header, preserves sync_frame (step fuel height header)) /\
  (forall height next_height,
     preserves sync_frame (sync_until fuel height next_height)) /\
  preserves sync_frame (_process_header_at_tip fuel) /\
  (forall height tip can_return_early,
     preserves sync_frame (request_chunk height tip can_return_early)).
Proof.
  split; [|split; [|split]].
  - intros. apply step_frame.
  - intros. apply sync_until_frame.
  - apply process_header_at_tip_frame.
  - intros. apply request_chunk_frame.
Qed.

End Fetchers.

(** Height 50 with the tip at 100: the chunk starts at 0 and 101 headers
    are asked for. *)
Lemma request_chunk_request_witness :
  let w := Toy.world_at (H:=Toy.stalling_server) 100 (Some 0) 49 in
  exists size w',
    final_state (request_chunk (H:=Toy.stalling_server) 50 (Some 100) false w)
    = Some w' /\
    wire w' = wire w ++ [BlockHeaders (50 / 2016 * 2016) size
                           (if max_checkpoint (Collaborators:=Toy.stalling_server)
                                <? 50 / 2016 * 2016 + size - 1
                            then 0
                            else max_checkpoint (Collaborators:=Toy.stalling_server))] /\
    msg_counter w' = msg_counter w + 1 /\
    50 / 2016 * 2016 <= 50 < 50 / 2016 * 2016 + 2016 /\
    (50 / 2016 * 2016) mod 2016 = 0 /\
    0 <= size <= 2016 /\
    ((0 < size -> 50 / 2016 * 2016 + size - 1 <= 100) /\
     (size < 2016 -> 100 < 50 / 2016 * 2016 + size)).
Proof.
  intros w.
  apply (request_chunk_request (H:=Toy.stalling_server) 50 (Some 100) false w).
  by intros [[=] _].
Defined.

(** ** The searches and [step] *)

Section Sync.
Context `{Collaborators}.

#[local] Existing Instance only_wire_preorder.
#[local] Existing Instance same_tip_preorder.

Lemma assert_returns (cond : bool) msg (w w' : world) :
  assert cond msg w = Returns tt w' -> cond = true /\ w' = w.
Proof. destruct cond; [by intros [= <-]|done]. Qed.

Lemma check_run header w chain w' :
  check header w = Returns chain w' -> w' = w /\ truthy chain = checks header w.
Proof. unfold checks, check, gets. by intros [= <- <-]. Qed.

Lemma connect_run header proof height w can_connect w' :
  connect header proof height w = Returns can_connect w' ->
  w' = w /\
  (checks header w = false ->
   truthy can_connect = links header proof height w).
Proof.
  unfold links. intros Hc. rewrite Hc. unfold connect, gets in Hc.
  injection Hc as <- <-. split; [done|]. by intros ->.
Qed.

#[local] Instance same_store_preorder : PreOrder same_store.
Proof. split; [by intros w|]. intros w1 w2 w3. unfold same_store. congruence. Qed.

Lemma get_block_header_same_store height assert_mode must_provide_proof :
  preserves same_store (get_block_header height assert_mode must_provide_proof).
Proof.
  eapply preserves_weaken; [|apply get_block_header_only_wire].
  by intros w w' (_ & _ & _ & _ & _ & ? & _).
Qed.

Lemma check_same_store header : preserves same_store (check header).
Proof. unfold check. frame. Qed.

Lemma rebind_same_store chain : preserves same_store (rebind chain).
Proof. unfold rebind. frame. Qed.

Lemma bound_chain_same_store : preserves same_store bound_chain.
Proof. unfold bound_chain. frame. Qed.

Lemma assert_not_check_same_store header :
  preserves same_store (_assert_header_does_not_check_against_any_chain header).
Proof. unfold _assert_header_does_not_check_against_any_chain, check. frame. Qed.

Hint Resolve get_block_header_same_store check_same_store rebind_same_store
  bound_chain_same_store assert_not_check_same_store : frame.

Lemma binary_loop_same_store fuel : forall good bad bad_header,
  preserves same_store (binary_loop fuel good bad bad_header).
Proof.
  induction fuel as [|fuel IH]; intros; simpl;
    [apply preserves_out_of_fuel|frame].
Qed.

Hint Resolve binary_loop_same_store : frame.

Lemma search_headers_binary_same_store fuel height bad bad_header chain :
  preserves same_store (_search_headers_binary fuel height bad bad_header chain).
Proof. unfold _search_headers_binary. frame. Qed.

(** One turn of the binary search. *)
Lemma binary_loop_S fuel good bad bad_header w :
  binary_loop (S fuel) good bad bad_header w =
    if good <? bad then
      let mid := (good + bad) / 2 in
      match get_block_header mid "binary" false w with
      | Returns (header, _) w1 =>
          if checks header w1
          then
            let w2 := default w1 (final_state
                        ((let* chain := check header in rebind chain) w1)) in
            if mid + 1 =? bad then Returns (mid, bad, bad_header, mid) w2
            else binary_loop fuel mid bad bad_header w2
          else
            if good + 1 =? mid then Returns (good, mid, header, mid) w1
            else binary_loop fuel good mid header w1
      | Raises e w1 => Raises e w1
      | OutOfFuel => OutOfFuel
      end
    else Raises (AssertionError "(good, bad)") w.
Proof.
  simpl. unfold bind at 1, assert.
  destruct (good <? bad); [|done]. unfold ret at 1. unfold bind at 1.
  destruct (get_block_header _ _ _ w) as [[header proof] w1| |]; [|done..].
  destruct (check_returns header w1) as [chain Hc].
  unfold checks. rewrite !(bind_returns _ _ _ _ _ Hc), Hc.
  destruct (truthy chain) eqn:Hchain.
  - unfold bind at 1 2. unfold rebind.
    destruct chain as [c|b|]; unfold modify, ret; simpl;
      by destruct (_ + 1 =? bad).
  - unfold bind at 1. unfold ret at 1. by destruct (good + 1 =? _).
Qed.

Lemma binary_loop_result fuel : forall good bad bad_header w g b bh h w',
  binary_loop fuel good bad bad_header w = Returns (g, b, bh, h) w' ->
  g + 1 = b /\ good <= g /\ b <= bad /\ (h = g \/ h = b).
Proof.
  induction fuel as [|fuel IH]; intros good bad bad_header w g b bh h w';
    [done|].
  rewrite binary_loop_S. destruct (Z.ltb_spec good bad) as [Hlt|]; [|done].
  cbv zeta. set (mid := (good + bad) / 2).
  assert (2 * mid <= good + bad < 2 * mid + 2) as Hmid.
  { unfold mid. pose proof (Z.div_mod (good + bad) 2).
    pose proof (Z.mod_pos_bound (good + bad) 2). lia. }
  clearbody mid.
  destruct (get_block_header _ _ _ w) as [[header proof] w1| |]; [|done..].
  destruct (checks header w1).
  - destruct (Z.eqb_spec (mid + 1) bad) as [Heq|Hne].
    + intros [= <- <- <- <- <-]. lia.
    + intros (? & ? & ? & ?)%IH. lia.
  - destruct (Z.eqb_spec (good + 1) mid) as [Heq|Hne].
    + intros [= <- <- <- <- <-]. lia.
    + intros (? & ? & ? & ?)%IH. lia.
Qed.

Lemma binary_loop_terminates fuel : forall good bad bad_header w,
  (Z.to_nat (bad - good) < fuel)%nat ->
  binary_loop fuel good bad bad_header w <> OutOfFuel.
Proof.
  induction fuel as [|fuel IH]; intros good bad bad_header w Hfuel; [lia|].
  rewrite binary_loop_S. destruct (Z.ltb_spec good bad) as [Hlt|]; [|done].
  cbv zeta. set (mid := (good + bad) / 2).
  assert (2 * mid <= good + bad < 2 * mid + 2) as Hmid.
  { unfold mid. pose proof (Z.div_mod (good + bad) 2).
    pose proof (Z.mod_pos_bound (good + bad) 2). lia. }
  clearbody mid.
  destruct (get_block_header _ _ _ w) as [[header proof] w1| |] eqn:Hget;
    [|done|by apply get_block_header_total in Hget].
  destruct (checks header w1).
  - destruct (Z.eqb_spec (mid + 1) bad) as [Heq|Hne]; [done|].
    apply IH. lia.
  - destruct (Z.eqb_spec (good + 1) mid) as [Heq|Hne]; [done|].
    apply IH. lia.
Qed.

Lemma bind_terminates {W A B} (c : M W A) (k : A -> M W B) w :
  c w <> OutOfFuel ->
  (forall a w1, c w = Returns a w1 -> k a w1 <> OutOfFuel) ->
  bind c k w <> OutOfFuel.
Proof.
  intros Hc Hk. unfold bind. destruct (c w) as [a w1|e w1|]; [by apply Hk|done..].
Qed.

Lemma assert_not_check_total header :
  total (_assert_header_does_not_check_against_any_chain header).
Proof.
  unfold _assert_header_does_not_check_against_any_chain, check. totality.
Qed.

Lemma rebind_total chain : total (rebind chain).
Proof. unfold rebind. totality. Qed.

Lemma bound_chain_total : total bound_chain.
Proof. unfold bound_chain. totality. Qed.

Lemma search_headers_binary_returns fuel height bad bad_header chain w
    good' bad' bad_header' w' :
  _search_headers_binary fuel height bad bad_header chain w
  = Returns (good', bad', bad_header') w' ->
  good' + 1 = bad' /\ height <= good' /\ bad' <= bad /\ height < bad /\
  bad = block_height bad_header /\
  checks bad_header w = false /\ checks bad_header' w' = false /\
  store w' = store w.
Proof.
  intros Hrun.
  assert (store w' = store w) as Hstore.
  { apply (search_headers_binary_same_store fuel height bad bad_header chain).
    by rewrite Hrun. }
  unfold _search_headers_binary in Hrun.
  apply bind_inv_returns in Hrun as ([] & w1 & Hbad & Hrun).
  apply assert_returns in Hbad as [Hbad%Z.eqb_eq ->].
  apply bind_inv_returns in Hrun as ([] & w2 & Hnc & Hrun).
  rewrite assert_not_check_run in Hnc.
  destruct (checks bad_header w) eqn:Hcheck; [done|]. injection Hnc as <-.
  apply bind_inv_returns in Hrun as ([] & w3 & _ & Hrun).
  apply bind_inv_returns in Hrun as ([[[g b] bh] h] & w4 & Hloop & Hrun).
  apply binary_loop_result in Hloop as (Hgb & Hg & Hb & _).
  cbv beta iota in Hrun.
  apply bind_inv_returns in Hrun as (real & w5 & _ & Hrun).
  destruct (negb real && negb _); [done|].
  apply bind_inv_returns in Hrun as ([] & w6 & Hnc & [= <- <- <- <-]).
  rewrite assert_not_check_run in Hnc.
  destruct (checks bh w5) eqn:Hcheck'; [done|]. injection Hnc as <-.
  repeat split; try done; lia.
Qed.

Lemma search_headers_binary_terminates fuel height bad bad_header chain w :
  (Z.to_nat (bad - height) < fuel)%nat ->
  _search_headers_binary fuel height bad bad_header chain w <> OutOfFuel.
Proof.
  intros Hfuel. unfold _search_headers_binary.
  apply bind_terminates; [apply total_assert|intros [] w1 _].
  apply bind_terminates; [apply assert_not_check_total|intros [] w2 _].
  apply bind_terminates; [apply rebind_total|intros [] w3 _].
  apply bind_terminates; [by apply binary_loop_terminates|].
  intros [[[g b] bh] h] w4 _. cbv beta iota.
  apply bind_terminates.
  - destruct (match mock bh with Some m => mock_connect m h | None => false end);
      [done|].
    apply total_bind; [apply bound_chain_total|]. intros c. apply total_gets.
  - intros real w5 _. destruct (negb real && negb _); [done|].
    apply bind_terminates; [apply assert_not_check_total|done].
Qed.

(** X11: when [_search_headers_binary] returns [(good, bad, bad_header)],
    [good + 1 == bad], the pair lies within the interval it was given
    ([height <= good] and [bad] no higher than the [bad] passed in), the
    header returned as bad does not check against any chain, and the
    chain store was not written.  It returns only if it was given
    [height < bad] and a bad header, at height [bad], that does not check.
    The loop halves the interval, so the search ends within [bad - height]
    turns. *)
Theorem search_headers_binary_result fuel height bad bad_header chain w :
  (forall good' bad' bad_header' w',
     _search_headers_binary fuel height bad bad_header chain w
     = Returns (good', bad', bad_header') w' ->
     good' + 1 = bad' /\ height <= good' /\ bad' <= bad /\ height < bad /\
     bad = block_height bad_header /\
     checks bad_header w = false /\ checks bad_header' w' = false /\
     store w' = store w) /\
  ((Z.to_nat (bad - height) < fuel)%nat ->
   _search_headers_binary fuel height bad bad_header chain w <> OutOfFuel).
Proof.
  split.
  - intros good' bad' bad_header' w'. apply search_headers_binary_returns.
  - apply search_headers_binary_terminates.
Qed.

(** *** The backward search *)

Lemma backward_probe_bounds w probe bad bad_header out :
  backward_probe w probe bad bad_header out ->
  probe < tip w -> probe < bad ->
  forall h' hd' b' bh' p' w',
    out = Returns (h', hd', b', bh', p') w' ->
    max_checkpoint <= h' <= Z.max probe max_checkpoint /\ b' <= bad /\
    (max_checkpoint < bad -> h' < b') /\
    links hd' p' h' w' = true /\ only_wire w w'.
Proof.
  induction 1 as [w probe bad bad_header header proof w' Hcp Hget Hlinks
                 |w probe bad bad_header header proof w' out Hcp Hget Hlinks _ IH
                 |w probe bad bad_header header proof w' Hcp Hget Hlinks
                 |w probe bad bad_header header proof w' Hcp Hget Hlinks
                 |w probe bad bad_header e w' Hget];
    intros Htip Hbad h' hd' b' bh' p' w'' Hout; try done.
  - injection Hout as <- <- <- <- <- <-.
    repeat split; try done; try lia.
    all: apply (get_block_header_only_wire probe "backward" false w w');
      by rewrite Hget.
  - assert (only_wire w w') as Hw.
    { apply (get_block_header_only_wire probe "backward" false w w').
      by rewrite Hget. }
    assert (tip w' = tip w) as Htip' by apply Hw.
    destruct (IH ltac:(lia) ltac:(lia) _ _ _ _ _ _ Hout)
      as (Hh & Hb & Hlt & Hl & Hw').
    split; [lia|]. split; [lia|]. split; [intros _; lia|]. split; [done|].
    by trans w'.
  - injection Hout as <- <- <- <- <- <-.
    repeat split; try done; try lia.
    all: apply (get_block_header_only_wire max_checkpoint "backward" false w w');
      by rewrite Hget.
Qed.

Lemma search_headers_backwards_result fuel h header w h' hd' b' bh' p' w' :
  h <= tip w ->
  _search_headers_backwards fuel h header w = Returns (h', hd', b', bh', p') w' ->
  max_checkpoint <= h' <= Z.max (h - 1) max_checkpoint /\ b' <= h /\
  (max_checkpoint < h -> h' < b') /\
  links hd' p' h' w' = true /\ checks bh' w' = false /\ only_wire w w'.
Proof.
  intros Htip. destruct (checks header w) eqn:Hcheck.
  - unfold _search_headers_backwards. unfold bind at 1.
    by rewrite assert_not_check_run, Hcheck.
  - rewrite search_headers_backwards_run by done.
    pose proof (backwards_loop_partial fuel (first_probe header h w) h header w
                  Hcheck) as Hloop.
    pose proof (first_probe_below header h w) as Hfirst.
    destruct (backwards_loop fuel _ h header w)
      as [[[[[h1 hd1] b1] bh1] p1] w1|e w1|]; [|done..].
    destruct Hloop as (Hprobe & _ & Hbad).
    rewrite Hbad. intros [= <- <- <- <- <- <-].
    destruct (backward_probe_bounds _ _ _ _ _ Hprobe ltac:(lia) ltac:(lia)
                _ _ _ _ _ _ eq_refl) as (Hh & Hb & Hlt & Hl & Hw).
    repeat split; try done; try lia. all: apply Hw.
Qed.

(** X12: [_search_headers_backwards(height, header)], called with
    [max_checkpoint() < height <= tip], returns a height and a bad height
    with [max_checkpoint() <= height' < bad' <= height]: the header at
    [height'] checks or connects, the one returned as bad does not check,
    and nothing but the wire was written. *)
Theorem search_headers_backwards_bounds fuel h header w h' hd' b' bh' p' w' :
  max_checkpoint < h -> h <= tip w ->
  _search_headers_backwards fuel h header w = Returns (h', hd', b', bh', p') w' ->
  max_checkpoint <= h' /\ h' < b' /\ b' <= h /\
  links hd' p' h' w' = true /\ checks bh' w' = false /\ only_wire w w'.
Proof.
  intros Hcp Htip Hrun.
  destruct (search_headers_backwards_result _ _ _ _ _ _ _ _ _ _ Htip Hrun)
    as (Hh & Hb & Hlt & Hl & Hc & Hw).
  repeat split; try done; try lia. all: apply Hw.
Qed.

(** *** [step] *)

Lemma resolve_result good bad bad_header w m h' w' :
  _resolve_potential_chain_fork_given_forkpoint good bad bad_header w
  = Returns (m, h') w' ->
  good + 1 = bad /\
  (m = no_fork /\ h' = good + 1 \/ m = fork /\ h' = bad + 1).
Proof.
  unfold _resolve_potential_chain_fork_given_forkpoint. intros Hrun.
  apply bind_inv_returns in Hrun as ([] & w1 & Hgood & Hrun).
  apply assert_returns in Hgood as [Hgood%Z.eqb_eq ->].
  apply bind_inv_returns in Hrun as ([] & w2 & _ & Hrun).
  apply bind_inv_returns in Hrun as ([] & w3 & _ & Hrun).
  apply bind_inv_returns in Hrun as (c & w4 & _ & Hrun).
  apply bind_inv_returns in Hrun as (bh & w5 & _ & Hrun).
  apply bind_inv_returns in Hrun as ([] & w6 & _ & Hrun).
  split; [done|]. destruct (bh =? good).
  - injection Hrun as <- <- <-. by left.
  - apply bind_inv_returns in Hrun as (b & w7 & _ & Hrun).
    apply bind_inv_returns in Hrun as ([] & w8 & _ & Hrun).
    apply bind_inv_returns in Hrun as ([] & w9 & _ & Hrun).
    injection Hrun as <- <- <-. by right.
Qed.

Lemma step_result fuel height header w m h' w' :
  step fuel height header w = Returns (m, h') w' ->
  0 <= height <= tip w /\
  h' <= Z.max height max_checkpoint + 1 /\
  (max_checkpoint < height -> max_checkpoint < h').
Proof.
  unfold step. intros Hrun.
  apply bind_inv_returns in Hrun as (t & w1 & [= <- <-] & Hrun).
  apply bind_inv_returns in Hrun as ([] & w1 & Htip & Hrun).
  apply assert_returns in Htip as [[?%Z.leb_le ?%Z.leb_le]%andb_true_iff ->].
  split; [done|].
  apply bind_inv_returns in Hrun as ([hd proof] & w2 & Hget & Hrun).
  assert (tip w2 = tip w) as Htip2.
  { destruct header as [hd0|].
    - by injection Hget as <- <- <-.
    - apply (get_block_header_same_tip height "catchup" false w w2).
      by rewrite Hget. }
  apply bind_inv_returns in Hrun as (chain & w3 & [-> _]%check_run & Hrun).
  destruct (truthy chain).
  { apply bind_inv_returns in Hrun as ([] & w4 & _ & [= <- <- <-]). lia. }
  apply bind_inv_returns in Hrun as (cc & w4 & [-> _]%connect_run & Hrun).
  destruct (truthy cc).
  { apply bind_inv_returns in Hrun as ([] & w5 & _ & [= <- <- <-]). lia. }
  apply bind_inv_returns
    in Hrun as ([[[[h1 hd1] b1] bh1] p1] & w5 & Hback & Hrun).
  apply search_headers_backwards_result in Hback
    as (Hh & Hb & Hlt & _); [|lia].
  apply bind_inv_returns in Hrun as (chain1 & w6 & _ & Hrun).
  apply bind_inv_returns in Hrun as (cc1 & w7 & _ & Hrun).
  apply bind_inv_returns in Hrun as ([] & w8 & _ & Hrun).
  destruct (truthy cc1).
  { apply bind_inv_returns in Hrun as ([] & w9 & _ & [= <- <- <-]). lia. }
  apply bind_inv_returns in Hrun as ([[g b] bh] & w9 & Hbin & Hrun).
  apply search_headers_binary_returns in Hbin as (Hgb & Hg & Hbb & _).
  apply resolve_result in Hrun as (_ & [[_ ->]|[_ ->]]); lia.
Qed.

Lemma search_headers_backwards_terminates fuel h header w :
  h <= tip w -> (Z.to_nat (h - max_checkpoint) < fuel)%nat ->
  _search_headers_backwards fuel h header w <> OutOfFuel.
Proof.
  intros Htip Hfuel. destruct (checks header w) eqn:Hcheck.
  - unfold _search_headers_backwards. unfold bind at 1.
    by rewrite assert_not_check_run, Hcheck.
  - rewrite search_headers_backwards_run by done.
    pose proof (first_probe_below header h w) as Hfirst.
    destruct (backwards_loop_spec (Z.to_nat (h - 1 - max_checkpoint))
                (first_probe header h w) h header w) as (out & _ & Hout & Hok);
      [lia|lia|done|].
    rewrite Hout by lia.
    destruct out as [[[[[h1 hd1] b1] bh1] p1] w1|e w1|]; [|done..].
    by destruct (checks bh1 w1).
Qed.

Lemma forkfun_total c bad_header : total (forkfun c bad_header).
Proof. unfold forkfun. totality. Qed.

Lemma resolve_total good bad bad_header :
  total (_resolve_potential_chain_fork_given_forkpoint good bad bad_header).
Proof.
  pose proof assert_not_check_total. pose proof bound_chain_total.
  pose proof forkfun_total.
  unfold _resolve_potential_chain_fork_given_forkpoint. totality.
Qed.

Lemma step_terminates fuel height header w :
  (Z.to_nat (height - max_checkpoint) < fuel)%nat ->
  step fuel height header w <> OutOfFuel.
Proof.
  intros Hfuel. unfold step.
  apply bind_terminates; [done|intros t w1 [= <- <-]].
  apply bind_terminates; [apply total_assert|intros [] w1 Hassert].
  apply assert_returns in Hassert as [[_ ?%Z.leb_le]%andb_true_iff ->].
  apply bind_terminates;
    [destruct header; [done|apply get_block_header_total]|].
  intros [hd proof] w2 Hget.
  assert (tip w2 = tip w) as Htip2.
  { destruct header as [hd0|].
    - by injection Hget as <- <- <-.
    - apply (get_block_header_same_tip height "catchup" false w w2).
      by rewrite Hget. }
  apply bind_terminates; [done|intros chain w3 [-> _]%check_run].
  destruct (truthy chain).
  { apply bind_terminates; [apply rebind_total|done]. }
  apply bind_terminates; [done|intros cc w4 [-> _]%connect_run].
  destruct (truthy cc).
  { apply bind_terminates; [by destruct cc|done]. }
  apply bind_terminates;
    [apply search_headers_backwards_terminates; [lia|done]|].
  intros [[[[h1 hd1] b1] bh1] p1] w5 Hback.
  apply search_headers_backwards_result in Hback as (Hh & Hb & _); [|lia].
  apply bind_terminates; [done|intros chain1 w6 _].
  apply bind_terminates; [done|intros cc1 w7 _].
  apply bind_terminates; [apply total_assert|intros [] w8 _].
  destruct (truthy cc1).
  { apply bind_terminates; [by destruct cc1|done]. }
  apply bind_terminates; [apply search_headers_binary_terminates; lia|].
  intros [[g b] bh] w9 _. apply resolve_total.
Qed.


(** *** [sync_until] *)

Lemma sync_until_body_result fuel last height next_height w last' height' w' :
  sync_until_body fuel last height next_height w = Returns (last', height') w' ->
  is_Some last' /\
  height' <= Z.max (Z.max height next_height) max_checkpoint + 1.
Proof.
  unfold sync_until_body.
  destruct (Z.ltb_spec (height + 10) next_height) as [Hfar|Hnear].
  - intros ([[conn n]|] & w1 & _ & Hrun)%bind_inv_returns; [|done].
    destruct conn; simpl in Hrun.
    + apply bind_inv_returns in Hrun as ([] & w2 & _ & Hrun).
      apply bind_inv_returns in Hrun as ([] & w3 & Hassert & Hrun).
      apply assert_returns in Hassert as [?%Z.leb_le ->].
      apply bind_inv_returns in Hrun as ([] & w4 & _ & [= <- <- <-]).
      split; [by eauto|lia].
    + destruct (height <=? max_checkpoint); [done|].
      apply bind_inv_returns in Hrun as ([m h1] & w2 & Hstep & [= <- <- <-]).
      apply step_result in Hstep as (_ & ? & _). split; [by eauto|lia].
  - intros ([m h1] & w1 & Hstep & Hrun)%bind_inv_returns.
    apply bind_inv_returns in Hrun as ([] & w2 & _ & [= <- <- <-]).
    apply step_result in Hstep as (_ & ? & _). split; [by eauto|lia].
Qed.

Lemma sync_until_loop_result inner bound next_height fuel :
  forall last height w last' height' w',
    Z.max next_height max_checkpoint + 1 <= bound ->
    (if last is None then Z.max height max_checkpoint + 1 <= bound
     else height <= bound) ->
    sync_until_loop inner fuel last height next_height w
    = Returns (last', height') w' ->
    is_Some last' /\ next_height < height' /\ height' <= bound.
Proof.
  assert (forall (last : option mode) (height : Z) (w : world) last' height' w',
             (if last is None then Z.max height max_checkpoint + 1 <= bound
              else height <= bound) ->
             bool_decide (last = None) || (height <=? next_height) = false ->
             Returns (last, height) w = Returns (last', height') w' ->
             is_Some last' /\ next_height < height' /\ height' <= bound) as Hexit.
  { intros last height w last' height' w' Hinv Hc [= <- <- <-].
    apply orb_false_iff in Hc as [Hl%bool_decide_eq_false Hh].
    apply Z.leb_gt in Hh. by destruct last. }
  induction fuel as [|fuel IH]; intros last height w last' height' w' Hb Hinv;
    simpl;
    destruct (bool_decide (last = None) || (height <=? next_height)) eqn:Hc;
    try (by apply Hexit); [done|].
  intros ([l1 h1] & w1 & Hbody & Hloop)%bind_inv_returns.
  apply sync_until_body_result in Hbody as [[m ->] Hh1].
  apply IH in Hloop; [done|done|]. simpl.
  apply orb_true_iff in Hc as [->%bool_decide_eq_true|?%Z.leb_le]; [lia|].
  destruct last; lia.
Qed.

(** X14: when [sync_until(height, next_height)] returns [(last, height')],
    [last] is a mode, never [None], and [height'] is above [next_height]
    (the tip, when no [next_height] is given) and at most one above the
    largest of the start height, [next_height] and the checkpoint.  So
    from a start at or below a [next_height] that is not below the
    checkpoint, it returns exactly at [next_height + 1]. *)
Theorem sync_until_returns_above fuel height next_height w last height' w' :
  sync_until fuel height next_height w = Returns (last, height') w' ->
  let n := default (tip w) next_height in
  is_Some last /\ n < height' /\
  height' <= Z.max (Z.max height n) max_checkpoint + 1 /\
  (height <= n -> max_checkpoint <= n -> height' = n + 1).
Proof.
  unfold sync_until.
  intros (n & w1 & Hn & Hloop)%bind_inv_returns.
  assert (n = default (tip w) next_height /\ w1 = w) as [-> ->].
  { destruct next_height; by injection Hn as <- <-. }
  cbv zeta. set (n := default (tip w) next_height) in *.
  apply (sync_until_loop_result fuel
           (Z.max (Z.max height n) max_checkpoint + 1)) in Hloop; [|lia..].
  destruct Hloop as (Hsome & Hlt & Hle). repeat split; try done. lia.
Qed.

End Sync.

(** From height 49 with [next_height = 49], where the server's header
    connects: one step, and [sync_until] returns at height 50. *)
Lemma sync_until_returns_above_witness :
  let w := Toy.world_at (H:=Toy.stalling_server) 100 (Some 0) 49 in
  is_Some (Some catchup) /\ 49 < 50 /\
  50 <= Z.max (Z.max 49 49) (max_checkpoint (Collaborators:=Toy.stalling_server)) + 1 /\
  (49 <= 49 -> max_checkpoint (Collaborators:=Toy.stalling_server) <= 49 ->
   50 = 49 + 1).
Proof.
  intros w.
  apply (sync_until_returns_above (H:=Toy.stalling_server) 1 49 (Some 49) w
           (Some catchup) 50
           (default w (final_state
                         (sync_until (H:=Toy.stalling_server) 1 49 (Some 49) w)))).
  vm_compute. reflexivity.
Defined.

(** The header at height 50 neither checks nor connects; the one at 49
    connects. *)
Lemma search_headers_backwards_bounds_witness :
  let w := Toy.world_at (H:=Toy.stalling_server) 100 (Some 0) 49 in
  let bad_header := Toy.mkToy 50 false false false in
  let header := Toy.mkToy 49 false true false in
  let w' := on_wire (H:=Toy.stalling_server) (BlockHeader 49 0) w in
  max_checkpoint (Collaborators:=Toy.stalling_server) <= 49 /\ 49 < 50 /\ 50 <= 50 /\
  links (H:=Toy.stalling_server) header false 49 w' = true /\
  checks (H:=Toy.stalling_server) bad_header w' = false /\
  only_wire (H:=Toy.stalling_server) w w'.
Proof.
  intros w bad_header header w'.
  apply (search_headers_backwards_bounds (H:=Toy.stalling_server) 1 50 bad_header
           w 49 header 50 bad_header false w').
  - vm_compute. reflexivity.
  - vm_compute. discriminate.
  - reflexivity.
Defined.

(** ** Readiness and the tip *)

Section Tips.
Context `{Collaborators}.

#[local] Existing Instance sync_frame_preorder.

Lemma mark_ready_run w :
  mark_ready w =
    match ready w with
    | Cancelled =>
        Raises (GracefulDisconnect
                  "conn establishment was too slow; *ready* future was cancelled") w
    | Done => Returns tt w
    | Pending =>
        match tip_header w with
        | None => Raises (AssertionError "") w
        | Some header =>
            match match check_header (store w) header with
                  | Some c => Some c
                  | None => get_best_chain (store w)
                  end with
            | Some c => Returns tt (set_ready Done (set_blockchain (Some c) w))
            | None => Raises (AssertionError "") (set_blockchain None w)
            end
        end
    end.
Proof.
  unfold mark_ready, bind, gets. destruct (ready w); [|done..].
  destruct (tip_header w) as [header|]; [|done].
  by destruct (check_header (store w) header) as [c|];
    [|destruct (get_best_chain (store w)) as [c|]].
Qed.

(** X15: [mark_ready] marks the interface ready at most once and only
    with a chain bound.  When it returns, [ready] is done, and calling it
    again changes nothing; if [ready] was still pending, the interface is
    now bound to the chain its tip header checks against, or to the best
    chain when it checks against none.  When it raises, [ready] is as it
    was and is not done: a cancelled future gives [GracefulDisconnect]
    and is never resolved. *)
Theorem mark_ready_once w :
  (forall w',
     mark_ready w = Returns tt w' ->
     ready w' = Done /\ mark_ready w' = Returns tt w' /\
     (ready w = Done -> w' = w) /\
     (ready w = Pending ->
      exists header c,
        tip_header w = Some header /\ blockchain w' = Some c /\
        (check_header (store w) header = Some c \/
         check_header (store w) header = None /\
         get_best_chain (store w) = Some c))) /\
  (forall e w',
     mark_ready w = Raises e w' -> ready w' = ready w /\ ready w <> Done) /\
  (ready w = Cancelled ->
   mark_ready w
   = Raises (GracefulDisconnect
               "conn establishment was too slow; *ready* future was cancelled") w) /\
  mark_ready w <> OutOfFuel.
Proof.
  rewrite (mark_ready_run w).
  destruct (ready w) eqn:Hready.
  - destruct (tip_header w) as [header|] eqn:Hheader.
    + destruct (match check_header (store w) header with
                | Some c => Some c
                | None => get_best_chain (store w)
                end) as [c|] eqn:Hchain.
      * split; [|split; [|split]]; try done.
        intros w' [= <-]. split; [done|]. split; [by rewrite mark_ready_run|].
        split; [done|]. intros _. exists header, c. split; [done|].
        split; [done|].
        destruct (check_header (store w) header); [left; congruence|by right].
      * split; [|split; [|split]]; try done. by intros e w' [= <- <-].
    + split; [|split; [|split]]; try done. by intros e w' [= <- <-].
  - split; [|split; [|split]]; try done.
    intros w' [= <-]. split; [done|]. split; [|done].
    by rewrite mark_ready_run, Hready.
  - split; [|split; [|split]]; try done. by intros e w' [= <- <-].
Qed.

Lemma process_header_at_tip_bound fuel w w' :
  _process_header_at_tip fuel w = Returns tt w' -> is_Some (blockchain w).
Proof.
  unfold _process_header_at_tip. unfold bind at 1 2, gets at 1 2.
  destruct (tip_header w) as [header|]; [|done].
  unfold bind at 1, bound_chain, bind at 1, gets at 1.
  destruct (blockchain w); [eauto|done].
Qed.

Lemma on_tip_returns_ready fuel raw w w' :
  on_tip fuel raw w = Returns tt w' ->
  exists header,
    (b ← bfh (raw_hex raw); deserialize_header b (raw_height raw)) = Ok header /\
    tip w' = raw_height raw /\ tip_header w' = Some header /\
    ready w' = Done /\ is_Some (blockchain w') /\
    wire w `prefix_of` wire w' /\
    exists cbs, callbacks w' = callbacks w ++ cbs ++ ["network_updated"%string].
Proof.
  rewrite on_tip_unfold.
  destruct (b ← bfh (raw_hex raw); deserialize_header b (raw_height raw))
    as [header|]; [|done].
  cbv zeta. destruct (raw_height raw <? max_checkpoint); [done|].
  intros ([] & w1 & Hready & Hrun)%bind_inv_returns.
  apply bind_inv_returns in Hrun as ([] & w2 & Hprocess & [= <-]).
  exists header. split; [done|].
  pose proof (process_header_at_tip_bound _ _ _ Hprocess) as Hbound.
  destruct (process_header_at_tip_frame fuel w1 w2) as
    (Htip & Hheader & Hr & Hb & Hwire & _ & [cbs Hcbs]); [by rewrite Hprocess|].
  rewrite mark_ready_run in Hready. simpl in Hready.
  assert (tip w1 = raw_height raw /\ tip_header w1 = Some header /\
          ready w1 = Done /\ wire w1 = wire w /\ callbacks w1 = callbacks w)
    as (Htip1 & Hheader1 & Hr1 & Hwire1 & Hcbs1).
  { destruct (ready w) eqn:Hrw; [|by injection Hready as <-|done].
    destruct (match check_header (store w) header with
              | Some c => Some c
              | None => get_best_chain (store w)
              end); [by injection Hready as <-|done]. }
  simpl. rewrite Htip, Hheader, Hr, Hcbs, Hcbs1, <- Hwire1, <- app_assoc.
  repeat split; try done; eauto.
Qed.

Lemma run_fetch_blocks_snoc fuel items raw w w' :
  run_fetch_blocks fuel (items ++ [raw]) w = Returns tt w' ->
  exists w1,
    run_fetch_blocks fuel items w = Returns tt w1 /\
    on_tip fuel raw w1 = Returns tt w'.
Proof.
  revert w. induction items as [|item items IH]; intros w; simpl.
  - intros ([] & w1 & Htip & [= <-])%bind_inv_returns. eauto.
  - intros ([] & w1 & Htip & Hrest)%bind_inv_returns.
    destruct (IH _ Hrest) as (w2 & Hitems & Hlast).
    exists w2. split; [|done]. by rewrite (bind_returns _ _ _ _ _ Htip).
Qed.

Lemma run_fetch_blocks_appends fuel items : forall w w',
  run_fetch_blocks fuel items w = Returns tt w' ->
  wire w `prefix_of` wire w' /\ callbacks w `prefix_of` callbacks w'.
Proof.
  induction items as [|item items IH]; intros w w'; simpl.
  - by intros [= <-].
  - intros ([] & w1 & Htip & Hrest)%bind_inv_returns.
    destruct (on_tip_returns_ready _ _ _ _ Htip)
      as (_ & _ & _ & _ & _ & _ & Hwire & cbs & Hcbs).
    destruct (IH _ _ Hrest) as [Hwire' Hcbs'].
    split; [by trans (wire w1)|]. trans (callbacks w1); [|done].
    rewrite Hcbs. by apply prefix_app_r.
Qed.

(** X16: when [run_fetch_blocks] has processed the tips the server
    sent (each turn of its loop returned), [tip] and [tip_header] are
    the last header sent, the interface is ready and bound to a chain,
    requests and callbacks were only added, and the last callback
    triggered is ['network_updated']. *)
Theorem run_fetch_blocks_ready_and_bound fuel items raw w w' :
  run_fetch_blocks fuel (items ++ [raw]) w = Returns tt w' ->
  exists header,
    (b ← bfh (raw_hex raw); deserialize_header b (raw_height raw)) = Ok header /\
    tip w' = raw_height raw /\ tip_header w' = Some header /\
    ready w' = Done /\ is_Some (blockchain w') /\
    wire w `prefix_of` wire w' /\
    exists cbs, callbacks w' = callbacks w ++ cbs ++ ["network_updated"%string].
Proof.
  intros (w1 & Hitems & Hlast)%run_fetch_blocks_snoc.
  destruct (run_fetch_blocks_appends _ _ _ _ Hitems) as [Hwire [cbs0 Hcbs0]].
  destruct (on_tip_returns_ready _ _ _ _ Hlast)
    as (header & Hh & Htip & Hth & Hr & Hb & Hwire' & cbs & Hcbs).
  exists header. repeat split; try done.
  - by trans (wire w1).
  - exists (cbs0 ++ cbs). by rewrite Hcbs, Hcbs0, <- !app_assoc.
Qed.


End Tips.

(** A new interface is sent a tip at height 100 whose header checks
    against the chain. *)
Lemma run_fetch_blocks_ready_and_bound_witness :
  let w := Toy.world_at (H:=Toy.stalling_server) 0 None 49 in
  let raw := mkRaw 100 "K" in
  let w' := default w (final_state
                         (run_fetch_blocks (H:=Toy.stalling_server) 1 [raw] w)) in
  exists header,
    (b ← bfh (Collaborators:=Toy.stalling_server) (raw_hex raw);
     deserialize_header (Collaborators:=Toy.stalling_server) b (raw_height raw))
    = Ok header /\
    tip w' = raw_height raw /\ tip_header w' = Some header /\
    ready w' = Done /\ is_Some (blockchain w') /\
    wire w `prefix_of` wire w' /\
    exists cbs, callbacks w' = callbacks w ++ cbs ++ ["network_updated"%string].
Proof.
  intros w raw w'.
  apply (run_fetch_blocks_ready_and_bound (H:=Toy.stalling_server) 1 [] raw w w').
  vm_compute. reflexivity.
Defined.

(** ** Checkpoints from a trusted server *)

Section Checkpoints.
Context `{Collaborators}.
Variable timestamp : Header -> Z.
Variable get_chainwork : Store -> Chain -> Z -> result Z.
Variable get_target : Store -> Chain -> Z -> result Z.
Variable target_to_bits : Z -> Z.

Abbreviation get_purported_checkpoint :=
  (Checkpoints.get_purported_checkpoint timestamp get_chainwork get_target
     target_to_bits).

(** X18: [get_purported_checkpoint(cp_height)] sends one request, for
    the header at the first height of the 2016-block retarget period
    that holds [cp_height], with a proof up to [cp_height].  What it
    returns is taken as sent: the merkle root is the server's, checked
    against nothing, and the timestamp is that of the header the
    server gave.  The chainwork and the bits are read from the bound
    chain at the last height of a period at or below [cp_height]: that
    is [cp_height] itself when [cp_height + 1] is a multiple of 2016,
    and otherwise the height just below the first height asked for. *)
Theorem purported_checkpoint_heights cp_height w p w' :
  get_purported_checkpoint cp_height w = Returns p w' ->
  let first := cp_height / 2016 * 2016 in
  let last := (cp_height + 1) / 2016 * 2016 - 1 in
  w' = on_wire (BlockHeader first cp_height) w /\
  first <= cp_height < first + 2016 /\ first mod 2016 = 0 /\
  (if (cp_height + 1) mod 2016 =? 0 then last = cp_height
   else last = first - 1) /\
  Checkpoints.p_height p = cp_height /\
  exists d root hexheader c header target,
    server (msg_counter w + 1) (BlockHeader first cp_height) = Ok (RespDict d) /\
    r_root d = Some root /\ r_header d = Some hexheader /\
    blockchain w = Some c /\
    Checkpoints.p_merkle_root p = root /\
    (b ← bfh hexheader; deserialize_header b first) = Ok header /\
    Checkpoints.p_first_timestamp p = timestamp header /\
    get_chainwork (store w) c last = Ok (Checkpoints.p_last_chainwork p) /\
    get_target (store w) c ((last + 1) / 2016 - 1) = Ok target /\
    Checkpoints.p_last_bits p = target_to_bits target.
Proof.
  intros Hrun first last.
  assert (first <= cp_height < first + 2016 /\ first mod 2016 = 0 /\
          (if (cp_height + 1) mod 2016 =? 0 then last = cp_height
           else last = first - 1) /\
          (last + 1) / 2016 - 1 = (cp_height + 1) / 2016 - 1)
    as (Hfirst & Hmod & Hlast & Hindex).
  { unfold first, last.
    pose proof (Z.div_mod cp_height 2016 ltac:(lia)) as Hd.
    pose proof (Z.mod_pos_bound cp_height 2016 ltac:(lia)) as Hm.
    pose proof (Z.div_mod (cp_height + 1) 2016 ltac:(lia)) as Hd1.
    pose proof (Z.mod_pos_bound (cp_height + 1) 2016 ltac:(lia)) as Hm1.
    split; [lia|]. split; [by rewrite Z.mod_mul|]. split.
    - destruct (Z.eqb_spec ((cp_height + 1) mod 2016) 0) as [Hz|Hz]; [lia|].
      assert ((cp_height + 1) / 2016 = cp_height / 2016) as -> by lia. lia.
    - replace ((cp_height + 1) / 2016 * 2016 - 1 + 1)
        with ((cp_height + 1) / 2016 * 2016) by lia.
      by rewrite Z.div_mul. }
  unfold Checkpoints.get_purported_checkpoint in Hrun. fold first last in Hrun.
  unfold send_request in Hrun.
  apply bind_inv_returns in Hrun as (res1 & w1 & Hsend & Hrun).
  apply bind_inv_returns in Hsend as (n & w2 & [= <- <-] & Hsend).
  apply bind_inv_returns in Hsend as ([] & w3 & [= <-] & Hsend).
  unfold lift_result in Hsend.
  destruct (server (msg_counter w + 1) (BlockHeader first cp_height))
    as [res|] eqn:Hserver; [|done].
  injection Hsend as <- <-.
  destruct (has_root res && has_branch res && has_header res); [|done].
  apply bind_inv_returns in Hrun as (hexheader0 & w4 & Hhex & Hrun).
  apply bind_inv_returns in Hrun as (header0 & w5 & Hheader & Hrun).
  apply bind_inv_returns in Hrun as (c0 & w6 & Hchain & Hrun).
  apply bind_inv_returns in Hrun as (st & w7 & [= <- <-] & Hrun).
  apply bind_inv_returns in Hrun as (work0 & w8 & Hwork & Hrun).
  apply bind_inv_returns in Hrun as (target0 & w9 & Htarget & Hrun).
  apply bind_inv_returns in Hrun as (root0 & w10 & Hroot & [= <- <-]).
  unfold lift_result in *.
  destruct res as [str|d]; [done|]. simpl in Hhex, Hroot.
  destruct (r_header d) as [hexheader|] eqn:Hd; [|done].
  injection Hhex as <- <-.
  destruct (b ← bfh hexheader; deserialize_header b first) as [header|] eqn:Hh;
    [|done].
  injection Hheader as <- <-.
  unfold bound_chain, bind, gets in Hchain. simpl in Hchain.
  destruct (blockchain w) as [c|] eqn:Hc; [|done]. injection Hchain as <- <-.
  simpl in Hwork, Htarget.
  destruct (get_chainwork (store w) c last) as [work|] eqn:Hw; [|done].
  injection Hwork as <- <-.
  destruct (get_target (store w) c ((cp_height + 1) / 2016 - 1))
    as [target|] eqn:Ht; [|done].
  injection Htarget as <- <-.
  destruct (r_root d) as [root|] eqn:Hr; [|done]. injection Hroot as <- <-.
  split; [done|]. split; [done|]. split; [done|]. split; [done|].
  split; [done|].
  exists d, root, hexheader, c, header, target. rewrite Hindex.
  repeat split; done.
Qed.

End Checkpoints.

(** The checkpoint at height 4031, the last block of the second
    period: the header asked for is the one at 2016, and the chainwork
    is read at 4031. *)
Lemma purported_checkpoint_heights_witness :
  let w := Toy.world_at (H:=Toy.proving_server) 5000 (Some 0) 4500 in
  let p := Checkpoints.mkPurported 4031 "ab" 2016 4031 1 in
  4031 / 2016 * 2016 <= 4031 < 4031 / 2016 * 2016 + 2016 /\
  (4031 + 1) / 2016 * 2016 - 1 = 4031 /\
  Checkpoints.p_last_chainwork p = 4031.
Proof.
  intros w p.
  pose proof (purported_checkpoint_heights (H:=Toy.proving_server)
                Toy.th_height (fun _ _ h => Ok h) (fun _ _ _ => Ok 1) (fun t => t)
                4031 w p
                (on_wire (H:=Toy.proving_server) (BlockHeader 2016 4031) w)
                eq_refl) as (_ & Hfirst & _ & Hlast & _).
  split; [exact Hfirst|]. split; [exact Hlast|]. reflexivity.
Defined.

End IfaceMore.

(** ** Certificates and the life of a connection *)

Module ConnectionProofs.
Import Iface Connection.

Section WithLibraries.
Variable X509 : Type.
Variable dePem : string -> presult bytes.
Variable x509 : bytes -> presult X509.
Variable check_date : X509 -> presult unit.
Variable DER_cert_to_PEM_cert : bytes -> string.
Variable ca_path : string.
Variable create_default_context : string -> presult unit.
Variable connector : nat -> option ssl_context -> presult unit.
Variable server_version : nat -> presult unit.
Variable getpeercert : nat -> presult (option bytes).
Variable task_group : nat -> bool * presult unit.

Abbreviation open_session := (open_session connector server_version task_group).
Abbreviation is_server_ca_signed :=
  (is_server_ca_signed connector server_version task_group).
Abbreviation get_certificate := (get_certificate getpeercert).
Abbreviation save_attempts := (save_attempts DER_cert_to_PEM_cert getpeercert).
Abbreviation save_certificate :=
  (save_certificate DER_cert_to_PEM_cert getpeercert).
Abbreviation _try_saving_ssl_cert_for_first_time :=
  (_try_saving_ssl_cert_for_first_time DER_cert_to_PEM_cert connector
     server_version getpeercert task_group).
Abbreviation _is_saved_ssl_cert_available :=
  (_is_saved_ssl_cert_available X509 dePem x509 check_date).
Abbreviation _get_ssl_context :=
  (_get_ssl_context X509 dePem x509 check_date DER_cert_to_PEM_cert ca_path
     create_default_context connector server_version getpeercert task_group).
Abbreviation run :=
  (run X509 dePem x509 check_date DER_cert_to_PEM_cert ca_path
     create_default_context connector server_version getpeercert task_group).

Ltac step_match :=
  match goal with
  | |- context [match ?x with _ => _ end] => destruct x eqn:?
  end.

Ltac run_n :=
  unfold nbind, ngets, nmodify, nret, nraise, nlift, try_except; simpl;
  repeat (step_match; simpl; simplify_eq); try done.

Lemma saved_cert_run s :
  _is_saved_ssl_cert_available s =
    match cert_file s with
    | None => NReturns false s
    | Some contents =>
        if String.eqb contents "" then NReturns true s
        else
          match dePem contents with
          | PErr e =>
              NRaises (match e with
                       | SyntaxError _ => ErrorParsingSSLCert e
                       | _ => e
                       end) s
          | POk b =>
              match x509 b with
              | PErr e => NRaises (ErrorParsingSSLCert e) s
              | POk x =>
                  match check_date x with
                  | POk _ => NReturns true s
                  | PErr e =>
                      match e with
                      | CertificateError _ =>
                          NReturns false (set_cert_file None s)
                      | _ => NRaises e s
                      end
                  end
              end
          end
    end.
Proof. unfold Connection._is_saved_ssl_cert_available. run_n. Qed.

(** X19: [_is_saved_ssl_cert_available] deletes the file in one case
    only: a pinned certificate that parses and whose dates
    [check_date] rejects with [CertificateError]; it then returns
    [False].  In every other case the file is as it was: when there is a
    usable certificate ([True]), when there is none ([False]), and when
    the pinned certificate cannot be parsed, which raises and leaves the
    bad file in place.  An empty file, the mark of a CA-signed server, is
    accepted without being parsed.  No connection is opened. *)
Theorem saved_cert_deleted_only_when_expired s :
  let r := _is_saved_ssl_cert_available s in
  (nfinal r = s \/
   r = NReturns false (set_cert_file None s) /\
   exists contents b x msg,
     cert_file s = Some contents /\ contents <> ""%string /\
     dePem contents = POk b /\ x509 b = POk x /\
     check_date x = PErr (CertificateError msg)) /\
  (r = NReturns true s <->
   exists contents,
     cert_file s = Some contents /\
     (contents = ""%string \/
      exists b x,
        dePem contents = POk b /\ x509 b = POk x /\ check_date x = POk tt)) /\
  (cert_file s = None -> r = NReturns false s) /\
  (forall e s', r = NRaises e s' ->
     s' = s /\
     exists contents,
       cert_file s = Some contents /\ contents <> ""%string /\
       (dePem contents = PErr e /\ (forall msg, e <> SyntaxError msg) \/
        (exists msg, dePem contents = PErr (SyntaxError msg) /\
                     e = ErrorParsingSSLCert (SyntaxError msg)) \/
        (exists b cause, dePem contents = POk b /\ x509 b = PErr cause /\
                         e = ErrorParsingSSLCert cause) \/
        (exists b x, dePem contents = POk b /\ x509 b = POk x /\
                     check_date x = PErr e /\
                     forall msg, e <> CertificateError msg))).
Proof.
  intros r. unfold r. rewrite saved_cert_run. clear r.
  destruct (cert_file s) as [contents|] eqn:Hfile.
  2: { split; [by left|]. split; [|done].
       split; [done|]. by intros (c & [=] & _). }
  destruct (String.eqb_spec contents "") as [->|Hne].
  { split; [by left|]. split; [|done]. split; [|done].
    intros _. exists ""%string. eauto. }
  destruct (dePem contents) as [b|e] eqn:Hpem.
  2: { split; [by left|]. split; [|split; [done|]].
       - split; [by destruct e|].
         intros (c & [= <-] & [?|(b & x & ? & _)]); [done|congruence].
       - intros e' s' He'. assert (s' = s) as -> by (by destruct e; simplify_eq).
         split; [done|]. exists contents. split; [done|]. split; [done|].
         destruct e; simplify_eq; eauto 10. }
  destruct (x509 b) as [x|e] eqn:Hx.
  2: { split; [by left|]. split; [|split; [done|]].
       - split; [done|].
         intros (c & [= <-] & [?|(b' & x & ? & ? & _)]); [done|congruence].
       - intros e' s' [= <- <-]. split; [done|]. exists contents.
         split; [done|]. split; [done|]. right; right; left. eauto. }
  destruct (check_date x) as [[]|e] eqn:Hdate.
  { split; [by left|]. split; [|done]. split; [|done].
    intros _. exists contents. split; [done|]. right. eauto. }
  split; [|split; [|split; [done|]]].
  - destruct e; try (by left). right. split; [done|]. eauto 10.
  - split; [by destruct e|].
    intros (c & [= <-] & [?|(b' & x' & ? & ? & ?)]); [done|congruence].
  - intros e' s' He'.
    assert (s' = s /\ e' = e /\ forall msg, e <> CertificateError msg)
      as (-> & -> & Hmsg) by (by destruct e; simplify_eq).
    split; [done|]. exists contents. split; [done|]. split; [done|].
    right; right; right. eauto 10.
Qed.

(** *** Fetching the certificate to pin *)

Lemma get_certificate_run s :
  get_certificate s =
    match getpeercert (connections s) with
    | POk d => NReturns d (connected s)
    | PErr e =>
        match e with
        | Core (ValueError _) => NReturns None (connected s)
        | _ => NRaises e (connected s)
        end
    end.
Proof. unfold Connection.get_certificate. run_n. Qed.

Lemma save_attempts_spec n : forall s,
  match save_attempts n s with
  | NReturns _ s' =>
      exists k der,
        (k < n)%nat /\ connections s' = (connections s + k + 1)%nat /\
        getpeercert (connections s + k)%nat = POk (Some der) /\ der <> [] /\
        cert_file s' = Some (sub_end 0 (DER_cert_to_PEM_cert der)) /\
        forall j, (j < k)%nat -> no_certificate (getpeercert (connections s + j)%nat)
  | NRaises e s' =>
      cert_file s' = cert_file s /\
      (e = Core (Exception "could not get certificate") /\
       connections s' = (connections s + n)%nat /\
       (forall j, (j < n)%nat ->
                  no_certificate (getpeercert (connections s + j)%nat))
       \/
       exists k,
         (k < n)%nat /\ connections s' = (connections s + k + 1)%nat /\
         getpeercert (connections s + k)%nat = PErr e /\
         (forall msg, e <> Core (ValueError msg)) /\
         forall j, (j < k)%nat ->
                   no_certificate (getpeercert (connections s + j)%nat))
  end.
Proof.
  induction n as [|n IH]; intros s.
  - simpl. split; [done|]. left. split; [done|]. split; [lia|]. intros j ?. lia.
  - cbn [Connection.save_attempts]. unfold nbind at 1.
    rewrite get_certificate_run.
    assert (forall k,
               (forall j, (j < k)%nat ->
                  no_certificate (getpeercert (connections (connected s) + j)%nat)) ->
               no_certificate (getpeercert (connections s)) ->
               forall j, (j < S k)%nat ->
                 no_certificate (getpeercert (connections s + j)%nat)) as Hshift'.
    { intros k Hrest Hno j Hj. destruct j as [|j].
      - by rewrite Nat.add_0_r.
      - replace (connections s + S j)%nat with (connections (connected s) + j)%nat
          by (simpl; lia).
        apply Hrest. lia. }
    assert (forall d, getpeercert (connections s) = POk d ->
                      truthy_bytes d = None ->
                      no_certificate (getpeercert (connections s))) as Hquiet
      by (by intros d ->).
    specialize (IH (connected s)).
    destruct (getpeercert (connections s)) as [d|e] eqn:Hget.
    + destruct (truthy_bytes d) as [der|] eqn:Hder.
      * unfold nmodify. simpl. exists 0%nat, der.
        assert (d = Some der /\ der <> []) as [-> ?].
        { destruct d as [[|a l]|]; simpl in Hder; [done| |done].
          injection Hder as <-. by split. }
        rewrite Nat.add_0_r. repeat split; try done; lia.
      * specialize (Hquiet d eq_refl Hder).
        destruct (save_attempts n (connected s)) as [[] s'|e s'].
        -- destruct IH as (k & der & Hk & Hc & Hg & Hne & Hf & Hno).
           exists (S k), der. simpl in *.
           replace (connections s + S k)%nat with (S (connections s + k))
             by lia.
           repeat split; try done; try lia. by apply Hshift'.
        -- destruct IH as [Hf [(-> & Hc & Hno)|(k & Hk & Hc & Hg & Hne & Hno)]].
           ++ split; [done|]. left. simpl in *. repeat split; try done; try lia.
              by apply Hshift'.
           ++ split; [done|]. right. exists (S k). simpl in *.
              replace (connections s + S k)%nat with (S (connections s + k))
                by lia.
              repeat split; try done; try lia.
              by apply Hshift'.
    + assert ((exists msg, e = Core (ValueError msg)) \/
              (forall msg, e <> Core (ValueError msg))) as [[msg ->]|Hne].
      { destruct e as [[]| | | | | | | | | |]; eauto; right; done. }
      * assert (no_certificate (PErr (Core (ValueError msg)))) as Hq
          by (simpl; eauto).
        simpl.
        destruct (save_attempts n (connected s)) as [[] s'|e s'].
        -- destruct IH as (k & der & Hk & Hc & Hg & Hne & Hf & Hno).
           exists (S k), der. simpl in *.
           replace (connections s + S k)%nat with (S (connections s + k))
             by lia.
           repeat split; try done; try lia. by apply Hshift'.
        -- destruct IH as [Hf [(-> & Hc & Hno)|(k & Hk & Hc & Hg & Hne & Hno)]].
           ++ split; [done|]. left. simpl in *. repeat split; try done; try lia.
              by apply Hshift'.
           ++ split; [done|]. right. exists (S k). simpl in *.
              replace (connections s + S k)%nat with (S (connections s + k))
                by lia.
              repeat split; try done; try lia.
              by apply Hshift'.
      * assert (match e with
                | Core (ValueError _) => NReturns None (connected s)
                | _ => NRaises e (connected s)
                end = NRaises e (connected s)) as ->.
        { destruct e as [[]| | | | | | | | | |]; try done. by destruct (Hne msg). }
        split; [done|]. right. exists 0%nat. rewrite Nat.add_0_r. simpl.
        repeat split; try done; lia.
Qed.

(** X20: [save_certificate] never writes over a certificate that is
    there.  With none there, it asks the server for its certificate up
    to 10 times and stops at the first answer that is a non-empty
    certificate, which it writes to the file as PEM with the line break
    before the END line put in; the attempts before it gave nothing.
    When it raises, either all 10 attempts gave nothing ("could not get
    certificate") or an attempt raised something other than
    [ValueError]; no file is written then. *)
Theorem save_certificate_first_success s :
  (is_Some (cert_file s) -> save_certificate s = NReturns tt s) /\
  (cert_file s = None ->
   match save_certificate s with
   | NReturns _ s' =>
       exists k der,
         (k < 10)%nat /\ connections s' = (connections s + k + 1)%nat /\
         getpeercert (connections s + k)%nat = POk (Some der) /\ der <> [] /\
         cert_file s' = Some (sub_end 0 (DER_cert_to_PEM_cert der)) /\
         forall j, (j < k)%nat ->
                   no_certificate (getpeercert (connections s + j)%nat)
   | NRaises e s' =>
       cert_file s' = None /\
       (e = Core (Exception "could not get certificate") /\
        connections s' = (connections s + 10)%nat /\
        (forall j, (j < 10)%nat ->
                   no_certificate (getpeercert (connections s + j)%nat))
        \/
        exists k,
          (k < 10)%nat /\ connections s' = (connections s + k + 1)%nat /\
          getpeercert (connections s + k)%nat = PErr e /\
          (forall msg, e <> Core (ValueError msg)) /\
          forall j, (j < k)%nat ->
                    no_certificate (getpeercert (connections s + j)%nat))
   end).
Proof.
  unfold Connection.save_certificate, nbind, ngets. split.
  - by intros [c ->].
  - intros Hnone. rewrite Hnone. pose proof (save_attempts_spec 10 s) as Hspec.
    destruct (save_attempts 10 s) as [[] s'|e s']; [done|].
    by rewrite <- Hnone.
Qed.

(** *** What the code under [run] leaves alone *)

Lemma life_kept_refl s : life_kept s s.
Proof. unfold life_kept. eauto. Qed.

Lemma life_kept_trans s1 s2 s3 :
  life_kept s1 s2 -> life_kept s2 s3 -> life_kept s1 s3.
Proof.
  unfold life_kept. intros (Hg & Hd & Hc & Hr) (Hg' & Hd' & Hc' & Hr').
  split; [congruence|]. split; [congruence|]. split; [lia|].
  destruct Hr as [Hr|Hr], Hr' as [Hr'|Hr']; rewrite Hr', Hr; eauto.
  right. by destruct (ready s1).
Qed.

Lemma keeps_ret {A} (a : A) : keeps (nret a).
Proof. intros s. apply life_kept_refl. Qed.

Lemma keeps_raise {A} e : keeps (nraise (A:=A) e).
Proof. intros s. apply life_kept_refl. Qed.

Lemma keeps_gets {A} (f : conn -> A) : keeps (ngets f).
Proof. intros s. apply life_kept_refl. Qed.

Lemma keeps_lift {A} (r : presult A) : keeps (nlift r).
Proof. intros s. unfold nlift. destruct r; apply life_kept_refl. Qed.

Lemma keeps_modify (f : conn -> conn) :
  (forall s, life_kept s (f s)) -> keeps (nmodify f).
Proof. intros Hf s. apply Hf. Qed.

Lemma keeps_bind {A B} (c : N conn A) (k : A -> N conn B) :
  keeps c -> (forall a, keeps (k a)) -> keeps (nbind c k).
Proof.
  intros Hc Hk s. unfold nbind. specialize (Hc s).
  destruct (c s) as [a s'|e s']; [|done].
  eapply life_kept_trans; [exact Hc|apply Hk].
Qed.

Lemma keeps_try_except {A} (c : N conn A) handler :
  keeps c -> (forall e k, handler e = Some k -> keeps k) ->
  keeps (try_except c handler).
Proof.
  intros Hc Hh s. unfold try_except. specialize (Hc s).
  destruct (c s) as [a s'|e s']; [done|].
  destruct (handler e) as [k|] eqn:Hk; [|done].
  eapply life_kept_trans; [exact Hc|by eapply Hh].
Qed.

Lemma life_kept_connected s : life_kept s (connected s).
Proof. unfold life_kept. simpl. repeat split; eauto. Qed.

Lemma life_kept_set_cert_file f s : life_kept s (set_cert_file f s).
Proof. unfold life_kept. simpl. repeat split; eauto. Qed.

Lemma life_kept_marked s : life_kept s (set_ready (marked (ready s)) s).
Proof. unfold life_kept. simpl. repeat split; eauto. Qed.

Create HintDb keeps.

Hint Resolve life_kept_connected life_kept_set_cert_file life_kept_marked
  : keeps.

Ltac keeping :=
  repeat first
    [ match goal with |- forall _, _ => intro end
    | solve [eauto with keeps]
    | match goal with
      | |- keeps (nret _) => apply keeps_ret
      | |- keeps (nraise _) => apply keeps_raise
      | |- keeps (ngets _) => apply keeps_gets
      | |- keeps (nlift _) => apply keeps_lift
      | |- keeps (nbind _ _) => apply keeps_bind
      | |- keeps (nmodify _) => apply keeps_modify
      | |- keeps (try_except _ _) => apply keeps_try_except
      | H : (match ?e with _ => _ end) = Some _ |- _ => destruct e; simplify_eq
      | H : (if ?b then _ else _) = Some _ |- _ => destruct b; simplify_eq
      | H : Some _ = Some _ |- _ => simplify_eq
      | |- keeps (match ?x with _ => _ end) => destruct x
      end ].

Lemma open_session_keeps sslc exit_early : keeps (open_session sslc exit_early).
Proof. unfold Connection.open_session. keeping. Qed.

Hint Resolve open_session_keeps : keeps.

Lemma is_server_ca_signed_keeps : keeps is_server_ca_signed.
Proof. unfold Connection.is_server_ca_signed. keeping. Qed.

Lemma get_certificate_keeps : keeps get_certificate.
Proof. unfold Connection.get_certificate. keeping. Qed.

Hint Resolve is_server_ca_signed_keeps get_certificate_keeps : keeps.

Lemma save_attempts_keeps n : keeps (save_attempts n).
Proof. induction n as [|n IH]; simpl; keeping. Qed.

Hint Resolve save_attempts_keeps : keeps.

Lemma save_certificate_keeps : keeps save_certificate.
Proof. unfold Connection.save_certificate. keeping. Qed.

Hint Resolve save_certificate_keeps : keeps.

Lemma try_saving_keeps : keeps _try_saving_ssl_cert_for_first_time.
Proof. unfold Connection._try_saving_ssl_cert_for_first_time. keeping. Qed.

Lemma is_saved_keeps : keeps _is_saved_ssl_cert_available.
Proof. unfold Connection._is_saved_ssl_cert_available. keeping. Qed.

Hint Resolve try_saving_keeps is_saved_keeps : keeps.

Lemma get_ssl_context_keeps protocol : keeps (_get_ssl_context protocol).
Proof. unfold Connection._get_ssl_context. keeping. Qed.

(** *** The TLS context *)

Lemma open_session_early sslc s :
  open_session sslc true s =
    match connector (connections s) sslc with
    | PErr e => NRaises e (connected s)
    | POk _ =>
        match server_version (connections s) with
        | POk _ => NReturns tt (connected s)
        | PErr e =>
            NRaises (match e with
                     | RPCError msg => Core (GracefulDisconnect msg)
                     | _ => e
                     end) (connected s)
        end
    end.
Proof. unfold Connection.open_session. run_n. Qed.

Lemma is_server_ca_signed_run s :
  is_server_ca_signed s =
    match open_session (Some CAContext) true s with
    | NReturns _ s' => NReturns true s'
    | NRaises e s' =>
        match e with
        | SSLError reason =>
            if String.eqb reason "CERTIFICATE_VERIFY_FAILED"
            then NReturns false s'
            else NRaises e s'
        | _ => NRaises e s'
        end
    end.
Proof.
  unfold Connection.is_server_ca_signed, try_except, nbind, nret, nraise.
  destruct (open_session (Some CAContext) true s) as [[] s'|e s']; [done|].
  destruct e; try done. by destruct (String.eqb _ _).
Qed.

Lemma nbind_returns {S A B} (c : N S A) (k : A -> N S B) s a s' :
  c s = NReturns a s' -> nbind c k s = k a s'.
Proof. intros Hc. unfold nbind. by rewrite Hc. Qed.

Lemma nbind_inv_returns {S A B} (c : N S A) (k : A -> N S B) s b s' :
  nbind c k s = NReturns b s' ->
  exists a s1, c s = NReturns a s1 /\ k a s1 = NReturns b s'.
Proof. unfold nbind. destruct (c s) as [a s1|]; [eauto|done]. Qed.

Lemma length_zero (contents : string) :
  (String.length contents =? 0)%nat = true <-> contents = ""%string.
Proof. destruct contents; simpl; split; done. Qed.

Lemma get_ssl_context_tls s :
  _get_ssl_context "s" s =
    match create_default_context ca_path with
    | PErr e => NRaises e s
    | POk _ =>
        (let+ available := _is_saved_ssl_cert_available in
         (if negb available then _try_saving_ssl_cert_for_first_time
          else nret tt);;+
         let+ file := ngets cert_file in
         match file with
         | None => nraise (OSError "No such file or directory")
         | Some contents =>
             if (String.length contents =? 0)%nat then nret (Some CAContext)
             else
               nlift (create_default_context contents);;+
               nret (Some (PinnedContext contents false))
         end) s
    end.
Proof.
  unfold Connection._get_ssl_context. cbn [String.eqb Ascii.eqb Bool.eqb negb].
  unfold nbind at 1, nlift at 1.
  by destruct (create_default_context ca_path).
Qed.

(** X21: [_get_ssl_context] trusts what is saved.  Plain TCP gets no
    context and touches nothing.  For TLS the context of the CA bundle is
    made first, and its failure is raised with nothing touched.  After
    that, an empty saved file gives the CA context, and a saved
    certificate that parses and is in date gives the context pinned to
    it, both without opening a connection: what the server presents now
    is not asked.  Whenever a context is returned for TLS, the file is
    there: empty with the CA context, or the very certificate the
    context is pinned to, and a pinned context never checks the host
    name. *)
Theorem get_ssl_context_trusts_saved protocol s :
  (protocol <> "s"%string -> _get_ssl_context protocol s = NReturns None s) /\
  (forall e, create_default_context ca_path = PErr e ->
             _get_ssl_context "s" s = NRaises e s) /\
  (create_default_context ca_path = POk tt -> cert_file s = Some ""%string ->
   _get_ssl_context "s" s = NReturns (Some CAContext) s) /\
  (forall contents b x,
     create_default_context ca_path = POk tt ->
     cert_file s = Some contents -> contents <> ""%string ->
     dePem contents = POk b -> x509 b = POk x -> check_date x = POk tt ->
     _get_ssl_context "s" s =
       match create_default_context contents with
       | POk _ => NReturns (Some (PinnedContext contents false)) s
       | PErr e => NRaises e s
       end) /\
  (forall sslc s',
     _get_ssl_context "s" s = NReturns sslc s' ->
     create_default_context ca_path = POk tt /\
     exists contents,
       cert_file s' = Some contents /\
       (contents = ""%string /\ sslc = Some CAContext \/
        contents <> ""%string /\ sslc = Some (PinnedContext contents false))).
Proof.
  split; [|split; [|split; [|split]]].
  - intros Hp. unfold Connection._get_ssl_context.
    by destruct (String.eqb_spec protocol "s").
  - intros e Hca. by rewrite get_ssl_context_tls, Hca.
  - intros Hca Hfile. rewrite get_ssl_context_tls, Hca.
    unfold nbind at 1. rewrite saved_cert_run, Hfile. simpl.
    unfold nbind, nret, ngets. by rewrite Hfile.
  - intros contents b x Hca Hfile Hne Hpem Hx Hdate.
    rewrite get_ssl_context_tls, Hca.
    unfold nbind at 1. rewrite saved_cert_run, Hfile, Hpem, Hx, Hdate.
    destruct (String.eqb_spec contents ""); [done|]. simpl.
    unfold nbind, nret, ngets, nlift. rewrite Hfile.
    destruct (Nat.eqb_spec (String.length contents) 0) as [Hlen|_].
    + by destruct contents.
    + by destruct (create_default_context contents).
  - intros sslc s'. rewrite get_ssl_context_tls.
    destruct (create_default_context ca_path) as [[]|]; [|done].
    intros (available & s1 & _ & Hrun)%nbind_inv_returns. split; [done|].
    apply nbind_inv_returns in Hrun as ([] & s2 & _ & Hrun).
    apply nbind_inv_returns in Hrun as (file & s3 & [= <- <-] & Hrun).
    destruct (cert_file s2) as [contents|] eqn:Hfile; [|done].
    destruct (Nat.eqb_spec (String.length contents) 0) as [Hlen|Hlen].
    + injection Hrun as <- <-. exists contents. split; [done|]. left.
      split; [|done]. by destruct contents.
    + apply nbind_inv_returns in Hrun as ([] & s4 & Hctx & [= <- <-]).
      unfold nlift in Hctx.
      destruct (create_default_context contents) as [[]|]; [|done].
      injection Hctx as <-. exists contents. split; [done|]. right.
      split; [|done]. by intros ->.
Qed.

(** X22: the first contact, with no file saved, once the context of
    the CA bundle is made.  If the handshake under the CA context
    succeeds, an empty file is written and the CA
    context is used.  If it fails with CERTIFICATE_VERIFY_FAILED, a
    second connection that verifies nothing fetches the certificate
    the server presents, which is written to the file and pinned.  Any
    other [OSError] (an [SSLError] is one) or [SOCKSError] from the
    handshake is raised as [ErrorGettingSSLCertFromServer], and no file
    is written. *)
Theorem first_contact_pins_or_marks s :
  create_default_context ca_path = POk tt ->
  cert_file s = None ->
  let n := connections s in
  (connector n (Some CAContext) = POk tt -> server_version n = POk tt ->
   _get_ssl_context "s" s
   = NReturns (Some CAContext) (set_cert_file (Some ""%string) (connected s))) /\
  (connector n (Some CAContext) = PErr (SSLError "CERTIFICATE_VERIFY_FAILED") ->
   forall der,
     getpeercert (S n) = POk (Some der) -> der <> [] ->
     let cert := sub_end 0 (DER_cert_to_PEM_cert der) in
     cert <> ""%string -> create_default_context cert = POk tt ->
     _get_ssl_context "s" s
     = NReturns (Some (PinnedContext cert false))
         (set_cert_file (Some cert) (connected (connected s)))) /\
  (forall e,
     connector n (Some CAContext) = PErr e ->
     is_OSError e || is_SOCKSError e = true ->
     e <> SSLError "CERTIFICATE_VERIFY_FAILED" ->
     _get_ssl_context "s" s
     = NRaises (ErrorGettingSSLCertFromServer e) (connected s)).
Proof.
  intros Hca Hfile n.
  assert (_is_saved_ssl_cert_available s = NReturns false s) as Hsaved
    by (by rewrite saved_cert_run, Hfile).
  rewrite get_ssl_context_tls, Hca.
  rewrite (nbind_returns _ _ _ _ _ Hsaved). cbn [negb].
  unfold Connection._try_saving_ssl_cert_for_first_time.
  split; [|split].
  - intros Hconn Hver.
    unfold nbind at 1 2. unfold try_except at 1.
    rewrite is_server_ca_signed_run, open_session_early.
    change (connections s) with n. rewrite Hconn, Hver.
    unfold nmodify, nbind, ngets, nret. by simpl.
  - intros Hconn der Hder Hne. cbv zeta.
    set (cert := sub_end 0 (DER_cert_to_PEM_cert der)). intros Hcert Hctx.
    unfold nbind at 1 2. unfold try_except at 1.
    rewrite is_server_ca_signed_run, open_session_early.
    change (connections s) with n. rewrite Hconn.
    cbn [String.eqb Ascii.eqb Bool.eqb].
    unfold Connection.save_certificate, nbind at 1, ngets at 1.
    change (cert_file (connected s)) with (cert_file s).
    rewrite Hfile. cbn [Connection.save_attempts]. unfold nbind at 1.
    rewrite get_certificate_run.
    change (connections (connected s)) with (S n). rewrite Hder.
    assert (truthy_bytes (Some der) = Some der) as ->
      by (by destruct der).
    unfold nmodify, nbind, ngets, nlift, nret. simpl. fold cert.
    destruct (Nat.eqb_spec (String.length cert) 0) as [Hlen|_].
    + by destruct cert.
    + by rewrite Hctx.
  - intros e Hconn Hos Hne.
    unfold nbind at 1 2. unfold try_except at 1.
    rewrite is_server_ca_signed_run, open_session_early.
    change (connections s) with n. rewrite Hconn.
    assert (match e with
            | SSLError reason =>
                if String.eqb reason "CERTIFICATE_VERIFY_FAILED"
                then NReturns false (connected s)
                else NRaises e (connected s)
            | _ => NRaises e (connected s)
            end = NRaises e (connected s)) as ->.
    { destruct e; try done.
      destruct (String.eqb_spec reason "CERTIFICATE_VERIFY_FAILED"); [|done].
      by subst. }
    by rewrite Hos.
Qed.

(** *** [run] *)

Lemma handle_disconnect_run {A} (func : N conn A) s :
  got_disconnected s = Pending -> keeps func ->
  let s' := nfinal (func s) in
  let final :=
    set_ready (cancel (ready s')) (set_got_disconnected Done (connection_down s')) in
  handle_disconnect func s =
    match func s with
    | NReturns a _ => NReturns (Some a) final
    | NRaises e _ =>
        if is_GracefulDisconnect e then NReturns None final else NRaises e final
    end.
Proof.
  intros Hgot Hkeeps. specialize (Hkeeps s). unfold handle_disconnect.
  destruct (func s) as [a s'|e s']; simpl in *;
    destruct Hkeeps as (Hg & _); rewrite Hg, Hgot; [done|].
  by destruct (is_GracefulDisconnect e).
Qed.

Lemma run_body_keeps protocol :
  keeps
    (let+ ssl_context :=
       try_except
         (let+ c := _get_ssl_context protocol in nret (Some c))
         (fun e => if is_cert_error e then Some (nret None) else None) in
     match ssl_context with
     | None => nret tt
     | Some ssl_context =>
         try_except (open_session ssl_context false)
           (fun e => if is_CancelledError e || is_OSError e || is_SOCKSError e
                     then Some (nret tt)
                     else None)
     end).
Proof. pose proof get_ssl_context_keeps. keeping. Qed.


End WithLibraries.

Import ToyConnection.

(** A self-signed server, met for the first time: the certificate it
    presents is pinned, with the line break put in before its END
    line. *)
Lemma first_contact_pins_or_marks_witness :
  let cert := ("-----BEGIN CERTIFICATE-----"
               +:+ String newline ("AA==" +:+ String newline END_CERTIFICATE))%string in
  _get_ssl_context unit dePem x509 check_date DER_cert_to_PEM_cert ca_path
    create_default_context connector server_version getpeercert task_group
    "s" (new_conn None)
  = NReturns (Some (PinnedContext cert false))
      (set_cert_file (Some cert) (connected (connected (new_conn None)))).
Proof.
  intros cert.
  apply (proj1 (proj2 (first_contact_pins_or_marks unit dePem x509 check_date
                         DER_cert_to_PEM_cert ca_path create_default_context
                         connector server_version getpeercert task_group
                         (new_conn None) eq_refl eq_refl))
           eq_refl ["x"%char] eq_refl).
  - discriminate.
  - vm_compute. discriminate.
  - reflexivity.
Defined.


End ConnectionProofs.
